(** * OpenHands CLI settings wizard and configuration root

    A shallow embedding of [openhands/core/config/openhands_config.py]
    (the configuration root with its named LLM and agent profiles) and of
    [openhands/cli/settings.py] (the interactive flows that edit it).

    Python objects are mutable and shared by reference, so LLM and agent
    configurations live in object stores addressed by location, and the
    [llms] / [agents] dictionaries of the configuration root map profile
    names to locations.  The flows are written in a state-and-exception
    monad over a [World] made of that memory, the settings store, the
    terminal and the logger. *)

From stdpp Require Import base option list strings gmap fin_maps.

Local Open Scope string_scope.
Local Open Scope list_scope.

(** ** Exceptions *)

Inductive exn : Type :=
  | UserCancelledError
  | KeyboardInterrupt
  | EOFError
  | IndexError
  | KeyError
  | StopIteration.

#[global] Instance exn_eq_dec : EqDecision exn.
Proof. solve_decision. Defined.

(** ** Data model *)

Abbreviation loc := nat (only parsing).

(** [pydantic.SecretStr]: a wrapper around the secret text. *)
Inductive SecretStr : Type := Secret (text : string).

#[global] Instance SecretStr_eq_dec : EqDecision SecretStr.
Proof. solve_decision. Defined.

(** The fields of [LLMConfig] that the flows read or assign. *)
Record LLMConfig : Type := mkLLMConfig {
  model : string;
  api_key : option SecretStr;
  base_url : option string;
}.

Definition set_model (v : string) (c : LLMConfig) : LLMConfig :=
  {| model := v; api_key := api_key c; base_url := base_url c |}.
Definition set_api_key (v : option SecretStr) (c : LLMConfig) : LLMConfig :=
  {| model := model c; api_key := v; base_url := base_url c |}.
Definition set_base_url (v : option string) (c : LLMConfig) : LLMConfig :=
  {| model := model c; api_key := api_key c; base_url := v |}.

(** Condenser configurations.  The summarising condenser refers to the LLM
    configuration object it was built with; [keep_first] and [max_size] are
    [None] when the constructor is called without them. *)
#[warnings="-register-all"]
Inductive CondenserConfig : Type :=
  | LLMSummarizingCondenserConfig
      (llm_config : loc) (keep_first max_size : option nat)
  | ConversationWindowCondenserConfig
  | CondenserPipelineConfig (condensers : list CondenserConfig)
  | OtherCondenserConfig (type : string).

Record AgentConfig : Type := mkAgentConfig {
  condenser : CondenserConfig;
}.

Definition set_condenser (v : CondenserConfig) (_ : AgentConfig) : AgentConfig :=
  {| condenser := v |}.

Module SecurityConfig.
Record t : Type := mk { confirmation_mode : bool }.
End SecurityConfig.

(** The configuration root: the two dictionaries of named profiles and the
    scalar fields the settings screen shows or edits. *)
Record OpenHandsConfig : Type := mkOpenHandsConfig {
  llms : gmap string loc;
  agents : gmap string loc;
  default_agent : string;
  security : SecurityConfig.t;
  file_store_path : string;
  search_api_key : option SecretStr;
  enable_default_condenser : bool;
}.

Definition set_llms (v : gmap string loc) (c : OpenHandsConfig) :=
  {| llms := v; agents := agents c; default_agent := default_agent c;
     security := security c; file_store_path := file_store_path c;
     search_api_key := search_api_key c;
     enable_default_condenser := enable_default_condenser c |}.
Definition set_agents (v : gmap string loc) (c : OpenHandsConfig) :=
  {| llms := llms c; agents := v; default_agent := default_agent c;
     security := security c; file_store_path := file_store_path c;
     search_api_key := search_api_key c;
     enable_default_condenser := enable_default_condenser c |}.
Definition set_default_agent (v : string) (c : OpenHandsConfig) :=
  {| llms := llms c; agents := agents c; default_agent := v;
     security := security c; file_store_path := file_store_path c;
     search_api_key := search_api_key c;
     enable_default_condenser := enable_default_condenser c |}.
Definition set_security (v : SecurityConfig.t) (c : OpenHandsConfig) :=
  {| llms := llms c; agents := agents c; default_agent := default_agent c;
     security := v; file_store_path := file_store_path c;
     search_api_key := search_api_key c;
     enable_default_condenser := enable_default_condenser c |}.
Definition set_search_api_key (v : option SecretStr) (c : OpenHandsConfig) :=
  {| llms := llms c; agents := agents c; default_agent := default_agent c;
     security := security c; file_store_path := file_store_path c;
     search_api_key := v;
     enable_default_condenser := enable_default_condenser c |}.
Definition set_enable_default_condenser (v : bool) (c : OpenHandsConfig) :=
  {| llms := llms c; agents := agents c; default_agent := default_agent c;
     security := security c; file_store_path := file_store_path c;
     search_api_key := search_api_key c;
     enable_default_condenser := v |}.

(** The persisted user preferences ([storage.data_models.settings.Settings]),
    restricted to the fields the flows assign. *)
Module Settings.
Record t : Type := mk {
  llm_model : option string;
  llm_api_key : option SecretStr;
  llm_base_url : option string;
  agent : option string;
  confirmation_mode : option bool;
  enable_default_condenser : bool;
  search_api_key : option SecretStr;
}.

Definition set_llm_model v (s : t) :=
  mk v (llm_api_key s) (llm_base_url s) (agent s) (confirmation_mode s)
     (enable_default_condenser s) (search_api_key s).
Definition set_llm_api_key v (s : t) :=
  mk (llm_model s) v (llm_base_url s) (agent s) (confirmation_mode s)
     (enable_default_condenser s) (search_api_key s).
Definition set_llm_base_url v (s : t) :=
  mk (llm_model s) (llm_api_key s) v (agent s) (confirmation_mode s)
     (enable_default_condenser s) (search_api_key s).
Definition set_agent v (s : t) :=
  mk (llm_model s) (llm_api_key s) (llm_base_url s) v (confirmation_mode s)
     (enable_default_condenser s) (search_api_key s).
Definition set_confirmation_mode v (s : t) :=
  mk (llm_model s) (llm_api_key s) (llm_base_url s) (agent s) v
     (enable_default_condenser s) (search_api_key s).
Definition set_enable_default_condenser v (s : t) :=
  mk (llm_model s) (llm_api_key s) (llm_base_url s) (agent s)
     (confirmation_mode s) v (search_api_key s).
Definition set_search_api_key v (s : t) :=
  mk (llm_model s) (llm_api_key s) (llm_base_url s) (agent s)
     (confirmation_mode s) (enable_default_condenser s) v.
End Settings.

(** ** The world the flows run in *)

(** The configuration root together with the objects its dictionaries point
    to.  A location is an index into the object list; allocation appends. *)
Record Memory : Type := mkMemory {
  root : OpenHandsConfig;
  llm_objects : list LLMConfig;
  agent_objects : list AgentConfig;
}.

(** Modelled from the spec: the settings store collaborator
    ([FileSettingsStore], not part of these sources) with its contract
    [load() -> Settings|None], [store(Settings) -> None].  [stored] keeps
    every record handed to [store], oldest first. *)
Record SettingsStore : Type := mkSettingsStore {
  persisted : option Settings.t;
  stored : list Settings.t;
}.

(** What the terminal shows and what the user answers, in order. *)
Inductive event : Type :=
  | Printed (text : string)
  | Confirmed (question : string) (choices : list string) (answer : exn + nat)
  | Prompted (prompt_text : string) (completer : option (list string))
             (answer : exn + string).

(** Modelled from the spec: the interactive terminal (prompt_toolkit and
    [openhands.cli.tui], not part of these sources): prompts returning the
    typed line and confirmation dialogs returning the selected index, either
    of which may raise instead.  [keyboard] holds the user's pending answers
    to text prompts and [dialogs] the pending answers to confirmation
    dialogs; [completer] is the [completer] attribute of the prompt session;
    [trace] records what happened on the terminal. *)
Record Terminal : Type := mkTerminal {
  keyboard : list (exn + string);
  dialogs : list (exn + nat);
  completer : option (list string);
  trace : list event;
}.

Record World : Type := mkWorld {
  memory : Memory;
  settings_store : SettingsStore;
  terminal : Terminal;
  warnings : list string;
}.

Definition set_memory (v : Memory) (w : World) : World :=
  {| memory := v; settings_store := settings_store w;
     terminal := terminal w; warnings := warnings w |}.
Definition set_settings_store (v : SettingsStore) (w : World) : World :=
  {| memory := memory w; settings_store := v;
     terminal := terminal w; warnings := warnings w |}.
Definition set_terminal (v : Terminal) (w : World) : World :=
  {| memory := memory w; settings_store := settings_store w;
     terminal := v; warnings := warnings w |}.
Definition set_warnings (v : list string) (w : World) : World :=
  {| memory := memory w; settings_store := settings_store w;
     terminal := terminal w; warnings := v |}.

Definition set_root (v : OpenHandsConfig) (m : Memory) : Memory :=
  {| root := v; llm_objects := llm_objects m; agent_objects := agent_objects m |}.
Definition set_llm_objects (v : list LLMConfig) (m : Memory) : Memory :=
  {| root := root m; llm_objects := v; agent_objects := agent_objects m |}.
Definition set_agent_objects (v : list AgentConfig) (m : Memory) : Memory :=
  {| root := root m; llm_objects := llm_objects m; agent_objects := v |}.

Definition config (w : World) : OpenHandsConfig := root (memory w).

(** ** The monad of flows *)

(** A computation ends with a value, with a raised exception, or is left
    waiting at the terminal because the user has given no (further) answer. *)
Inductive outcome (A : Type) : Type :=
  | Done (a : A)
  | Raised (e : exn)
  | Blocked.
Arguments Done {A} a.
Arguments Raised {A} e.
Arguments Blocked {A}.

Definition M (A : Type) : Type := World → outcome A * World.

Definition ret {A} (a : A) : M A := λ w, (Done a, w).

Definition bind {A B} (m : M A) (k : A → M B) : M B :=
  λ w, match m w with
       | (Done a, w') => k a w'
       | (Raised e, w') => (Raised e, w')
       | (Blocked, w') => (Blocked, w')
       end.

Definition raise {A} (e : exn) : M A := λ w, (Raised e, w).
Definition gets {A} (f : World → A) : M A := λ w, (Done (f w), w).
Definition modify (f : World → World) : M unit := λ w, (Done tt, f w).

Declare Scope flow_scope.
Delimit Scope flow_scope with flow.
Notation "'let*' x ':=' m 'in' k" := (bind m (λ x, k))
  (at level 10, x pattern, m at level 100, k at level 200) : flow_scope.
Notation "m '>>' k" := (bind m (λ _, k))
  (at level 100, k at level 200, right associativity) : flow_scope.
Local Open Scope flow_scope.

(** [l[i]] on a Python list, for a non-negative index. *)
Definition item {A} (l : list A) (i : nat) : M A :=
  match l !! i with
  | Some x => ret x
  | None => raise IndexError
  end.

Definition modify_root (f : OpenHandsConfig → OpenHandsConfig) : M unit :=
  modify (λ w, set_memory (set_root (f (config w)) (memory w)) w).

(** ** [OpenHandsConfig]: named profiles *)

Section OpenHandsConfigMethods.

(** [LLMConfig()] and [AgentConfig()]: the default-constructed objects
    (their classes are not part of these sources). *)
Variable LLMConfig_new : LLMConfig.
Variable AgentConfig_new : AgentConfig.

(** Object construction: the new object gets the next free location. *)
Definition new_llm_object (c : LLMConfig) : M loc :=
  λ w, let m := memory w in
       (Done (length (llm_objects m)),
        set_memory (set_llm_objects (llm_objects m ++ [c]) m) w).

Definition new_agent_object (c : AgentConfig) : M loc :=
  λ w, let m := memory w in
       (Done (length (agent_objects m)),
        set_memory (set_agent_objects (agent_objects m ++ [c]) m) w).

(** [logger.openhands_logger.warning(text)]. *)
Definition logger_warning (text : string) : M unit :=
  modify (λ w, set_warnings (warnings w ++ [text]) w).

Definition get_llm_config (name : string) : M loc :=
  let* llms0 := gets (λ w, llms (config w)) in
  match llms0 !! name with
  | Some l => ret l
  | None =>
      (if bool_decide (name ≠ "llm")
       then logger_warning
              ("llm config group " +:+ name +:+ " not found, using default config")
       else ret tt) >>
      let* llms1 := gets (λ w, llms (config w)) in
      (if bool_decide ("llm" ∉ dom llms1)
       then let* l := new_llm_object LLMConfig_new in
            modify_root (λ c, set_llms (<["llm" := l]> (llms c)) c)
       else ret tt) >>
      let* llms2 := gets (λ w, llms (config w)) in
      match llms2 !! "llm" with
      | Some l => ret l
      | None => raise KeyError
      end
  end.

Definition set_llm_config (value : loc) (name : string) : M unit :=
  modify_root (λ c, set_llms (<[name := value]> (llms c)) c).

Definition get_agent_config (name : string) : M loc :=
  let* agents0 := gets (λ w, agents (config w)) in
  match agents0 !! name with
  | Some l => ret l
  | None =>
      (if bool_decide ("agent" ∉ dom agents0)
       then let* l := new_agent_object AgentConfig_new in
            modify_root (λ c, set_agents (<["agent" := l]> (agents c)) c)
       else ret tt) >>
      let* agents1 := gets (λ w, agents (config w)) in
      match agents1 !! "agent" with
      | Some l => ret l
      | None => raise KeyError
      end
  end.

Definition set_agent_config (value : loc) (name : string) : M unit :=
  modify_root (λ c, set_agents (<[name := value]> (agents c)) c).

End OpenHandsConfigMethods.

(** ** Terminal, prompts and the settings store *)

Definition nl : string := String (Ascii.ascii_of_nat 10) EmptyString.
Definition dquote : string := String (Ascii.ascii_of_nat 34) EmptyString.

Definition log_event (ev : event) (t : Terminal) : Terminal :=
  {| keyboard := keyboard t; dialogs := dialogs t; completer := completer t;
     trace := trace t ++ [ev] |}.
Definition set_keyboard (v : list (exn + string)) (t : Terminal) : Terminal :=
  {| keyboard := v; dialogs := dialogs t; completer := completer t;
     trace := trace t |}.
Definition set_dialogs (v : list (exn + nat)) (t : Terminal) : Terminal :=
  {| keyboard := keyboard t; dialogs := v; completer := completer t;
     trace := trace t |}.
Definition set_completer (v : option (list string)) (t : Terminal) : Terminal :=
  {| keyboard := keyboard t; dialogs := dialogs t; completer := v;
     trace := trace t |}.

(** Modelled from the spec: [print_formatted_text(text)] of prompt_toolkit,
    presentation only.  The text is recorded with its markup as written, and
    printing is taken to succeed whatever the text. *)
Definition print_formatted_text (text : string) : M unit :=
  modify (λ w, set_terminal (log_event (Printed text) (terminal w)) w).

Fixpoint print_lines (lines : list string) : M unit :=
  match lines with
  | [] => ret tt
  | text :: rest => print_formatted_text text >> print_lines rest
  end.

(** [PromptSession(key_bindings=kb_cancel())]: a fresh session has no
    completer. *)
Definition PromptSession : M unit :=
  modify (λ w, set_terminal (set_completer None (terminal w)) w).

(** Modelled from the spec: [cli_confirm(config, question, choices)] of
    [openhands.cli.tui], a confirmation dialog that shows the choices and returns
    the index the user selects. *)
Definition cli_confirm (question : string) (choices : list string) : M nat :=
  λ w, match dialogs (terminal w) with
       | [] => (Blocked, w)
       | answer :: rest =>
           let t := log_event (Confirmed question choices answer)
                      (set_dialogs rest (terminal w)) in
           match answer with
           | inl e => (Raised e, set_terminal t w)
           | inr i => (Done i, set_terminal t w)
           end
       end.

(** A validator decides on a value and may print while doing so: it yields
    its verdict and the lines it printed. *)
Definition validator_t : Type := string → bool * list string.

Definition blocked {A} : M A := λ w, (Blocked, w).

(** Modelled from the spec: [session.prompt_async(prompt_text)] of
    prompt_toolkit, when the user's next answer is
    [answer] and [rest] is still to come. *)
Definition prompt_async (prompt_text : string) (answer : exn + string)
    (rest : list (exn + string)) : M string :=
  λ w,
  let t := log_event (Prompted prompt_text (completer (terminal w)) answer)
             (set_keyboard rest (terminal w)) in
  match answer with
  | inl e => (Raised e, set_terminal t w)
  | inr value => (Done value, set_terminal t w)
  end.

(** The [while True] loop of [get_validated_input], one iteration per pending
    answer: a rejected value leads to the next iteration ([continue]), an
    accepted one leaves the loop ([break]).  With no answer left the flow
    stays at the prompt. *)
Fixpoint get_validated_input_loop (prompt_text : string)
    (validator : option validator_t) (error_message : string)
    (pending : list (exn + string)) : M string :=
  match pending with
  | [] => blocked
  | answer :: rest =>
      let* value := prompt_async prompt_text answer rest in
      match validator with
      | Some validate =>
          let '(is_valid, printed) := validate value in
          print_lines printed >>
          if negb is_valid
          then
            print_formatted_text EmptyString >>
            print_formatted_text
              ("<grey>" +:+ error_message +:+ ": " +:+ value +:+ "</grey>") >>
            print_formatted_text EmptyString >>
            get_validated_input_loop prompt_text validator error_message rest
          else ret value
      | None =>
          if bool_decide (value = EmptyString)
          then
            print_formatted_text EmptyString >>
            print_formatted_text ("<grey>" +:+ error_message +:+ "</grey>") >>
            print_formatted_text EmptyString >>
            get_validated_input_loop prompt_text validator error_message rest
          else ret value
      end
  end.

Definition get_validated_input (prompt_text : string)
    (completer : option (list string)) (validator : option validator_t)
    (error_message : string) : M string :=
  modify (λ w, set_terminal (set_completer completer (terminal w)) w) >>
  let* pending := gets (λ w, keyboard (terminal w)) in
  get_validated_input_loop prompt_text validator error_message pending.

Definition save_question : string :=
  nl +:+ "Save new settings? (They will take effect after restart)".
Definition save_choices : list string := ["Yes, save"; "No, discard"].

Definition save_settings_confirmation : M bool :=
  let* choice := cli_confirm save_question save_choices in
  ret (bool_decide (choice = 0)).

(** Modelled from the spec: [settings_store.load()] and
    [settings_store.store(settings)] of the settings store collaborator. *)
Definition settings_store_load : M (option Settings.t) :=
  gets (λ w, persisted (settings_store w)).

Definition settings_store_store (settings : Settings.t) : M unit :=
  modify (λ w, set_settings_store
                 {| persisted := Some settings;
                    stored := stored (settings_store w) ++ [settings] |} w).

(** The cancellation signals of [except (UserCancelledError,
    KeyboardInterrupt, EOFError)]. *)
Definition is_cancellation (e : exn) : bool :=
  match e with
  | UserCancelledError | KeyboardInterrupt | EOFError => true
  | _ => false
  end.

(** [try: body / except (...cancellation...): return]: [None] stands for the
    [return] taken by the handler; any other exception propagates. *)
Definition try_except_return {A} (body : M A) : M (option A) :=
  λ w, match body w with
       | (Done a, w') => (Done (Some a), w')
       | (Raised e, w') =>
           if is_cancellation e then (Done None, w') else (Raised e, w')
       | (Blocked, w') => (Blocked, w')
       end.

(** Attribute assignment on an object held by reference. *)
Definition assign_llm (l : loc) (f : LLMConfig → LLMConfig) : M unit :=
  modify (λ w, set_memory
                 (set_llm_objects (alter f l (llm_objects (memory w))) (memory w)) w).
Definition assign_agent (l : loc) (f : AgentConfig → AgentConfig) : M unit :=
  modify (λ w, set_memory
                 (set_agent_objects (alter f l (agent_objects (memory w)))
                    (memory w)) w).

(** ** Strings and dictionaries as Python has them *)

(** Python text is Unicode; a [string] holds its UTF-8 bytes. *)
Definition text_of (bytes : list nat) : string :=
  String.string_of_list_ascii (Ascii.ascii_of_nat <$> bytes).

(** The characters [str.isspace] accepts, which [str.strip()] removes, each
    as its UTF-8 bytes: U+0009 to U+000D, U+001C to U+0020, U+0085, U+00A0,
    U+1680, U+2000 to U+200A, U+2028, U+2029, U+202F, U+205F and U+3000. *)
Definition whitespace : list string :=
  text_of <$>
    [[9]; [10]; [11]; [12]; [13]; [28]; [29]; [30]; [31]; [32];
     [194; 133]; [194; 160]; [225; 154; 128];
     [226; 128; 128]; [226; 128; 129]; [226; 128; 130]; [226; 128; 131];
     [226; 128; 132]; [226; 128; 133]; [226; 128; 134]; [226; 128; 135];
     [226; 128; 136]; [226; 128; 137]; [226; 128; 138];
     [226; 128; 168]; [226; 128; 169]; [226; 128; 175];
     [226; 129; 159]; [227; 128; 128]].

Fixpoint startswith (s p : string) : bool :=
  match p, s with
  | EmptyString, _ => true
  | String _ _, EmptyString => false
  | String a p', String b s' => bool_decide (a = b) && startswith s' p'
  end.

(** The number of bytes of the first of [chars] that [s] starts with, or 0
    when it starts with none of them. *)
Definition leading_width (chars : list string) (s : string) : nat :=
  default 0 (String.length <$> head (filter (λ c, startswith s c = true) chars)).

(** [s] without the characters of [chars] it starts with; [skip] counts the
    bytes still to drop of the character being removed. *)
Fixpoint lstrip_chars (chars : list string) (skip : nat) (s : string)
    : string :=
  match s with
  | EmptyString => EmptyString
  | String _ s' =>
      match skip with
      | S k => lstrip_chars chars k s'
      | 0 =>
          match leading_width chars s with
          | S k => lstrip_chars chars k s'
          | 0 => s
          end
      end
  end.

Definition lstrip (s : string) : string := lstrip_chars whitespace 0 s.

(** Trailing whitespace is leading whitespace of the reversed bytes. *)
Definition rstrip (s : string) : string :=
  String.rev (lstrip_chars (String.rev <$> whitespace) 0 (String.rev s)).

Definition strip (s : string) : string := rstrip (lstrip s).

(** An insertion-ordered dictionary with string keys. *)
Definition dict (V : Type) : Type := list (string * V).

Definition keys {V} (d : dict V) : list string := d.*1.

Fixpoint dict_get {V} (d : dict V) (k : string) : option V :=
  match d with
  | [] => None
  | (k', v) :: rest => if bool_decide (k' = k) then Some v else dict_get rest k
  end.

(** [d[k]] *)
Definition dict_item {V} (d : dict V) (k : string) : M V :=
  match dict_get d k with
  | Some v => ret v
  | None => raise KeyError
  end.

(** [next(iter(d.keys()))] *)
Definition first_key {V} (d : dict V) : M string :=
  match keys d with
  | k :: _ => ret k
  | [] => raise StopIteration
  end.

(** One value of the dictionary returned by [organize_models_and_providers]:
    [{'separator': ..., 'models': [...]}]. *)
Record ProviderEntry : Type := mkProviderEntry {
  separator : string;
  models : list string;
}.

(** ** The wizard flows of [openhands/cli/settings.py] *)

(** What the flows import from modules that are not part of these sources:
    constants of [openhands.cli.utils] and [openhands.core.config.utils], the
    model and agent registries, and the default constructors of the
    configuration classes. *)
Class Collaborators : Type := {
  OH_DEFAULT_AGENT : string;
  VERIFIED_PROVIDERS : list string;
  VERIFIED_OPENAI_MODELS : list string;
  VERIFIED_ANTHROPIC_MODELS : list string;
  VERIFIED_MISTRAL_MODELS : list string;
  VERIFIED_OPENHANDS_MODELS : list string;
  get_supported_llm_models : Memory → list string;
  organize_models_and_providers : list string → dict ProviderEntry;
  list_agents : list string;
  LLMConfig_default : LLMConfig;
  AgentConfig_default : AgentConfig;
  Settings_default : Settings.t;
}.

Section Flows.

Context `{Collaborators}.

(** *** [modify_llm_settings_basic] *)

Definition step1_question : string := "(Step 1/3) Select LLM Provider:".
Definition step1_prompt : string :=
  "(Step 1/3) Select LLM Provider (TAB for options, CTRL-c to cancel): ".
Definition step2_prompt : string :=
  "(Step 2/3) Select LLM Model (TAB for options, CTRL-c to cancel): ".
Definition step2_openhands_question : string :=
  "(Step 2/3) Select Available OpenHands Model:" +:+ nl +:+
  "LLM usage is billed at the providers’ rates with no markup. Details: https://docs.all-hands.dev/usage/llms/openhands-llms".
Definition step3_prompt : string :=
  "(Step 3/3) Enter API Key (CTRL-c to cancel): ".

(** The nested [provider_validator] (lines 209-215). *)
Definition provider_validator (organized_models : dict ProviderEntry)
    : validator_t :=
  λ x, let is_valid := bool_decide (x ∈ keys organized_models) in
       (is_valid,
        if is_valid then []
        else ["<grey>Invalid provider selected: " +:+ x +:+ "</grey>"]).

(** The nested [model_validator] (lines 311-324). *)
Definition model_validator (provider_models : list string)
    (provider : string) : validator_t :=
  λ x, if bool_decide (strip x = EmptyString) then (false, [])
       else (true,
             if bool_decide (x ∉ provider_models)
             then ["<yellow>Warning: " +:+ x +:+
                   " is not in the predefined list for provider " +:+
                   provider +:+
                   ". Make sure this model name is correct.</yellow>"]
             else []).

(** Lines 184-233: the provider is picked from the verified ones or typed
    in, then checked against [organized_models].  The dialog returns an
    index, on which [int(provider_choice)] is the identity. *)
Definition select_provider (organized_models : dict ProviderEntry)
    (verified_providers provider_completer : list string)
    (provider : string) : M string :=
  print_formatted_text
    (nl +:+ "<grey>Default provider: </grey><green>" +:+ provider +:+ "</green>") >>
  let provider_choices := verified_providers ++ ["Select another provider"] in
  let* provider_choice := cli_confirm step1_question provider_choices in
  let choice_index := provider_choice in
  let* provider :=
    (if bool_decide (choice_index < length verified_providers)
     then item verified_providers choice_index
     else get_validated_input step1_prompt (Some provider_completer)
            (Some (provider_validator organized_models))
            "Invalid provider selected") in
  if bool_decide (provider ∉ keys organized_models)
  then (if bool_decide ("anthropic" ∈ keys organized_models)
        then ret "anthropic"
        else first_key organized_models)
  else ret provider.

(** Lines 235-255: the verified models of a known provider come first. *)
Definition order_provider_models (provider : string)
    (provider_models : list string) : list string :=
  let provider_models :=
    if bool_decide (provider = "openai")
    then VERIFIED_OPENAI_MODELS ++
         filter (λ m, m ∉ VERIFIED_OPENAI_MODELS) provider_models
    else provider_models in
  let provider_models :=
    if bool_decide (provider = "anthropic")
    then VERIFIED_ANTHROPIC_MODELS ++
         filter (λ m, m ∉ VERIFIED_ANTHROPIC_MODELS) provider_models
    else provider_models in
  let provider_models :=
    if bool_decide (provider = "mistral")
    then VERIFIED_MISTRAL_MODELS ++
         filter (λ m, m ∉ VERIFIED_MISTRAL_MODELS) provider_models
    else provider_models in
  let provider_models :=
    if bool_decide (provider = "openhands")
    then VERIFIED_OPENHANDS_MODELS ++
         filter (λ m, m ∉ VERIFIED_OPENHANDS_MODELS) provider_models
    else provider_models in
  provider_models.

(** Lines 257-274. *)
Definition choose_default_model (provider : string)
    (provider_models : list string) : M string :=
  if bool_decide (provider = "anthropic")
     && bool_decide (VERIFIED_ANTHROPIC_MODELS ≠ [])
  then item VERIFIED_ANTHROPIC_MODELS 0
  else if bool_decide (provider = "openai")
          && bool_decide (VERIFIED_OPENAI_MODELS ≠ [])
  then item VERIFIED_OPENAI_MODELS 0
  else if bool_decide (provider = "mistral")
          && bool_decide (VERIFIED_MISTRAL_MODELS ≠ [])
  then item VERIFIED_MISTRAL_MODELS 0
  else if bool_decide (provider = "openhands")
          && bool_decide (VERIFIED_OPENHANDS_MODELS ≠ [])
  then item VERIFIED_OPENHANDS_MODELS 0
  else if bool_decide (provider_models ≠ [])
  then item provider_models 0
  else ret "claude-sonnet-4-20250514".

(** Lines 276-335. *)
Definition select_model (provider : string) (provider_models : list string)
    (default_model : string) : M string :=
  if bool_decide (provider = "openhands")
  then
    let model_choices := VERIFIED_OPENHANDS_MODELS in
    let* model_choice := cli_confirm step2_openhands_question model_choices in
    item model_choices model_choice
  else
    print_formatted_text
      (nl +:+ "<grey>Default model: </grey><green>" +:+ default_model +:+ "</green>") >>
    let* choice :=
      cli_confirm "Do you want to use a different model?"
        ["Use " +:+ default_model; "Select another model"] in
    let change_model := bool_decide (choice = 1) in
    if change_model
    then
      let model_completer := provider_models in
      get_validated_input step2_prompt (Some model_completer)
        (Some (model_validator provider_models provider))
        "Model name cannot be empty"
    else ret default_model.

(** Lines 235-348: with the provider settled, the model and the API key. *)
Definition model_and_key (organized_models : dict ProviderEntry)
    (provider : string) : M (string * string * string) :=
  let* entry := dict_item organized_models provider in
  let provider_models := order_provider_models provider (models entry) in
  let* default_model := choose_default_model provider provider_models in
  let* model := select_model provider provider_models default_model in
  (if bool_decide (provider = "openhands")
   then print_formatted_text
          (nl +:+ "You can find your OpenHands LLM API Key in the <a href=" +:+
           dquote +:+ "https://app.all-hands.dev/settings/api-keys" +:+ dquote +:+
           ">API Keys</a> tab of OpenHands Cloud: https://app.all-hands.dev/settings/api-keys")
   else ret tt) >>
  let* api_key :=
    get_validated_input step3_prompt None None "API Key cannot be empty" in
  ret (provider, model, api_key).

(** The body of the [try] (lines 183-348): provider, model and API key. *)
Definition basic_inputs (organized_models : dict ProviderEntry)
    (verified_providers provider_completer : list string)
    (provider : string) : M (string * string * string) :=
  let* provider :=
    select_provider organized_models verified_providers provider_completer
      provider in
  model_and_key organized_models provider.

(** Lines 365-391: what happens once the user has confirmed. *)
Definition basic_save (organized_models : dict ProviderEntry)
    (provider model api_key : string) : M unit :=
  let* llm_config := get_llm_config LLMConfig_default "llm" in
  let* entry := dict_item organized_models provider in
  assign_llm llm_config (set_model (provider +:+ separator entry +:+ model)) >>
  assign_llm llm_config (set_api_key (Some (Secret api_key))) >>
  assign_llm llm_config (set_base_url None) >>
  set_llm_config llm_config "llm" >>
  modify_root (set_default_agent OH_DEFAULT_AGENT) >>
  modify_root (set_enable_default_condenser true) >>
  let* name := gets (λ w, default_agent (config w)) in
  let* agent_config := get_agent_config AgentConfig_default name in
  assign_agent agent_config
    (set_condenser (LLMSummarizingCondenserConfig llm_config None None)) >>
  let* name := gets (λ w, default_agent (config w)) in
  set_agent_config agent_config name >>
  let* loaded := settings_store_load in
  let settings := default Settings_default loaded in
  let* entry := dict_item organized_models provider in
  let settings :=
    Settings.set_llm_model (Some (provider +:+ separator entry +:+ model))
      settings in
  let settings := Settings.set_llm_api_key (Some (Secret api_key)) settings in
  let settings := Settings.set_llm_base_url None settings in
  let settings := Settings.set_agent (Some OH_DEFAULT_AGENT) settings in
  let settings := Settings.set_enable_default_condenser true settings in
  settings_store_store settings.

(** Lines 166-355: everything up to the save confirmation.  The result is
    the organized registry together with the collected inputs, or [None]
    for these when the flow was cancelled. *)
Definition basic_collect
    : M (dict ProviderEntry * option (string * string * string)) :=
  let* model_list := gets (λ w, get_supported_llm_models (memory w)) in
  let organized_models := organize_models_and_providers model_list in
  let provider_list := keys organized_models in
  let verified_providers :=
    filter (λ p, p ∈ provider_list) VERIFIED_PROVIDERS in
  let provider_list' :=
    filter (λ p, p ∉ verified_providers) provider_list in
  let provider_list'' := verified_providers ++ provider_list' in
  let provider_completer := provider_list'' in
  PromptSession >>
  let* provider :=
    (if bool_decide ("anthropic" ∈ provider_list'') then ret "anthropic"
     else item provider_list'' 0) in
  let* collected :=
    try_except_return
      (basic_inputs organized_models verified_providers provider_completer
         provider) in
  ret (organized_models, collected).

Definition modify_llm_settings_basic : M unit :=
  let* (organized_models, collected) := basic_collect in
  match collected with
  | None => ret tt
  | Some (provider, model, api_key) =>
      let* save_settings := save_settings_confirmation in
      if negb save_settings then ret tt
      else basic_save organized_models provider model api_key
  end.

(** *** [modify_llm_settings_advanced] *)

(** The body of the [try] (lines 405-449). *)
Definition advanced_inputs
    : M (string * string * string * string * bool * bool) :=
  let* custom_model :=
    get_validated_input "(Step 1/6) Custom Model (CTRL-c to cancel): "
      None None "Custom Model cannot be empty" in
  let* base_url :=
    get_validated_input "(Step 2/6) Base URL (CTRL-c to cancel): "
      None None "Base URL cannot be empty" in
  let* api_key :=
    get_validated_input "(Step 3/6) API Key (CTRL-c to cancel): "
      None None "API Key cannot be empty" in
  let agent_list := list_agents in
  let agent_completer := agent_list in
  let* agent :=
    get_validated_input
      "(Step 4/6) Agent (TAB for options, CTRL-c to cancel): "
      (Some agent_completer)
      (Some (λ x, (bool_decide (x ∈ agent_list), [])))
      "Invalid agent selected" in
  let* choice :=
    cli_confirm "(Step 5/6) Confirmation Mode (CTRL-c to cancel):"
      ["Enable"; "Disable"] in
  let enable_confirmation_mode := bool_decide (choice = 0) in
  let* choice :=
    cli_confirm "(Step 6/6) Memory Condensation (CTRL-c to cancel):"
      ["Enable"; "Disable"] in
  let enable_memory_condensation := bool_decide (choice = 0) in
  ret (custom_model, base_url, api_key, agent,
       enable_confirmation_mode, enable_memory_condensation).

(** Lines 466-506. *)
Definition advanced_save (custom_model base_url api_key agent : string)
    (enable_confirmation_mode enable_memory_condensation : bool) : M unit :=
  let* llm_config := get_llm_config LLMConfig_default "llm" in
  assign_llm llm_config (set_model custom_model) >>
  assign_llm llm_config (set_base_url (Some base_url)) >>
  assign_llm llm_config (set_api_key (Some (Secret api_key))) >>
  set_llm_config llm_config "llm" >>
  modify_root (set_default_agent agent) >>
  modify_root (set_security (SecurityConfig.mk enable_confirmation_mode)) >>
  let* name := gets (λ w, default_agent (config w)) in
  let* agent_config := get_agent_config AgentConfig_default name in
  (if enable_memory_condensation
   then assign_agent agent_config
          (set_condenser
             (CondenserPipelineConfig
                [ConversationWindowCondenserConfig;
                 LLMSummarizingCondenserConfig llm_config (Some 4) (Some 120)]))
   else assign_agent agent_config
          (set_condenser ConversationWindowCondenserConfig)) >>
  set_agent_config agent_config "agent" >>
  let* loaded := settings_store_load in
  let settings := default Settings_default loaded in
  let settings := Settings.set_llm_model (Some custom_model) settings in
  let settings := Settings.set_llm_api_key (Some (Secret api_key)) settings in
  let settings := Settings.set_llm_base_url (Some base_url) settings in
  let settings := Settings.set_agent (Some agent) settings in
  let settings :=
    Settings.set_confirmation_mode (Some enable_confirmation_mode) settings in
  let settings :=
    Settings.set_enable_default_condenser enable_memory_condensation settings in
  settings_store_store settings.

(** Lines 397-456: everything up to the save confirmation. *)
Definition advanced_collect
    : M (option (string * string * string * string * bool * bool)) :=
  PromptSession >> try_except_return advanced_inputs.

Definition modify_llm_settings_advanced : M unit :=
  let* collected := advanced_collect in
  match collected with
  | None => ret tt
  | Some (custom_model, base_url, api_key, agent,
          enable_confirmation_mode, enable_memory_condensation) =>
      let* save_settings := save_settings_confirmation in
      if negb save_settings then ret tt
      else advanced_save custom_model base_url api_key agent
             enable_confirmation_mode enable_memory_condensation
  end.

(** *** [modify_search_api_settings] *)

Definition search_question : string :=
  "Do you want to modify the Search API Key?".
Definition search_choices : list string :=
  ["Set/Update API Key"; "Remove API Key"; "Keep current setting"].
Definition search_prompt : string :=
  "Enter Tavily Search API Key. You can get it from https://www.tavily.com/ (starts with tvly-, CTRL-c to cancel): ".

(** The body of the [try] (lines 518-554); [None] is the [return] of the
    "Keep current setting" branch. *)
Definition search_inputs : M (option string) :=
  print_formatted_text
    (nl +:+ "<grey>Configure Search API Key for enhanced search capabilities.</grey>") >>
  print_formatted_text
    "<grey>You can get a Tavily API key from: https://tavily.com/</grey>" >>
  print_formatted_text EmptyString >>
  let* current := gets (λ w, search_api_key (config w)) in
  let current_key_status :=
    match current with
    | Some (Secret text) =>
        if bool_decide (text = EmptyString) then "Not Set" else "********"
    | None => "Not Set"
    end in
  print_formatted_text
    ("<grey>Current Search API Key: </grey><green>" +:+ current_key_status +:+
     "</green>") >>
  print_formatted_text EmptyString >>
  let* modify_key := cli_confirm search_question search_choices in
  if bool_decide (modify_key = 0)
  then
    let* search_api_key :=
      get_validated_input search_prompt None
        (Some (λ x, (if bool_decide (strip x = EmptyString) then false
                     else startswith x "tvly-", [])))
        ("Search API Key must start with " +:+ dquote +:+ "tvly-" +:+ dquote) in
    ret (Some search_api_key)
  else if bool_decide (modify_key = 1)
  then ret (Some EmptyString)
  else ret None.

(** [SecretStr(search_api_key) if search_api_key else None] *)
Definition secret_or_none (search_api_key : string) : option SecretStr :=
  if bool_decide (search_api_key = EmptyString) then None
  else Some (Secret search_api_key).

(** Lines 568-578. *)
Definition search_save (search_api_key : string) : M unit :=
  modify_root (set_search_api_key (secret_or_none search_api_key)) >>
  let* loaded := settings_store_load in
  let settings := default Settings_default loaded in
  let settings :=
    Settings.set_search_api_key (secret_or_none search_api_key) settings in
  settings_store_store settings.

(** Lines 513-561: everything up to the save confirmation. *)
Definition search_collect : M (option (option string)) :=
  PromptSession >> try_except_return search_inputs.

Definition modify_search_api_settings : M unit :=
  let* collected := search_collect in
  match collected with
  | None => ret tt
  | Some None => ret tt
  | Some (Some search_api_key) =>
      let* save_settings := save_settings_confirmation in
      if negb save_settings then ret tt
      else search_save search_api_key
  end.

(** The three wizard flows. *)
Definition wizard_flows : list (M unit) :=
  [modify_llm_settings_basic; modify_llm_settings_advanced;
   modify_search_api_settings].

End Flows.

(** ** [display_settings] *)

(** [c in s] for a one-character string [c]. *)
Fixpoint contains_char (c : Ascii.ascii) (s : string) : bool :=
  match s with
  | EmptyString => false
  | String a s' => bool_decide (a = c) || contains_char c s'
  end.

(** [s.split(c)[0]]: what comes before the first [c], or all of [s]. *)
Fixpoint split_first (c : Ascii.ascii) (s : string) : string :=
  match s with
  | EmptyString => EmptyString
  | String a s' => if bool_decide (a = c) then EmptyString
                   else String a (split_first c s')
  end.

Fixpoint spaces (n : nat) : string :=
  match n with
  | 0 => EmptyString
  | S n' => String (Ascii.ascii_of_nat 32) (spaces n')
  end.

(** [f'{s:<{width}}']: [s] padded with spaces on the right up to [width]. *)
Definition ljust (s : string) (width : nat) : string :=
  s +:+ spaces (width - String.length s).

(** [sep.join(parts)] *)
Fixpoint str_join (sep : string) (parts : list string) : string :=
  match parts with
  | [] => EmptyString
  | [part] => part
  | part :: rest => part +:+ sep +:+ str_join sep rest
  end.

(** Truth value of an optional [SecretStr]: [None] and the empty secret are
    false. *)
Definition secret_is_set (key : option SecretStr) : bool :=
  match key with
  | Some (Secret text) => bool_decide (text ≠ EmptyString)
  | None => false
  end.

(** ['********' if key else 'Not Set'] *)
Definition masked (key : option SecretStr) : string :=
  if secret_is_set key then "********" else "Not Set".

Definition slash : Ascii.ascii := Ascii.ascii_of_nat 47.

(** Reading the attributes of an object held by reference.  A Python
    reference always points to an object; a location without one has no
    counterpart there and the read raises. *)
Definition read_llm (l : loc) : M LLMConfig :=
  let* objects := gets (λ w, llm_objects (memory w)) in
  match objects !! l with
  | Some c => ret c
  | None => raise KeyError
  end.

(** Modelled from the spec: [print_container(Frame(TextArea(text=...),
    title=...))] of prompt_toolkit, presentation only.  The frame is recorded
    by its title and, on the following lines, its text. *)
Definition print_container (title text : string) : M unit :=
  modify (λ w, set_terminal
                 (log_event (Printed (title +:+ nl +:+ text)) (terminal w)) w).

Section Display.

Context `{Collaborators}.

(** [getattr(llm_config, 'provider', ...)]: the attribute when the class
    (not part of these sources) has one. *)
Variable LLMConfig_provider : LLMConfig → option string.

(** [str(Path(directory) / name)] *)
Variable path_join : string → string → string.

(** Lines 41-89: the labels and values, LLM rows first. *)
Definition labels_and_values (llm_config : LLMConfig)
    (config : OpenHandsConfig) : list (string * string) :=
  let advanced_llm_settings :=
    match base_url llm_config with
    | Some url => bool_decide (url ≠ EmptyString)
    | None => false
    end in
  (if negb advanced_llm_settings
   then
     let provider :=
       default (if contains_char slash (model llm_config)
                then split_first slash (model llm_config)
                else "Unknown")
         (LLMConfig_provider llm_config) in
     [("   LLM Provider", provider);
      ("   LLM Model", model llm_config);
      ("   API Key", masked (api_key llm_config))]
   else
     [("   Custom Model", model llm_config);
      ("   Base URL", default "None" (base_url llm_config));
      ("   API Key", masked (api_key llm_config))])
  ++ [("   Agent", default_agent config);
      ("   Confirmation Mode",
       if SecurityConfig.confirmation_mode (security config)
       then "Enabled" else "Disabled");
      ("   Memory Condensation",
       if enable_default_condenser config then "Enabled" else "Disabled");
      ("   Search API Key", masked (search_api_key config));
      ("   Configuration File",
       path_join (file_store_path config) "settings.json")].

(** Lines 93-98. *)
Definition max_label_width (rows : list (string * string)) : nat :=
  max_list (String.length <$> rows.*1).

(** Lines 101-104: one line per row, the label column padded to the width of
    the longest label and its colon. *)
Definition settings_lines (rows : list (string * string)) : list string :=
  (λ row, ljust (row.1 +:+ ":") (max_label_width rows + 1) +:+ " " +:+ row.2)
    <$> rows.

Definition settings_text (rows : list (string * string)) : string :=
  str_join nl (settings_lines rows).

Definition display_settings : M unit :=
  let* l := get_llm_config LLMConfig_default "llm" in
  let* llm_config := read_llm l in
  let* config := gets config in
  print_container "Settings"
    (settings_text (labels_and_values llm_config config)).

End Display.

(** ** Vocabulary of the specification *)

(** *** What happened on the terminal *)

(** The exception an interaction ended with, if it raised. *)
Definition signal_of (ev : event) : option exn :=
  match ev with
  | Confirmed _ _ (inl e) | Prompted _ _ (inl e) => Some e
  | _ => None
  end.

Definition is_save_confirmation (ev : event) : bool :=
  match ev with
  | Confirmed question _ _ => bool_decide (question = save_question)
  | _ => false
  end.

(** The answers given at text prompts, in order. *)
Definition prompt_answers (evs : list event) : list (exn + string) :=
  omap (λ ev, match ev with Prompted _ _ answer => Some answer | _ => None end)
    evs.

(** The model list an event puts before the user, if any: the completion
    words of the step-2 prompt, or the choices of the OpenHands dialog. *)
Definition model_offer (ev : event) : option (list string) :=
  match ev with
  | Prompted text (Some words) _ =>
      if bool_decide (text = step2_prompt) then Some words else None
  | Confirmed question choices _ =>
      if bool_decide (question = step2_openhands_question) then Some choices
      else None
  | _ => None
  end.


Definition offers_only (L : list string) (ev : event) : Prop :=
  ∀ l, model_offer ev = Some l → l = L.

(** The world after [lines] have been printed. *)
Definition displayed (lines : list string) (w : World) : World :=
  set_terminal
    {| keyboard := keyboard (terminal w); dialogs := dialogs (terminal w);
       completer := completer (terminal w);
       trace := trace (terminal w) ++ (Printed <$> lines) |} w.

(** *** What the user selected *)

Definition step2_question : string := "Do you want to use a different model?".

(** [s] without the prefix [p], when it starts with it. *)
Fixpoint removeprefix (p s : string) : option string :=
  match p, s with
  | EmptyString, _ => Some s
  | String _ _, EmptyString => None
  | String a p', String b s' =>
      if bool_decide (a = b) then removeprefix p' s' else None
  end.

(** The provider an event names as the user's answer at step 1: the choice
    picked in the dialog, unless it is the last one ("Select another
    provider"), or the line typed at the step-1 prompt. *)
Definition provider_answer (ev : event) : option string :=
  match ev with
  | Confirmed question choices (inr i) =>
      if bool_decide (question = step1_question)
         && bool_decide (S i < length choices)
      then choices !! i else None
  | Prompted text _ (inr value) =>
      if bool_decide (text = step1_prompt) then Some value else None
  | _ => None
  end.

(** The provider the user selected: their last answer at step 1 (a typed
    answer that is rejected is followed by another). *)
Definition selected_provider (evs : list event) : option string :=
  last (omap provider_answer evs).

(** The model an event names as the user's answer at step 2: the choice
    picked in the OpenHands dialog, the model that the first choice of the
    other dialog offers to use, or the line typed at the step-2 prompt. *)
Definition model_answer (ev : event) : option string :=
  match ev with
  | Confirmed question choices (inr i) =>
      if bool_decide (question = step2_openhands_question) then choices !! i
      else if bool_decide (question = step2_question)
      then (if bool_decide (i = 1) then None
            else head choices ≫= removeprefix "Use ")
      else None
  | Prompted text _ (inr value) =>
      if bool_decide (text = step2_prompt) then Some value else None
  | _ => None
  end.

(** The model the user selected: their last answer at step 2. *)
Definition selected_model (evs : list event) : option string :=
  last (omap model_answer evs).

(** The list [L] is the only model list the event puts before the user, and
    a step-2 prompt comes with it. *)
Definition offers (L : list string) (ev : event) : Prop :=
  offers_only L ev
  ∧ ∀ completer answer,
      ev = Prompted step2_prompt completer answer → completer = Some L.

(** The events step 1 can produce. *)
Definition step1_event (verified_providers provider_completer : list string)
    (ev : event) : Prop :=
  (∃ text, ev = Printed text)
  ∨ (∃ answer,
       ev = Confirmed step1_question
              (verified_providers ++ ["Select another provider"]) answer)
  ∨ (∃ answer, ev = Prompted step1_prompt (Some provider_completer) answer).

(** The events steps 2 and 3 can produce for [provider], whose ordered
    model list is [L]. *)
Definition step23_event `{Collaborators} (provider : string)
    (L : list string) (ev : event) : Prop :=
  (∃ text, ev = Printed text)
  ∨ (provider = "openhands"
     ∧ ∃ answer,
         ev = Confirmed step2_openhands_question VERIFIED_OPENHANDS_MODELS
                answer)
  ∨ (provider ≠ "openhands"
     ∧ ∃ default_model answer,
         ev = Confirmed step2_question
                ["Use " +:+ default_model; "Select another model"] answer)
  ∨ (provider ≠ "openhands"
     ∧ ∃ answer, ev = Prompted step2_prompt (Some L) answer)
  ∨ (∃ answer, ev = Prompted step3_prompt None answer).

(** *** What a computation may do *)

(** Neither the configuration memory nor the settings store has changed. *)
Definition untouched (w w' : World) : Prop :=
  memory w' = memory w ∧ settings_store w' = settings_store w.

(** If the last of [evs] raised, that exception is the outcome. *)
Definition raised_last {A} (r : outcome A) (evs : list event) : Prop :=
  ∀ evs0 ev e, evs = evs0 ++ [ev] → signal_of ev = Some e → r = Raised e.

(** A computation that only talks to the user: it leaves memory and store
    alone, never shows the save confirmation, and lets the exception of a
    raising interaction through. *)
Definition quiet {A} (m : M A) : Prop :=
  ∀ w, untouched w (m w).2 ∧
       ∃ evs, trace (terminal (m w).2) = trace (terminal w) ++ evs ∧
              Forall (λ ev, is_save_confirmation ev = false) evs ∧
              raised_last (m w).1 evs.

(** A computation that neither writes nor shows anything. *)
Definition mute {A} (m : M A) : Prop :=
  ∀ w, untouched w (m w).2 ∧ trace (terminal (m w).2) = trace (terminal w).

(** A computation that leaves the terminal alone. *)
Definition silent {A} (m : M A) : Prop := ∀ w, terminal (m w).2 = terminal w.

(** A computation all of whose terminal events satisfy [P]. *)
Definition emits (P : event → Prop) {A} (m : M A) : Prop :=
  ∀ w, ∃ evs, trace (terminal (m w).2) = trace (terminal w) ++ evs ∧ Forall P evs.

(** The collection phase of a flow: like [quiet], except that a cancellation
    raised by the last interaction has been turned into an [aborted] value. *)
Definition collects {A} (aborted : A → Prop) (m : M A) : Prop :=
  ∀ w, untouched w (m w).2 ∧
       ∃ evs, trace (terminal (m w).2) = trace (terminal w) ++ evs ∧
              Forall (λ ev, is_save_confirmation ev = false) evs ∧
              ∀ evs0 ev e, evs = evs0 ++ [ev] → signal_of ev = Some e →
                           is_cancellation e = true →
                           ∃ a, (m w).1 = Done a ∧ aborted a.

(** The tail shared by the three flows: ask, then save or not. *)
Definition confirm_then (save : M unit) : M unit :=
  let* save_settings := save_settings_confirmation in
  if negb save_settings then ret tt else save.

(** The two ways a flow can end, told from its new terminal events [evs]. *)
Definition stopped_before_saving (w : World) (r : outcome unit) (w' : World)
    (evs : list event) : Prop :=
  untouched w w' ∧
  Forall (λ ev, is_save_confirmation ev = false) evs ∧
  ∀ evs0 ev e, evs = evs0 ++ [ev] → signal_of ev = Some e →
               is_cancellation e = true → r = Done tt.

Definition reached_confirmation (w : World) (r : outcome unit) (w' : World)
    (evs : list event) : Prop :=
  ∃ evs0 answer,
    evs = evs0 ++ [Confirmed save_question save_choices answer] ∧
    match answer with
    | inl e => r = Raised e ∧ untouched w w'
    | inr 0 => True
    | inr (S _) => r = Done tt ∧ untouched w w'
    end.

(** *** Validation *)

(** What it means for a value to pass: the validator's verdict, or
    non-emptiness when there is no validator. *)
Definition accepts (validator : option validator_t) (value : string) : bool :=
  match validator with
  | Some validate => (validate value).1
  | None => bool_decide (value ≠ EmptyString)
  end.

(** *** Profiles *)

Definition with_llms (named : gmap string loc) (objects : list LLMConfig)
    (w : World) : World :=
  set_memory (set_root (set_llms named (config w))
                (set_llm_objects objects (memory w))) w.

Definition with_agents (named : gmap string loc) (objects : list AgentConfig)
    (w : World) : World :=
  set_memory (set_root (set_agents named (config w))
                (set_agent_objects objects (memory w))) w.

(** The default LLM profile, when there is one, refers to a live object. *)
Definition default_llm_allocated (w : World) : Prop :=
  ∀ l, llms (config w) !! "llm" = Some l → is_Some (llm_objects (memory w) !! l).

(** The verified model list of a known provider. *)
Definition verified_models_of `{Collaborators} (provider : string)
    : list string :=
  if bool_decide (provider = "openai") then VERIFIED_OPENAI_MODELS
  else if bool_decide (provider = "anthropic") then VERIFIED_ANTHROPIC_MODELS
  else if bool_decide (provider = "mistral") then VERIFIED_MISTRAL_MODELS
  else if bool_decide (provider = "openhands") then VERIFIED_OPENHANDS_MODELS
  else [].

(** ** A concrete setting for the examples *)

Definition example_collaborators : Collaborators :=
  {| OH_DEFAULT_AGENT := "CodeActAgent";
     VERIFIED_PROVIDERS := ["openhands"; "anthropic"; "openai"; "mistral"];
     VERIFIED_OPENAI_MODELS := ["gpt-5"; "o3"];
     VERIFIED_ANTHROPIC_MODELS := ["claude-sonnet-4-20250514"];
     VERIFIED_MISTRAL_MODELS := ["devstral-small-2505"];
     VERIFIED_OPENHANDS_MODELS := ["claude-sonnet-4-20250514"; "gpt-5"];
     get_supported_llm_models :=
       λ _, ["openai/gpt-4o"; "openai/gpt-5"; "openhands/gpt-5";
             "openhands/o3-preview"];
     organize_models_and_providers :=
       λ _, [("openai", mkProviderEntry "/" ["gpt-4o"; "gpt-5"]);
             ("openhands", mkProviderEntry "/" ["gpt-5"; "o3-preview"])];
     list_agents := ["CodeActAgent"; "BrowsingAgent"];
     LLMConfig_default := mkLLMConfig "claude-sonnet-4-20250514" None None;
     AgentConfig_default := mkAgentConfig ConversationWindowCondenserConfig;
     Settings_default := Settings.mk None None None None None true None |}.

(** A world whose configuration has the default LLM profile and nothing
    else, with the given pending answers. *)
Definition example_world (typed : list (exn + string))
    (picked : list (exn + nat)) : World :=
  {| memory :=
       {| root := {| llms := {["llm" := 0]}; agents := ∅;
                     default_agent := "CodeActAgent";
                     security := SecurityConfig.mk false;
                     file_store_path := "~/.openhands";
                     search_api_key := Some (Secret "tvly-old");
                     enable_default_condenser := true |};
          llm_objects := [mkLLMConfig "gpt-4o" None None];
          agent_objects := [] |};
     settings_store := {| persisted := None; stored := [] |};
     terminal := {| keyboard := typed; dialogs := picked; completer := None;
                    trace := [] |};
     warnings := [] |}.

(** A world whose configuration names one LLM profile and one agent profile,
    neither of them the default. *)
Definition lonely_profile_world : World :=
  {| memory :=
       {| root := {| llms := {["gpt" := 0]}; agents := {["coder" := 0]};
                     default_agent := "coder";
                     security := SecurityConfig.mk false;
                     file_store_path := "~/.openhands";
                     search_api_key := None;
                     enable_default_condenser := true |};
          llm_objects := [mkLLMConfig "gpt-4o" None None];
          agent_objects := [mkAgentConfig ConversationWindowCondenserConfig] |};
     settings_store := {| persisted := None; stored := [] |};
     terminal := {| keyboard := []; dialogs := []; completer := None;
                    trace := [] |};
     warnings := [] |}.

(** The advanced flow, interrupted at its second prompt. *)
Definition cancelled_world : World :=
  example_world [inr "my-model"; inl KeyboardInterrupt] [].

(** The basic flow: second verified provider, its default model, a key,
    and the save confirmed. *)
Definition basic_world : World :=
  example_world [inr "sk-1"] [inr 1; inr 0; inr 0].

(** Two empty lines before a key is typed. *)
Definition retyped_world : World :=
  example_world [inr EmptyString; inr EmptyString; inr "sk-1"; inr "later"] [].

(** The basic flow: second verified provider, another model asked for. *)
Definition openai_world : World :=
  example_world [inr "gpt-4o"; inr "sk-1"] [inr 1; inr 1; inr 0].

(** The advanced flow with one unknown agent name typed first, confirmation
    mode enabled, condensation disabled, and the save confirmed. *)
Definition advanced_world : World :=
  example_world
    [inr "my-model"; inr "http://localhost:8000/v1"; inr "sk-1";
     inr "NoSuchAgent"; inr "BrowsingAgent"]
    [inr 0; inr 1; inr 0].

(** The search flow: remove the key, then decline to save. *)
Definition declined_world : World := example_world [] [inr 1; inr 1].

(** The search flow: remove the key, then confirm. *)
Definition removing_world : World := example_world [] [inr 1; inr 0].


(** The basic flow: another provider asked for and typed, after one the
    registry does not know; another model asked for and typed, after a
    blank line; a key typed after an empty line; and the save confirmed. *)
Definition typed_selections_world : World :=
  example_world
    [inr "azure"; inr "openai"; inr " "; inr "gpt-4o-mini";
     inr EmptyString; inr "sk-1"]
    [inr 2; inr 1; inr 0].

(** *** Further worlds *)

(** A registry that knows no provider. *)
Definition bare_collaborators : Collaborators :=
  {| OH_DEFAULT_AGENT := "CodeActAgent";
     VERIFIED_PROVIDERS := ["openhands"; "anthropic"; "openai"; "mistral"];
     VERIFIED_OPENAI_MODELS := ["gpt-5"; "o3"];
     VERIFIED_ANTHROPIC_MODELS := ["claude-sonnet-4-20250514"];
     VERIFIED_MISTRAL_MODELS := ["devstral-small-2505"];
     VERIFIED_OPENHANDS_MODELS := ["claude-sonnet-4-20250514"; "gpt-5"];
     get_supported_llm_models := λ _, [];
     organize_models_and_providers := λ _, [];
     list_agents := ["CodeActAgent"; "BrowsingAgent"];
     LLMConfig_default := mkLLMConfig "claude-sonnet-4-20250514" None None;
     AgentConfig_default := mkAgentConfig ConversationWindowCondenserConfig;
     Settings_default := Settings.mk None None None None None true None |}.

(** The search flow: keep the current setting. *)
Definition keeping_world : World := example_world [] [inr 2].

(** The search flow: remove the key, then interrupt the save confirmation. *)
Definition interrupted_world : World :=
  example_world [] [inr 1; inl KeyboardInterrupt].

(** The search flow: a key without the prefix, then a proper one, and the
    save confirmed. *)
Definition setting_world : World :=
  example_world [inr "sk-1"; inr "tvly-new"] [inr 0; inr 0].

(** The basic flow asked to select another provider. *)
Definition typing_provider_world : World :=
  example_world [inr "azure"; inr "openai"] [inr 4].

(** An LLM class without a [provider] attribute, and POSIX paths. *)
Definition no_provider_attribute : LLMConfig → option string := λ _, None.
Definition posix_join (directory name : string) : string :=
  directory +:+ "/" +:+ name.

(** *** References and stored records *)

(** Every name refers to an object that exists. *)
Definition live {A} (named : gmap string loc) (objects : list A) : Prop :=
  ∀ name l, named !! name = Some l → is_Some (objects !! l).

(** The references of the configuration root all point to objects, as
    Python's always do. *)
Definition profiles_allocated (w : World) : Prop :=
  live (llms (config w)) (llm_objects (memory w))
  ∧ live (agents (config w)) (agent_objects (memory w)).

(** The record the advanced flow stores, from the one loaded. *)
Definition advanced_settings (cm bu ak ag : string) (ecm emc : bool)
    (loaded : Settings.t) : Settings.t :=
  Settings.set_enable_default_condenser emc
    (Settings.set_confirmation_mode (Some ecm)
       (Settings.set_agent (Some ag)
          (Settings.set_llm_base_url (Some bu)
             (Settings.set_llm_api_key (Some (Secret ak))
                (Settings.set_llm_model (Some cm) loaded))))).

(** The condenser the advanced flow gives the agent. *)
Definition advanced_condenser (emc : bool) (l : loc) : CondenserConfig :=
  if emc
  then CondenserPipelineConfig
         [ConversationWindowCondenserConfig;
          LLMSummarizingCondenserConfig l (Some 4) (Some 120)]
  else ConversationWindowCondenserConfig.

(** The record the basic flow stores, from the one loaded. *)
Definition basic_settings `{Collaborators} (llm_model ak : string)
    (loaded : Settings.t) : Settings.t :=
  Settings.set_enable_default_condenser true
    (Settings.set_agent (Some OH_DEFAULT_AGENT)
       (Settings.set_llm_base_url None
          (Settings.set_llm_api_key (Some (Secret ak))
             (Settings.set_llm_model (Some llm_model) loaded)))).

(** The last record a world's store was given. *)
Definition last_stored `{Collaborators} (w : World) : Settings.t :=
  default Settings_default (last (stored (settings_store w))).

(** *** Completers *)

(** The prompts that are given a completer. *)
Definition completing_prompts `{Collaborators} : list string :=
  [step1_prompt; step2_prompt;
   "(Step 4/6) Agent (TAB for options, CTRL-c to cancel): "].

(** A prompt event that offers completions is one of [completing_prompts]. *)
Definition completes_only_where_passed `{Collaborators} (ev : event) : Prop :=
  ∀ text c answer, ev = Prompted text (Some c) answer →
                   text ∈ completing_prompts.

(** ** Computations that only talk to the user *)

Lemma raised_last_nil {A} (r : outcome A) : raised_last r [].
Proof. intros [|??] ???; discriminate. Qed.

Lemma quiet_still {A} (m : M A) :
  (∀ w, (m w).2 = w) → quiet m.
Proof.
  intros Hm w. rewrite Hm. split; [done|]. exists []. rewrite app_nil_r.
  split_and!; [done|constructor|apply raised_last_nil].
Qed.

Lemma quiet_ret {A} (a : A) : quiet (ret a).
Proof. by apply quiet_still. Qed.
Lemma quiet_raise {A} e : quiet (@raise A e).
Proof. by apply quiet_still. Qed.
Lemma quiet_blocked {A} : quiet (@blocked A).
Proof. by apply quiet_still. Qed.
Lemma quiet_gets {A} (f : World → A) : quiet (gets f).
Proof. by apply quiet_still. Qed.

Lemma quiet_bind {A B} (m : M A) (k : A → M B) :
  quiet m → (∀ a, quiet (k a)) → quiet (bind m k).
Proof.
  intros Hm Hk w. unfold bind.
  destruct (Hm w) as [[Hmem Hst] (evs1 & Htr1 & Hns1 & Hlast1)].
  destruct (m w) as [[a|e|] w1] eqn:Hmw; cbn in *.
  - destruct (Hk a w1) as [[Hmem2 Hst2] (evs2 & Htr2 & Hns2 & Hlast2)].
    split; [split; congruence|].
    exists (evs1 ++ evs2). rewrite Htr2, Htr1, app_assoc.
    split_and!; [done|by apply Forall_app|].
    intros evs0 ev e0 Heq Hsig.
    destruct (decide (evs2 = [])) as [->|Hne].
    + rewrite app_nil_r in Heq. by specialize (Hlast1 _ _ _ Heq Hsig).
    + destruct (exists_last Hne) as (evs2' & ev2 & ->).
      rewrite app_assoc in Heq. apply app_inj_tail in Heq as [_ ->].
      by eapply Hlast2.
  - split; [done|]. exists evs1. split_and!; [done..|].
    intros ??? Heq Hs. specialize (Hlast1 _ _ _ Heq Hs). by simplify_eq.
  - split; [done|]. exists evs1. split_and!; [done..|].
    intros ??? Heq Hs. specialize (Hlast1 _ _ _ Heq Hs). by simplify_eq.
Qed.

Lemma quiet_event (ev : event) {A} (r : outcome A) (f : Terminal → Terminal) :
  is_save_confirmation ev = false →
  (∀ e, signal_of ev = Some e → r = Raised e) →
  (∀ t, trace (f t) = trace t) →
  quiet (λ w, (r, set_terminal (log_event ev (f (terminal w))) w)).
Proof.
  intros Hns Hsig Hf w. split; [done|]. exists [ev]. cbn. rewrite Hf.
  split_and!; [done|by constructor|].
  intros evs0 ev' e Heq. change [ev] with ([] ++ [ev]) in Heq.
  apply app_inj_tail in Heq as [_ <-]. apply Hsig.
Qed.

Lemma quiet_print_formatted_text text : quiet (print_formatted_text text).
Proof.
  apply (quiet_event (Printed text) (Done tt) (λ t, t)); [done|discriminate|done].
Qed.

Lemma quiet_print_lines lines : quiet (print_lines lines).
Proof.
  induction lines as [|text lines IH]; cbn.
  - apply quiet_ret.
  - apply quiet_bind; [apply quiet_print_formatted_text|done].
Qed.

Lemma quiet_set_completer c :
  quiet (modify (λ w, set_terminal (set_completer c (terminal w)) w)).
Proof.
  intros w. split; [done|]. exists []. cbn. rewrite app_nil_r.
  split_and!; [done|constructor|apply raised_last_nil].
Qed.

Lemma quiet_PromptSession : quiet PromptSession.
Proof. apply quiet_set_completer. Qed.

Lemma quiet_cli_confirm question choices :
  question ≠ save_question → quiet (cli_confirm question choices).
Proof.
  intros Hq w. unfold cli_confirm.
  destruct (dialogs (terminal w)) as [|answer rest] eqn:Hd.
  - by apply (quiet_blocked w).
  - assert (Hns : is_save_confirmation (Confirmed question choices answer) = false)
      by (by apply bool_decide_eq_false).
    destruct answer as [e|i].
    + apply (quiet_event _ (Raised e) (set_dialogs rest) Hns); [|done].
      by intros ? [= ->].
    + apply (quiet_event _ (Done i) (set_dialogs rest) Hns); [|done].
      discriminate.
Qed.

Lemma quiet_prompt_async text answer rest : quiet (prompt_async text answer rest).
Proof.
  intros w. unfold prompt_async.
  destruct answer as [e|value].
  - apply (quiet_event (Prompted text (completer (terminal w)) (inl e))
             (Raised e) (set_keyboard rest)); [done| |done].
    by intros ? [= ->].
  - apply (quiet_event (Prompted text (completer (terminal w)) (inr value))
             (Done value) (set_keyboard rest)); [done| |done].
    discriminate.
Qed.

Lemma quiet_item {A} (l : list A) i : quiet (item l i).
Proof. unfold item. destruct (l !! i); [apply quiet_ret|apply quiet_raise]. Qed.

Lemma quiet_dict_item {V} (d : dict V) k : quiet (dict_item d k).
Proof.
  unfold dict_item. destruct (dict_get d k); [apply quiet_ret|apply quiet_raise].
Qed.

Lemma quiet_first_key {V} (d : dict V) : quiet (first_key d).
Proof.
  unfold first_key. destruct (keys d); [apply quiet_raise|apply quiet_ret].
Qed.

Lemma quiet_if {A} (b : bool) (m1 m2 : M A) :
  quiet m1 → quiet m2 → quiet (if b then m1 else m2).
Proof. by destruct b. Qed.

Create HintDb quiet discriminated.
#[local] Hint Resolve quiet_ret quiet_raise quiet_blocked quiet_gets
  quiet_print_formatted_text quiet_print_lines quiet_set_completer
  quiet_PromptSession quiet_prompt_async quiet_item quiet_dict_item
  quiet_first_key : quiet.

Ltac quiet_step :=
  first
    [ solve [auto with quiet]
    | apply quiet_cli_confirm; by (intros ?; discriminate)
    | apply quiet_if
    | apply quiet_bind; [|intros ?] ].

Lemma quiet_get_validated_input_loop text validator msg pending :
  quiet (get_validated_input_loop text validator msg pending).
Proof.
  induction pending as [|answer rest IH]; cbn; [apply quiet_blocked|].
  apply quiet_bind; [apply quiet_prompt_async|intros value].
  destruct validator as [validate|].
  - destruct (validate value) as [is_valid printed].
    repeat quiet_step.
  - repeat quiet_step.
Qed.

Lemma quiet_get_validated_input text completer validator msg :
  quiet (get_validated_input text completer validator msg).
Proof.
  unfold get_validated_input. repeat quiet_step.
  apply quiet_get_validated_input_loop.
Qed.

#[local] Hint Resolve quiet_get_validated_input : quiet.

Section QuietFlows.
Context `{Collaborators}.

Lemma quiet_basic_inputs om vp pc p : quiet (basic_inputs om vp pc p).
Proof.
  unfold basic_inputs, model_and_key, select_provider, choose_default_model,
    select_model.
  repeat quiet_step.
Qed.

Lemma quiet_advanced_inputs : quiet advanced_inputs.
Proof. unfold advanced_inputs. repeat quiet_step. Qed.

Lemma quiet_search_inputs : quiet search_inputs.
Proof. unfold search_inputs. repeat quiet_step. Qed.
End QuietFlows.

(** ** The shape of a wizard flow *)

Lemma collects_try {A} (m : M A) :
  quiet m → collects (λ o, o = None) (try_except_return m).
Proof.
  intros Hm w. unfold try_except_return.
  destruct (Hm w) as [Hun (evs & Htr & Hns & Hlast)].
  destruct (m w) as [[a|e|] w1] eqn:Hmw; cbn in *.
  - split; [done|]. exists evs. split_and!; [done..|].
    intros ??? Heq Hs _. by specialize (Hlast _ _ _ Heq Hs).
  - destruct (is_cancellation e) eqn:He; cbn.
    + split; [done|]. exists evs. split_and!; [done..|]. eauto.
    + split; [done|]. exists evs. split_and!; [done..|].
      intros ??? Heq Hs Hc. specialize (Hlast _ _ _ Heq Hs). congruence.
  - split; [done|]. exists evs. split_and!; [done..|].
    intros ??? Heq Hs _. by specialize (Hlast _ _ _ Heq Hs).
Qed.

Lemma collects_bind {A B} (P : B → Prop) (m : M A) (k : A → M B) :
  mute m → (∀ a, collects P (k a)) → collects P (bind m k).
Proof.
  intros Hm Hk w. unfold bind.
  destruct (Hm w) as [[Hmem Hst] Htr1].
  destruct (m w) as [[a|e|] w1] eqn:Hmw; cbn in *.
  - destruct (Hk a w1) as [[Hmem2 Hst2] (evs2 & Htr2 & Hns2 & Hlast2)].
    split; [split; congruence|].
    exists evs2. rewrite Htr2, Htr1. done.
  - split; [done|]. exists []. rewrite app_nil_r.
    split_and!; [done|constructor|]. by intros [|??] ???.
  - split; [done|]. exists []. rewrite app_nil_r.
    split_and!; [done|constructor|]. by intros [|??] ???.
Qed.

Lemma collects_ret {A B} (P : A → Prop) (f : A → B) (m : M A) :
  collects P m → collects (λ b, ∃ a, b = f a ∧ P a) (let* a := m in ret (f a)).
Proof.
  intros Hm w. unfold bind.
  destruct (Hm w) as [Hun (evs & Htr & Hns & Hlast)].
  destruct (m w) as [[a|e|] w1] eqn:Hmw; cbn in *.
  - split; [done|]. exists evs. split_and!; [done..|].
    intros ??? Heq Hs Hc.
    destruct (Hlast _ _ _ Heq Hs Hc) as (a' & [= <-] & HP). eauto.
  - split; [done|]. exists evs. split_and!; [done..|].
    intros ??? Heq Hs Hc. by destruct (Hlast _ _ _ Heq Hs Hc) as (a' & ? & HP).
  - split; [done|]. exists evs. split_and!; [done..|].
    intros ??? Heq Hs Hc. by destruct (Hlast _ _ _ Heq Hs Hc) as (a' & ? & HP).
Qed.

Lemma mute_PromptSession : mute PromptSession.
Proof. done. Qed.
Lemma mute_gets {A} (f : World → A) : mute (gets f).
Proof. done. Qed.
Lemma mute_ret {A} (a : A) : mute (ret a).
Proof. done. Qed.
Lemma mute_item {A} (l : list A) i : mute (item l i).
Proof. unfold item. by destruct (l !! i). Qed.

Section Collect.
Context `{Collaborators}.

Lemma collects_basic : collects (λ a, a.2 = None) basic_collect.
Proof.
  unfold basic_collect.
  apply collects_bind; [apply mute_gets|intros model_list].
  apply collects_bind; [apply mute_PromptSession|intros _].
  apply collects_bind.
  { case_bool_decide; [apply mute_ret|apply mute_item]. }
  intros provider.
  match goal with
  | |- collects _ (bind ?m (λ c, ret (?x, c))) =>
      pose proof (collects_ret (λ o, o = None) (λ c, (x, c)) m) as Hc
  end.
  intros w. destruct (Hc (collects_try _ (quiet_basic_inputs _ _ _ _)) w)
    as [Hun (evs & Htr & Hns & Hlast)].
  split; [done|]. exists evs. split_and!; [done..|].
  intros ??? Heq Hs Hcan.
  destruct (Hlast _ _ _ Heq Hs Hcan) as (a & Ha & c & -> & ->). eauto.
Qed.

Lemma collects_advanced : collects (λ a, a = None) advanced_collect.
Proof.
  apply collects_bind; [apply mute_PromptSession|intros _].
  apply collects_try, quiet_advanced_inputs.
Qed.

Lemma collects_search : collects (λ a, a = None) search_collect.
Proof.
  apply collects_bind; [apply mute_PromptSession|intros _].
  apply collects_try, quiet_search_inputs.
Qed.
End Collect.

Lemma confirm_then_cases (save : M unit) (w : World) :
  silent save →
  ((confirm_then save w).1 = Blocked ∧ (confirm_then save w).2 = w) ∨
  ∃ answer,
    trace (terminal (confirm_then save w).2)
    = trace (terminal w) ++ [Confirmed save_question save_choices answer] ∧
    match answer with
    | inl e => (confirm_then save w).1 = Raised e
               ∧ untouched w (confirm_then save w).2
    | inr 0 => True
    | inr (S _) => (confirm_then save w).1 = Done tt
                   ∧ untouched w (confirm_then save w).2
    end.
Proof.
  intros Hsave.
  unfold confirm_then, save_settings_confirmation, cli_confirm, bind.
  destruct (dialogs (terminal w)) as [|[e|[|n]] rest]; cbn.
  - by left.
  - right. by exists (inl e).
  - right. exists (inr 0). by rewrite Hsave.
  - right. by exists (inr (S n)).
Qed.

Lemma wizard_shape {A} (aborted : A → Prop) (collect : M A)
    (finish : A → M unit) :
  collects aborted collect →
  (∀ a, finish a = ret tt
        ∨ (¬ aborted a ∧ ∃ save, silent save ∧ finish a = confirm_then save)) →
  ∀ w, ∃ evs,
    trace (terminal (bind collect finish w).2) = trace (terminal w) ++ evs ∧
    (stopped_before_saving w (bind collect finish w).1
       (bind collect finish w).2 evs
     ∨ reached_confirmation w (bind collect finish w).1
         (bind collect finish w).2 evs).
Proof.
  intros Hcollect Hfinish w. unfold bind.
  destruct (Hcollect w) as [[Hmem Hst] (evs & Htr & Hns & Hlast)].
  destruct (collect w) as [[a|e|] w1] eqn:Hcw; cbn in *.
  - destruct (Hfinish a) as [->|(Hna & save & Hsave & ->)].
    + exists evs. split; [done|]. left. by split_and!.
    + destruct (confirm_then_cases save w1 Hsave) as [[Hr Hw]|(ans & Htr2 & Hans)].
      * exists evs. rewrite Hw, Hr. split; [done|]. left. split_and!; [done..|].
        intros ??? Heq Hs Hc.
        destruct (Hlast _ _ _ Heq Hs Hc) as (a' & [= <-] & Ha). done.
      * exists (evs ++ [Confirmed save_question save_choices ans]).
        rewrite Htr2, Htr, app_assoc. split; [done|]. right.
        exists evs, ans. split; [done|].
        unfold untouched in *.
        destruct ans as [e|[|n]]; [|done|];
          (destruct Hans as [-> [-> ->]]; done).
  - exists evs. split; [done|]. left. split_and!; [done..|].
    intros ??? Heq Hs Hc. by destruct (Hlast _ _ _ Heq Hs Hc) as (a' & ? & Ha).
  - exists evs. split; [done|]. left. split_and!; [done..|].
    intros ??? Heq Hs Hc. by destruct (Hlast _ _ _ Heq Hs Hc) as (a' & ? & Ha).
Qed.

Lemma silent_ret {A} (a : A) : silent (ret a).
Proof. done. Qed.
Lemma silent_raise {A} e : silent (@raise A e).
Proof. done. Qed.
Lemma silent_gets {A} (f : World → A) : silent (gets f).
Proof. done. Qed.
Lemma silent_bind {A B} (m : M A) (k : A → M B) :
  silent m → (∀ a, silent (k a)) → silent (bind m k).
Proof.
  intros Hm Hk w. unfold bind. specialize (Hm w).
  destruct (m w) as [[a|e|] w1]; cbn in *; [|done..].
  by rewrite Hk.
Qed.
Lemma silent_if {A} (b : bool) (m1 m2 : M A) :
  silent m1 → silent m2 → silent (if b then m1 else m2).
Proof. by destruct b. Qed.
Lemma silent_modify_root f : silent (modify_root f).
Proof. done. Qed.
Lemma silent_assign_llm l f : silent (assign_llm l f).
Proof. done. Qed.
Lemma silent_assign_agent l f : silent (assign_agent l f).
Proof. done. Qed.
Lemma silent_new_llm_object c : silent (new_llm_object c).
Proof. done. Qed.
Lemma silent_new_agent_object c : silent (new_agent_object c).
Proof. done. Qed.
Lemma silent_logger_warning text : silent (logger_warning text).
Proof. done. Qed.
Lemma silent_settings_store_load : silent settings_store_load.
Proof. done. Qed.
Lemma silent_settings_store_store s : silent (settings_store_store s).
Proof. done. Qed.
Lemma silent_dict_item {V} (d : dict V) k : silent (dict_item d k).
Proof. unfold dict_item. by destruct (dict_get d k). Qed.

Create HintDb silent discriminated.
#[local] Hint Resolve silent_ret silent_raise silent_gets silent_modify_root
  silent_assign_llm silent_assign_agent silent_new_llm_object
  silent_new_agent_object silent_logger_warning silent_settings_store_load
  silent_settings_store_store silent_dict_item : silent.

Ltac silent_step :=
  first
    [ solve [auto with silent]
    | apply silent_if
    | apply silent_bind; [|intros ?]
    | match goal with |- silent (match ?x with _ => _ end) => destruct x end ].

Lemma silent_get_llm_config d name : silent (get_llm_config d name).
Proof. unfold get_llm_config, set_llm_config. repeat silent_step. Qed.
Lemma silent_get_agent_config d name : silent (get_agent_config d name).
Proof. unfold get_agent_config. repeat silent_step. Qed.
Lemma silent_set_llm_config v name : silent (set_llm_config v name).
Proof. done. Qed.
Lemma silent_set_agent_config v name : silent (set_agent_config v name).
Proof. done. Qed.

#[local] Hint Resolve silent_get_llm_config silent_get_agent_config
  silent_set_llm_config silent_set_agent_config : silent.

Section Shape.
Context `{Collaborators}.

Lemma silent_basic_save om p m k : silent (basic_save om p m k).
Proof. unfold basic_save. repeat silent_step. Qed.
Lemma silent_advanced_save cm bu ak ag ecm emc :
  silent (advanced_save cm bu ak ag ecm emc).
Proof. unfold advanced_save. repeat silent_step. Qed.
Lemma silent_search_save k : silent (search_save k).
Proof. unfold search_save. repeat silent_step. Qed.

Lemma wizard_cases (flow : M unit) (w : World) :
  flow ∈ wizard_flows →
  ∃ evs,
    trace (terminal (flow w).2) = trace (terminal w) ++ evs ∧
    (stopped_before_saving w (flow w).1 (flow w).2 evs
     ∨ reached_confirmation w (flow w).1 (flow w).2 evs).
Proof.
  unfold wizard_flows. rewrite !elem_of_cons, elem_of_nil.
  intros [->|[->|[->|[]]]].
  - apply (wizard_shape (λ a, a.2 = None) basic_collect _ collects_basic).
    intros [om [[[p m] k]|]]; [right|by left].
    split; [done|]. eexists. split; [apply silent_basic_save|done].
  - apply (wizard_shape (λ a, a = None) advanced_collect _ collects_advanced).
    intros [[[[[[cm bu] ak] ag] ecm] emc]|]; [right|by left].
    split; [done|]. eexists. split; [apply silent_advanced_save|done].
  - apply (wizard_shape (λ a, a = None) search_collect _ collects_search).
    intros [[k|]|]; [right|by left..].
    split; [done|]. eexists. split; [apply silent_search_save|done].
Qed.

(** C1.  In each of the three wizard flows, when the last thing that
    happened on the terminal is an interaction other than the save
    confirmation raising [UserCancelledError], [KeyboardInterrupt] or
    [EOFError], the flow has returned normally, the configuration memory is
    what it was, and the settings store is what it was: nothing was stored.
    The conclusion is the same for the three signals. *)
Theorem cancellation_aborts_without_saving
    (flow : M unit) (w : World) (evs : list event) (ev : event) (e : exn) :
  flow ∈ wizard_flows →
  trace (terminal (flow w).2) = trace (terminal w) ++ evs ++ [ev] →
  signal_of ev = Some e →
  is_cancellation e = true →
  is_save_confirmation ev = false →
  (flow w).1 = Done tt
  ∧ memory (flow w).2 = memory w
  ∧ settings_store (flow w).2 = settings_store w.
Proof.
  intros Hflow Htr Hsig Hcan Hns.
  destruct (wizard_cases flow w Hflow) as (evs' & Htr' & Hcases).
  rewrite Htr in Htr'. apply app_inv_head in Htr' as <-.
  destruct Hcases as [([Hmem Hst] & _ & Hlast)|(evs0 & ans & Heq & _)].
  - split_and!; [|done..]. by eapply Hlast.
  - apply app_inj_tail in Heq as [_ ->].
    unfold is_save_confirmation in Hns.
    by apply bool_decide_eq_false in Hns.
Qed.

(** C2.  In each of the three wizard flows, when all inputs were collected
    and the save confirmation was answered with anything but "Yes, save",
    the flow has returned normally with the configuration memory and the
    settings store as they were: nothing is written before that answer. *)
Theorem declining_save_leaves_everything_unchanged
    (flow : M unit) (w : World) (evs : list event) (n : nat) :
  flow ∈ wizard_flows →
  trace (terminal (flow w).2)
  = trace (terminal w) ++ evs ++ [Confirmed save_question save_choices (inr n)] →
  n ≠ 0 →
  (flow w).1 = Done tt
  ∧ memory (flow w).2 = memory w
  ∧ settings_store (flow w).2 = settings_store w.
Proof.
  intros Hflow Htr Hn.
  destruct (wizard_cases flow w Hflow) as (evs' & Htr' & Hcases).
  rewrite Htr in Htr'. apply app_inv_head in Htr' as <-.
  destruct Hcases as [(_ & Hns & _)|(evs0 & ans & Heq & Hans)].
  - apply Forall_app in Hns as [_ Hns]. apply Forall_inv in Hns.
    unfold is_save_confirmation in Hns.
    by apply bool_decide_eq_false in Hns.
  - apply app_inj_tail in Heq as [_ [= <-]].
    destruct n as [|n]; [done|]. by destruct Hans as [-> [-> ->]].
Qed.
End Shape.

(** ** The validation loop *)

Lemma print_lines_displayed lines w :
  print_lines lines w = (Done tt, displayed lines w).
Proof.
  revert w. induction lines as [|text lines IH]; intros w; cbn.
  - unfold ret, displayed. destruct w as [m s [kb dl c tr] wn]; cbn.
    by rewrite app_nil_r.
  - unfold bind, print_formatted_text, modify. rewrite IH.
    unfold displayed. destruct w as [m s [kb dl c tr] wn]; cbn.
    by rewrite <- app_assoc.
Qed.

Lemma prompt_answers_printed lines : prompt_answers (Printed <$> lines) = [].
Proof. by induction lines. Qed.

Lemma prompt_answers_app evs1 evs2 :
  prompt_answers (evs1 ++ evs2) = prompt_answers evs1 ++ prompt_answers evs2.
Proof. apply omap_app. Qed.

(** One iteration on a typed value: the prompt and some printed lines are
    added to the trace, and the loop either returns the value or goes on
    with the remaining answers, according to the verdict. *)
Lemma loop_step text validator msg value rest w :
  ∃ w' lines,
    terminal w'
    = {| keyboard := rest; dialogs := dialogs (terminal w);
         completer := completer (terminal w);
         trace := trace (terminal w)
                  ++ Prompted text (completer (terminal w)) (inr value)
                     :: (Printed <$> lines) |} ∧
    get_validated_input_loop text validator msg (inr value :: rest) w
    = if accepts validator value then (Done value, w')
      else get_validated_input_loop text validator msg rest w'.
Proof.
  cbn [get_validated_input_loop]. unfold bind at 1. unfold prompt_async.
  set (w1 := set_terminal _ w).
  destruct validator as [validate|]; cbn [accepts].
  - destruct (validate value) as [is_valid printed]; cbn [fst].
    unfold bind at 1. rewrite print_lines_displayed.
    destruct is_valid; cbn [negb].
    + exists (displayed printed w1), printed. split; [|done].
      cbn. by rewrite <- app_assoc.
    + unfold bind, print_formatted_text, modify.
      eexists _, (printed ++ [_; _; _]). refine (conj _ eq_refl).
      subst w1. unfold displayed, log_event, set_terminal. cbn.
      rewrite fmap_app, <- !app_assoc. reflexivity.
  - destruct (decide (value = EmptyString)) as [->|Hv].
    + rewrite (bool_decide_eq_false_2 (EmptyString ≠ EmptyString)) by auto.
      rewrite (bool_decide_eq_true_2 (EmptyString = EmptyString)) by done.
      unfold bind, print_formatted_text, modify.
      eexists _, [_; _; _]. refine (conj _ eq_refl).
      subst w1. unfold log_event, set_terminal. cbn.
      rewrite <- !app_assoc. reflexivity.
    + rewrite (bool_decide_eq_true_2 (value ≠ EmptyString)) by done.
      rewrite (bool_decide_eq_false_2 (value = EmptyString)) by done.
      exists w1, []. split; reflexivity.
Qed.

Lemma loop_never_returns_rejected text validator msg pending w value :
  (get_validated_input_loop text validator msg pending w).1 = Done value →
  accepts validator value = true.
Proof.
  revert w. induction pending as [|[e|v] rest IH]; intros w; [done..|].
  destruct (loop_step text validator msg v rest w) as (w' & lines & _ & ->).
  destruct (accepts validator v) eqn:Hv; [by intros [= <-]|apply IH].
Qed.

Lemma loop_decides text validator msg (rejected : list string) rest w :
  keyboard (terminal w) = (inr <$> rejected) ++ rest →
  Forall (λ value, accepts validator value = false) rejected →
  match rest with
  | inr value :: _ => accepts validator value = true
  | _ => True
  end →
  let r := get_validated_input_loop text validator msg
             ((inr <$> rejected) ++ rest) w in
  r.1 = match rest with
        | [] => Blocked
        | inl e :: _ => Raised e
        | inr value :: _ => Done value
        end ∧
  keyboard (terminal r.2) = drop 1 rest ∧
  ∃ evs,
    trace (terminal r.2) = trace (terminal w) ++ evs ∧
    prompt_answers evs = (inr <$> rejected) ++ take 1 rest.
Proof.
  intros Hkb Hrej Hhead. revert w Hkb.
  induction Hrej as [|value rejected Hvalue _ IH]; intros w Hkb; cbn zeta.
  - cbn [fmap list_fmap app] in *. destruct rest as [|[e|value] rest'].
    + split_and!; [done..|]. exists []. by rewrite app_nil_r.
    + split_and!; [done..|]. by eexists [_].
    + destruct (loop_step text validator msg value rest' w)
        as (w' & lines & Ht & ->).
      rewrite Hhead. cbn [fst snd]. rewrite Ht. split_and!; [done..|].
      eexists. split; [done|]. cbn. by rewrite prompt_answers_printed.
  - cbn [fmap list_fmap app].
    destruct (loop_step text validator msg value ((inr <$> rejected) ++ rest) w)
      as (w' & lines & Ht & ->).
    rewrite Hvalue.
    destruct (IH w') as (Hr & Hkb2 & evs2 & Htr2 & Hans2); [by rewrite Ht|].
    split_and!; [done..|].
    eexists (_ :: (Printed <$> lines) ++ evs2).
    rewrite Htr2, Ht. cbn. rewrite <- app_assoc. split; [done|].
    by rewrite prompt_answers_app, prompt_answers_printed, Hans2.
Qed.

(** C4.  Let the pending answers be some values the validator rejects (the
    empty ones when there is no validator) followed by [rest], whose first
    answer, if it is a value, passes.  Then [get_validated_input] has asked
    once for each rejected value and once more for the first answer of
    [rest]; it ends with that answer: the value is returned, the exception is
    raised, and with no answer left the flow is still at the prompt.  Whatever
    the answers, a value it returns passes the validator. *)
Theorem get_validated_input_reprompts_until_valid
    (prompt_text : string) (completer : option (list string))
    (validator : option validator_t) (error_message : string)
    (w : World) (rejected : list string) (rest : list (exn + string)) :
  keyboard (terminal w) = (inr <$> rejected) ++ rest →
  Forall (λ value, accepts validator value = false) rejected →
  match rest with
  | inr value :: _ => accepts validator value = true
  | _ => True
  end →
  let r := get_validated_input prompt_text completer validator error_message w in
  (∀ value, r.1 = Done value → accepts validator value = true) ∧
  r.1 = match rest with
        | [] => Blocked
        | inl e :: _ => Raised e
        | inr value :: _ => Done value
        end ∧
  keyboard (terminal r.2) = drop 1 rest ∧
  ∃ evs,
    trace (terminal r.2) = trace (terminal w) ++ evs ∧
    prompt_answers evs = (inr <$> rejected) ++ take 1 rest.
Proof.
  intros Hkb Hrej Hhead. cbn zeta.
  unfold get_validated_input, bind, modify, gets. cbn. rewrite Hkb.
  split; [intros value; apply loop_never_returns_rejected|].
  by apply (loop_decides prompt_text validator error_message rejected rest
              (set_terminal (set_completer completer (terminal w)) w)).
Qed.

(** The same without any assumption on the answers: no rejected value is
    ever returned. *)
Lemma get_validated_input_returns_valid text completer validator msg w value :
  (get_validated_input text completer validator msg w).1 = Done value →
  accepts validator value = true.
Proof.
  unfold get_validated_input, bind, modify, gets. cbn.
  apply loop_never_returns_rejected.
Qed.

(** ** Named profiles of the configuration root *)

Section Profiles.
Variable LLMConfig_new : LLMConfig.
Variable AgentConfig_new : AgentConfig.

Lemma get_llm_config_hit (w : World) name l :
  llms (config w) !! name = Some l →
  get_llm_config LLMConfig_new name w = (Done l, w).
Proof.
  intros Hl. unfold get_llm_config, bind, gets. by rewrite Hl.
Qed.

Lemma get_agent_config_hit (w : World) name l :
  agents (config w) !! name = Some l →
  get_agent_config AgentConfig_new name w = (Done l, w).
Proof.
  intros Hl. unfold get_agent_config, bind, gets. by rewrite Hl.
Qed.

Lemma get_llm_config_miss (w : World) name :
  llms (config w) !! name = None →
  ∃ l w',
    get_llm_config LLMConfig_new name w = (Done l, w') ∧
    llms (config w') !! "llm" = Some l ∧
    agents (config w') = agents (config w) ∧
    match llms (config w) !! "llm" with
    | Some l0 => l = l0 ∧ memory w' = memory w
    | None =>
        l = length (llm_objects (memory w)) ∧
        llms (config w') = <["llm" := l]> (llms (config w)) ∧
        llm_objects (memory w') = llm_objects (memory w) ++ [LLMConfig_new]
    end.
Proof.
  intros Hn. unfold get_llm_config, bind at 1, gets at 1. rewrite Hn.
  destruct (llms (config w) !! "llm") as [l0|] eqn:Hl.
  - assert (Hd : ∀ w0, llms (config w0) = llms (config w) →
              bool_decide ("llm" ∉ dom (llms (config w0))) = false).
    { intros w0 ->. apply bool_decide_eq_false. intros Hc.
      apply Hc, elem_of_dom. eauto. }
    exists l0. destruct (bool_decide (name ≠ "llm"));
      unfold bind, gets, logger_warning, modify, ret; cbn;
      rewrite Hd by done; cbn; unfold config in *; cbn; rewrite Hl;
      eexists; split_and!; done.
  - assert (Hd : ∀ w0, llms (config w0) = llms (config w) →
              bool_decide ("llm" ∉ dom (llms (config w0))) = true).
    { intros w0 ->. apply bool_decide_eq_true. by apply not_elem_of_dom. }
    exists (length (llm_objects (memory w))).
    destruct (bool_decide (name ≠ "llm"));
      unfold bind, gets, logger_warning, modify, ret; cbn;
      rewrite Hd by done; cbn; unfold config in *; cbn;
      rewrite lookup_insert_eq; eexists; split_and!; try done;
      cbn; by rewrite lookup_insert_eq.
Qed.

Lemma get_agent_config_miss (w : World) name :
  agents (config w) !! name = None →
  ∃ l w',
    get_agent_config AgentConfig_new name w = (Done l, w') ∧
    agents (config w') !! "agent" = Some l ∧
    llms (config w') = llms (config w) ∧
    match agents (config w) !! "agent" with
    | Some l0 => l = l0 ∧ w' = w
    | None =>
        l = length (agent_objects (memory w)) ∧
        agents (config w') = <["agent" := l]> (agents (config w)) ∧
        agent_objects (memory w')
        = agent_objects (memory w) ++ [AgentConfig_new]
    end.
Proof.
  intros Hn. unfold get_agent_config, bind at 1, gets at 1. rewrite Hn.
  destruct (agents (config w) !! "agent") as [l0|] eqn:Hl.
  - rewrite bool_decide_eq_false_2
      by (intros Hc; apply Hc, elem_of_dom; eauto).
    exists l0, w. unfold bind, gets, ret; cbn. by rewrite Hl.
  - rewrite bool_decide_eq_true_2 by (by apply not_elem_of_dom).
    exists (length (agent_objects (memory w))).
    unfold bind, gets, modify_root, modify, new_agent_object, ret; cbn.
    unfold config; cbn. rewrite lookup_insert_eq.
    eexists; split_and!; try done. cbn. by rewrite lookup_insert_eq.
Qed.

(** C8.  Looking a profile up right after setting it gives back the very
    configuration that was set, for LLM and for agent profiles alike, and
    the lookup changes nothing. *)
Theorem set_then_get_round_trip (w : World) (name : string) (v : loc) :
  (set_llm_config v name >> get_llm_config LLMConfig_new name) w
  = (Done v, (set_llm_config v name w).2)
  ∧ (set_agent_config v name >> get_agent_config AgentConfig_new name) w
    = (Done v, (set_agent_config v name w).2).
Proof.
  split.
  - set (w1 := (set_llm_config v name w).2).
    assert (Hset : set_llm_config v name w = (Done tt, w1)) by done.
    unfold bind at 1. rewrite Hset. apply get_llm_config_hit.
    unfold config. cbn. apply lookup_insert_eq.
  - set (w1 := (set_agent_config v name w).2).
    assert (Hset : set_agent_config v name w = (Done tt, w1)) by done.
    unfold bind at 1. rewrite Hset. apply get_agent_config_hit.
    unfold config. cbn. apply lookup_insert_eq.
Qed.

(** C9.  Asking for an LLM profile under a name that is neither a key of
    [llms] nor ['llm'] returns the default profile: the one already stored
    under ['llm'], or a newly constructed one stored there.  Afterwards
    ['llm'] is a key of [llms] and the requested name still is not. *)
Theorem get_llm_config_unknown_name_falls_back (w : World) (name : string) :
  name ∉ dom (llms (config w)) →
  name ≠ "llm" →
  ∃ l w',
    get_llm_config LLMConfig_new name w = (Done l, w') ∧
    llms (config w') !! "llm" = Some l ∧
    "llm" ∈ dom (llms (config w')) ∧
    (name ∉ dom (llms (config w'))) ∧
    (match llms (config w) !! "llm" with
     | Some l0 => l = l0 ∧ memory w' = memory w
     | None =>
         l = length (llm_objects (memory w)) ∧
         llms (config w') = <["llm" := l]> (llms (config w)) ∧
         llm_objects (memory w') = llm_objects (memory w) ++ [LLMConfig_new]
     end).
Proof.
  intros Hname Hne. apply not_elem_of_dom in Hname.
  destruct (get_llm_config_miss w name Hname) as (l & w' & Hrun & Hl & _ & Hcase).
  exists l, w'. split_and!; [done|done| | |done].
  - apply elem_of_dom. eauto.
  - apply not_elem_of_dom.
    destruct (llms (config w) !! "llm") as [l0|].
    + destruct Hcase as [_ Hmem]. unfold config. by rewrite Hmem.
    + destruct Hcase as (_ & -> & _). by rewrite lookup_insert_ne.
Qed.

(** C5, as amended.  A lookup under a name that is not a key creates the
    default profile if it is missing: after [get_llm_config] the key
    ['llm'] is present, and after [get_agent_config] the key ['agent'] is
    present.  A lookup under a name that is a key returns the profile bound
    to that name and changes nothing. *)
Theorem default_profiles_created_on_miss (w : World) (name : string) :
  (name ∉ dom (llms (config w)) →
   "llm" ∈ dom (llms (config (get_llm_config LLMConfig_new name w).2)))
  ∧ (name ∉ dom (agents (config w)) →
     "agent" ∈ dom (agents (config (get_agent_config AgentConfig_new name w).2)))
  ∧ (∀ l, llms (config w) !! name = Some l →
          get_llm_config LLMConfig_new name w = (Done l, w))
  ∧ (∀ l, agents (config w) !! name = Some l →
          get_agent_config AgentConfig_new name w = (Done l, w)).
Proof.
  split_and!.
  - intros Hn. apply not_elem_of_dom in Hn.
    destruct (get_llm_config_miss w name Hn) as (l & w' & -> & Hl & _).
    apply elem_of_dom. eauto.
  - intros Hn. apply not_elem_of_dom in Hn.
    destruct (get_agent_config_miss w name Hn) as (l & w' & -> & Hl & _).
    apply elem_of_dom. eauto.
  - intros l Hl. by apply get_llm_config_hit.
  - intros l Hl. by apply get_agent_config_hit.
Qed.
End Profiles.

(** ** Saving *)

Lemma with_agents_id (w : World) :
  with_agents (agents (config w)) (agent_objects (memory w)) w = w.
Proof. by destruct w as [[[] ??] ???]. Qed.

Lemma with_llms_id (w : World) :
  with_llms (llms (config w)) (llm_objects (memory w)) w = w.
Proof. by destruct w as [[[] ??] ???]. Qed.

Lemma get_agent_config_run (d : AgentConfig) (name : string) (w : World) :
  ∃ l named objects,
    get_agent_config d name w = (Done l, with_agents named objects w).
Proof.
  destruct (agents (config w) !! name) as [l|] eqn:Hn.
  - exists l, (agents (config w)), (agent_objects (memory w)).
    rewrite with_agents_id. by apply get_agent_config_hit.
  - unfold get_agent_config, bind at 1, gets at 1. rewrite Hn.
    destruct (agents (config w) !! "agent") as [l0|] eqn:Ha.
    + rewrite bool_decide_eq_false_2
        by (intros Hc; apply Hc, elem_of_dom; eauto).
      exists l0, (agents (config w)), (agent_objects (memory w)).
      rewrite with_agents_id. unfold bind, gets, ret; cbn. by rewrite Ha.
    + rewrite bool_decide_eq_true_2 by (by apply not_elem_of_dom).
      unfold bind, gets, modify_root, modify, new_agent_object, ret; cbn.
      unfold config; cbn. rewrite lookup_insert_eq. by eexists _, _, _.
Qed.

Lemma get_llm_config_default_run (d : LLMConfig) (w : World) :
  default_llm_allocated w →
  ∃ l named objects,
    get_llm_config d "llm" w = (Done l, with_llms named objects w) ∧
    named !! "llm" = Some l ∧ is_Some (objects !! l).
Proof.
  intros Hwf. destruct (llms (config w) !! "llm") as [l|] eqn:Hl.
  - exists l, (llms (config w)), (llm_objects (memory w)).
    rewrite with_llms_id. split_and!; [by apply get_llm_config_hit|done|auto].
  - unfold get_llm_config, bind at 1, gets at 1. rewrite Hl.
    rewrite bool_decide_eq_false_2 by (intros Hc; by apply Hc).
    unfold bind at 1. cbn [ret]. unfold bind at 1, gets at 1.
    rewrite bool_decide_eq_true_2 by (by apply not_elem_of_dom).
    unfold bind, gets, modify_root, modify, new_llm_object, ret; cbn.
    unfold config; cbn. rewrite lookup_insert_eq.
    eexists _, _, _. split_and!; [done|apply lookup_insert_eq|].
    rewrite lookup_app_r, Nat.sub_diag by done. by eexists.
Qed.

Section Saving.
Context `{Collaborators}.

End Saving.

Lemma save_confirmed (w : World) rest :
  dialogs (terminal w) = inr 0 :: rest →
  ∃ w', save_settings_confirmation w = (Done true, w') ∧
        memory w' = memory w ∧ settings_store w' = settings_store w.
Proof.
  intros Hd. unfold save_settings_confirmation, bind, cli_confirm.
  rewrite Hd. by eexists.
Qed.

Section Confirmed.
Context `{Collaborators}.

Lemma default_llm_allocated_untouched (w w' : World) :
  memory w' = memory w → default_llm_allocated w → default_llm_allocated w'.
Proof. unfold default_llm_allocated, config. by intros ->. Qed.

End Confirmed.

Lemma bind_done_inv {A B} (m : M A) (k : A → M B) w b w' :
  bind m k w = (Done b, w') →
  ∃ a w1, m w = (Done a, w1) ∧ k a w1 = (Done b, w').
Proof.
  unfold bind. destruct (m w) as [[a|e|] w1]; [eauto|done..].
Qed.

Lemma try_except_return_some_inv {A} (m : M A) w a w' :
  try_except_return m w = (Done (Some a), w') → m w = (Done a, w').
Proof.
  unfold try_except_return. destruct (m w) as [[a'|e|] w1]; [|..|done].
  - by intros [= -> ->].
  - by destruct (is_cancellation e).
Qed.

Lemma dict_item_done_inv {V} (d : dict V) k w v w' :
  dict_item d k w = (Done v, w') → dict_get d k = Some v.
Proof. unfold dict_item. by destruct (dict_get d k); intros [= -> ->]. Qed.

Lemma keys_dict_get {V} (d : dict V) (k : string) :
  k ∈ keys d → is_Some (dict_get d k).
Proof.
  unfold keys. induction d as [|[k' v] d IH]; cbn.
  - by intros ?%elem_of_nil.
  - intros [->|Hk]%elem_of_cons.
    + by rewrite bool_decide_eq_true_2.
    + case_bool_decide; [done|by apply IH].
Qed.


Section Basic.
Context `{Collaborators}.

Lemma basic_inputs_provider_known om vp pc p0 w p m k w' :
  basic_inputs om vp pc p0 w = (Done (p, m, k), w') →
  is_Some (dict_get om p).
Proof.
  unfold basic_inputs, model_and_key. intros Hrun.
  apply bind_done_inv in Hrun as (p' & w1 & _ & Hrun).
  apply bind_done_inv in Hrun as (entry & w2 & Hentry & Hrun).
  apply bind_done_inv in Hrun as (dm & w3 & _ & Hrun).
  apply bind_done_inv in Hrun as (m' & w4 & _ & Hrun).
  apply bind_done_inv in Hrun as (? & w5 & _ & Hrun).
  apply bind_done_inv in Hrun as (k' & w6 & _ & Hrun).
  injection Hrun as -> -> -> ->.
  apply dict_item_done_inv in Hentry. eauto.
Qed.

Lemma basic_collect_inv w om p m k w1 :
  basic_collect w = (Done (om, Some (p, m, k)), w1) →
  om = organize_models_and_providers (get_supported_llm_models (memory w))
  ∧ is_Some (dict_get om p).
Proof.
  unfold basic_collect. intros Hrun.
  apply bind_done_inv in Hrun as (model_list & w0 & [= <- <-] & Hrun).
  apply bind_done_inv in Hrun as (? & w2 & _ & Hrun).
  apply bind_done_inv in Hrun as (p0 & w3 & _ & Hrun).
  apply bind_done_inv in Hrun as (c & w4 & Htry & Hrun).
  injection Hrun as <- -> ->. split; [done|].
  apply try_except_return_some_inv in Htry.
  by eapply basic_inputs_provider_known.
Qed.

Lemma basic_save_run om provider chosen key entry (w : World) :
  dict_get om provider = Some entry →
  default_llm_allocated w →
  ∃ w' l c s,
    basic_save om provider chosen key w = (Done tt, w') ∧
    llms (config w') !! "llm" = Some l ∧
    llm_objects (memory w') !! l = Some c ∧
    model c = provider +:+ separator entry +:+ chosen ∧
    persisted (settings_store w') = Some s ∧
    stored (settings_store w') = stored (settings_store w) ++ [s] ∧
    Settings.llm_model s = Some (provider +:+ separator entry +:+ chosen).
Proof.
  intros Hentry Hwf. unfold basic_save.
  destruct (get_llm_config_default_run LLMConfig_default w Hwf)
    as (l & named & objects & Hrun & Hl & [c0 Hc0]).
  unfold bind at 1. rewrite Hrun.
  unfold dict_item. rewrite Hentry.
  unfold bind, assign_llm, set_llm_config, modify_root, modify, gets, ret.
  cbn -[get_agent_config].
  match goal with
  | |- context [get_agent_config ?d ?n ?W] =>
      destruct (get_agent_config_run d n W) as (l2 & named2 & objects2 & ->)
  end.
  cbn. eexists _, l, _, _. split_and!; [reflexivity|..]; cbn.
  - apply lookup_insert_eq.
  - rewrite !list_lookup_alter_eq, Hc0. reflexivity.
  - done.
  - done.
  - done.
  - done.
Qed.

(** C10.  In [modify_search_api_settings], choosing "Remove API Key" and
    then confirming the save leaves [config.search_api_key] absent, and
    stores exactly one settings record, whose [search_api_key] is absent
    too (not a secret around the empty string). *)
Theorem removing_search_api_key_stores_none (w : World) (rest : list (exn + nat)) :
  dialogs (terminal w) = inr 1 :: inr 0 :: rest →
  ∃ w' s,
    modify_search_api_settings w = (Done tt, w') ∧
    search_api_key (config w') = None ∧
    persisted (settings_store w') = Some s ∧
    Settings.search_api_key s = None ∧
    stored (settings_store w') = stored (settings_store w) ++ [s].
Proof.
  intros Hd.
  unfold modify_search_api_settings, search_collect, try_except_return,
    search_inputs, save_settings_confirmation, search_save, cli_confirm,
    settings_store_load, settings_store_store, modify_root, PromptSession,
    print_formatted_text, bind, modify, gets, ret.
  cbn. rewrite Hd. cbn. by eexists _, _.
Qed.
End Basic.

(** ** What the terminal shows *)

Lemma emits_loop (P : event → Prop) text validator msg c pending :
  (∀ a, P (Prompted text c a)) → (∀ t, P (Printed t)) →
  ∀ w, completer (terminal w) = c →
       ∃ evs,
         trace (terminal (get_validated_input_loop text validator msg pending w).2)
         = trace (terminal w) ++ evs ∧ Forall P evs.
Proof.
  intros HP Hprint. induction pending as [|[e|value] rest IH]; intros w Hc.
  - exists []. by rewrite app_nil_r.
  - exists [Prompted text c (inl e)]. cbn. rewrite Hc. split; [done|].
    by constructor.
  - destruct (loop_step text validator msg value rest w) as (w' & lines & Ht & ->).
    assert (Hlines : Forall P (Prompted text c (inr value) :: (Printed <$> lines))).
    { constructor; [done|]. apply Forall_fmap, Forall_true. intros ?; apply Hprint. }
    destruct (accepts validator value); cbn [fst snd].
    + eexists. rewrite Ht; cbn. rewrite Hc. done.
    + destruct (IH w') as (evs & Htr & HF); [by rewrite Ht|].
      eexists (_ ++ evs). rewrite Htr, Ht; cbn. rewrite Hc, <- app_assoc.
      split; [done|]. by apply Forall_app.
Qed.

Lemma emits_still (P : event → Prop) {A} (m : M A) :
  (∀ w, trace (terminal (m w).2) = trace (terminal w)) → emits P m.
Proof. intros Hm w. exists []. by rewrite Hm, app_nil_r. Qed.

Lemma emits_bind (P : event → Prop) {A B} (m : M A) (k : A → M B) :
  emits P m → (∀ a, emits P (k a)) → emits P (bind m k).
Proof.
  intros Hm Hk w. unfold bind. destruct (Hm w) as (evs1 & Htr1 & HP1).
  destruct (m w) as [[a|e|] w1]; cbn in *; [|by exists evs1..].
  destruct (Hk a w1) as (evs2 & Htr2 & HP2).
  exists (evs1 ++ evs2). rewrite Htr2, Htr1, app_assoc. split; [done|].
  by apply Forall_app.
Qed.

Lemma emits_if (P : event → Prop) {A} (b : bool) (m1 m2 : M A) :
  emits P m1 → emits P m2 → emits P (if b then m1 else m2).
Proof. by destruct b. Qed.

Lemma emits_print (P : event → Prop) text :
  P (Printed text) → emits P (print_formatted_text text).
Proof. intros HP w. exists [Printed text]. split; [done|by constructor]. Qed.

Lemma emits_cli_confirm (P : event → Prop) question choices :
  (∀ a, P (Confirmed question choices a)) → emits P (cli_confirm question choices).
Proof.
  intros HP w. unfold cli_confirm.
  destruct (dialogs (terminal w)) as [|[e|i] rest].
  - exists []. by rewrite app_nil_r.
  - eexists [_]. split; [done|by constructor].
  - eexists [_]. split; [done|by constructor].
Qed.

Lemma emits_get_validated_input (P : event → Prop) text c validator msg :
  (∀ a, P (Prompted text c a)) → (∀ t, P (Printed t)) →
  emits P (get_validated_input text c validator msg).
Proof.
  intros HP Hprint w. unfold get_validated_input, bind, modify, gets.
  cbn [fst snd].
  exact (emits_loop P text validator msg c _ HP Hprint
           (set_terminal (set_completer c (terminal w)) w) eq_refl).
Qed.

Lemma emits_item (P : event → Prop) {A} (l : list A) i : emits P (item l i).
Proof. unfold item. by destruct (l !! i); apply emits_still. Qed.

Lemma emits_dict_item (P : event → Prop) {V} (d : dict V) k :
  emits P (dict_item d k).
Proof. unfold dict_item. by destruct (dict_get d k); apply emits_still. Qed.

Lemma emits_ret (P : event → Prop) {A} (a : A) : emits P (ret a).
Proof. by apply emits_still. Qed.

Lemma emits_try (P : event → Prop) {A} (m : M A) :
  emits P m → emits P (try_except_return m).
Proof.
  intros Hm w. unfold try_except_return. destruct (Hm w) as (evs & Htr & HP).
  destruct (m w) as [[a|e|] w1]; [| destruct (is_cancellation e) |];
    by exists evs.
Qed.


Section Offers.
Context `{Collaborators}.


Lemma item_first_nonempty (l : list string) :
  l ≠ [] → ∃ x, ∀ w : World, item l 0 w = (Done x, w).
Proof. destruct l as [|x l]; [done|]. by exists x. Qed.

Lemma choose_default_model_total provider provider_models :
  ∃ default_model, ∀ w,
    choose_default_model provider provider_models w = (Done default_model, w).
Proof.
  unfold choose_default_model.
  repeat match goal with
  | |- context [if bool_decide ?P && bool_decide (?l ≠ []) then _ else _] =>
      destruct (bool_decide P); cbn [andb];
      [case_bool_decide; [by apply item_first_nonempty|]|]
  end;
  (case_bool_decide; [by apply item_first_nonempty|by eexists]).
Qed.

Lemma model_and_key_run om p entry :
  dict_get om p = Some entry →
  ∃ default_model, ∀ w,
    model_and_key om p w
    = (let* model := select_model p (order_provider_models p (models entry))
                       default_model in
       (if bool_decide (p = "openhands")
        then print_formatted_text
               (nl +:+ "You can find your OpenHands LLM API Key in the <a href=" +:+
                dquote +:+ "https://app.all-hands.dev/settings/api-keys" +:+ dquote +:+
                ">API Keys</a> tab of OpenHands Cloud: https://app.all-hands.dev/settings/api-keys")
        else ret tt) >>
       let* api_key :=
         get_validated_input step3_prompt None None "API Key cannot be empty" in
       ret (p, model, api_key)) w.
Proof.
  intros Hentry.
  destruct (choose_default_model_total p
              (order_provider_models p (models entry))) as [dm Hdm].
  exists dm. intros w. unfold model_and_key, dict_item. rewrite Hentry.
  unfold bind at 1. cbn [ret]. unfold bind at 1. by rewrite Hdm.
Qed.

End Offers.



(** ** The answers a run of the basic flow records *)

Lemma removeprefix_app (p s : string) : removeprefix p (p +:+ s) = Some s.
Proof.
  induction p as [|a p IH]; simpl; [by destruct s|].
  by rewrite bool_decide_eq_true_2.
Qed.

Lemma omap_printed {B} (f : event → option B) (lines : list string) :
  (∀ t, f (Printed t) = None) → omap f (Printed <$> lines) = [].
Proof.
  intros Hf. induction lines as [|t lines IH]; [done|].
  cbn. by rewrite Hf.
Qed.

Lemma omap_step {A B} (f : A → option B) (x : A) (l : list A) :
  omap f (x :: l)
  = match f x with Some y => y :: omap f l | None => omap f l end.
Proof. reflexivity. Qed.

Lemma omap_none {A B} (f : A → option B) (l : list A) :
  Forall (λ x, f x = None) l → omap f l = [].
Proof. induction 1 as [|x l Hx _ IH]; [done|]. cbn. by rewrite Hx. Qed.

(** What a prompt loop records for a function [f] that reads the answers
    typed at its prompt: the values it rejected, then the value it
    returned. *)
Lemma loop_answers (f : event → option string) text validator msg pending :
  (∀ t, f (Printed t) = None) →
  (∀ c a, f (Prompted text c a)
          = match a with inr x => Some x | inl _ => None end) →
  ∀ w, ∃ evs rejected,
    trace (terminal (get_validated_input_loop text validator msg pending w).2)
    = trace (terminal w) ++ evs
    ∧ Forall (λ x, accepts validator x = false) rejected
    ∧ omap f evs
      = rejected
        ++ match (get_validated_input_loop text validator msg pending w).1 with
           | Done v => [v]
           | _ => []
           end.
Proof.
  intros Hprinted Hprompt.
  induction pending as [|[e|v] rest IH]; intros w.
  - exists [], []. by rewrite app_nil_r.
  - exists [Prompted text (completer (terminal w)) (inl e)], [].
    split_and!; [done|constructor|]. cbn. by rewrite Hprompt.
  - destruct (loop_step text validator msg v rest w) as (w' & lines & Ht & ->).
    destruct (accepts validator v) eqn:Hv; cbn [fst snd].
    + exists (Prompted text (completer (terminal w)) (inr v)
              :: (Printed <$> lines)), [].
      rewrite Ht. split_and!; [done|constructor|]. cbn.
      by rewrite Hprompt, omap_printed.
    + destruct (IH w') as (evs & rejected & Htr & Hrej & Hans).
      exists (Prompted text (completer (terminal w)) (inr v)
              :: (Printed <$> lines) ++ evs), (v :: rejected).
      rewrite Htr, Ht. cbn. split_and!.
      * by rewrite <- app_assoc.
      * by constructor.
      * rewrite Hprompt, omap_app, omap_printed by done. cbn. by rewrite Hans.
Qed.

Lemma get_validated_input_answers (f : event → option string)
    text c validator msg :
  (∀ t, f (Printed t) = None) →
  (∀ c a, f (Prompted text c a)
          = match a with inr x => Some x | inl _ => None end) →
  ∀ w, ∃ evs rejected,
    trace (terminal (get_validated_input text c validator msg w).2)
    = trace (terminal w) ++ evs
    ∧ Forall (λ x, accepts validator x = false) rejected
    ∧ omap f evs
      = rejected
        ++ match (get_validated_input text c validator msg w).1 with
           | Done v => [v]
           | _ => []
           end.
Proof.
  intros Hprinted Hprompt w.
  unfold get_validated_input, bind, modify, gets. cbn [fst snd].
  exact (loop_answers f text validator msg _ Hprinted Hprompt
           (set_terminal (set_completer c (terminal w)) w)).
Qed.

Lemma provider_answer_pick (choices : list string) (other : string) (i : nat) :
  provider_answer (Confirmed step1_question (choices ++ [other]) (inr i))
  = choices !! i.
Proof.
  unfold provider_answer. rewrite bool_decide_eq_true_2 by done.
  rewrite length_app. cbn [length andb].
  case_bool_decide as Hi.
  - apply lookup_app_l. lia.
  - symmetry. apply lookup_ge_None_2. lia.
Qed.

Lemma provider_answer_typed c a :
  provider_answer (Prompted step1_prompt c a)
  = match a with inr x => Some x | inl _ => None end.
Proof.
  unfold provider_answer. destruct a; [done|].
  by rewrite bool_decide_eq_true_2.
Qed.

Lemma model_answer_typed c a :
  model_answer (Prompted step2_prompt c a)
  = match a with inr x => Some x | inl _ => None end.
Proof.
  unfold model_answer. destruct a; [done|].
  by rewrite bool_decide_eq_true_2.
Qed.

Section Answers.
Context `{Collaborators}.

(** Step 1 records the providers it rejected and then the one it
    returns, which is a key of the registry. *)
Lemma select_provider_answers om vp pc p0 w :
  (∀ p, p ∈ vp → p ∈ keys om) →
  ∃ evs rejected,
    trace (terminal (select_provider om vp pc p0 w).2)
    = trace (terminal w) ++ evs
    ∧ Forall (λ x, x ∉ keys om) rejected
    ∧ omap provider_answer evs
      = rejected ++ match (select_provider om vp pc p0 w).1 with
                    | Done p => [p]
                    | _ => []
                    end
    ∧ match (select_provider om vp pc p0 w).1 with
      | Done p => p ∈ keys om
      | _ => True
      end.
Proof.
  intros Hvp.
  unfold select_provider, bind, print_formatted_text, modify, cli_confirm.
  cbn -[get_validated_input].
  destruct (dialogs (terminal w)) as [|[e|i] ds] eqn:Hd;
    cbn -[get_validated_input].
  - eexists [_], []. by split_and!.
  - eexists [_; _], []. rewrite <- app_assoc. by split_and!.
  - destruct (decide (i < length vp)) as [Hi|Hi].
    + rewrite bool_decide_eq_true_2 by done.
      destruct (lookup_lt_is_Some_2 vp i Hi) as [p Hp].
      assert (Hin : p ∈ keys om) by (by eapply Hvp, list_elem_of_lookup_2).
      unfold item. rewrite Hp. cbn.
      rewrite (bool_decide_eq_false_2 (p ∉ keys om)) by auto. cbn.
      eexists [_; _], []. rewrite <- app_assoc. split_and!; [done|done| |done].
      rewrite !omap_step, provider_answer_pick, Hp. done.
    + rewrite bool_decide_eq_false_2 by done.
      match goal with
      | |- context [get_validated_input ?t ?c ?v ?m ?W] =>
          destruct (get_validated_input_answers provider_answer t c v m
                      ltac:(done) provider_answer_typed W)
            as (evs & rejected & Htr & Hrej & Hans);
          pose proof (get_validated_input_returns_valid t c v m W) as Hvalid;
          destruct (get_validated_input t c v m W) as [[v'|e|] w1]
      end; cbn [fst snd] in *.
      * specialize (Hvalid v' eq_refl). cbn in Hvalid.
        apply bool_decide_eq_true in Hvalid.
        rewrite (bool_decide_eq_false_2 (v' ∉ keys om)) by auto. cbn.
        eexists (_ :: _ :: evs), rejected. rewrite Htr. cbn.
        rewrite <- !app_assoc. split_and!; [done| | |done].
        -- eapply Forall_impl; [exact Hrej|]. cbn. intros x Hx.
           by apply bool_decide_eq_false in Hx.
        -- rewrite provider_answer_pick, (lookup_ge_None_2 vp i) by lia.
           exact Hans.
      * eexists (_ :: _ :: evs), rejected. rewrite Htr. cbn.
        rewrite <- !app_assoc. split_and!; [done| | |done].
        -- eapply Forall_impl; [exact Hrej|]. cbn. intros x Hx.
           by apply bool_decide_eq_false in Hx.
        -- rewrite provider_answer_pick, (lookup_ge_None_2 vp i) by lia.
           exact Hans.
      * eexists (_ :: _ :: evs), rejected. rewrite Htr. cbn.
        rewrite <- !app_assoc. split_and!; [done| | |done].
        -- eapply Forall_impl; [exact Hrej|]. cbn. intros x Hx.
           by apply bool_decide_eq_false in Hx.
        -- rewrite provider_answer_pick, (lookup_ge_None_2 vp i) by lia.
           exact Hans.
Qed.

End Answers.

Ltac distinct_text :=
  let Heq := fresh in intros Heq; vm_compute in Heq; discriminate Heq.

Lemma model_answer_openhands choices a :
  model_answer (Confirmed step2_openhands_question choices a)
  = match a with inr j => choices !! j | inl _ => None end.
Proof.
  unfold model_answer. destruct a; [done|].
  by rewrite bool_decide_eq_true_2.
Qed.

Lemma model_answer_question default_model other a :
  model_answer (Confirmed step2_question ["Use " +:+ default_model; other] a)
  = match a with
    | inr c => if bool_decide (c = 1) then None else Some default_model
    | inl _ => None
    end.
Proof.
  unfold model_answer. destruct a as [e|c]; [done|].
  rewrite bool_decide_eq_false_2 by distinct_text.
  rewrite (bool_decide_eq_true_2 (step2_question = step2_question)) by done.
  case_bool_decide; [done|].
  cbn [head mbind option_bind]. apply (removeprefix_app "Use ").
Qed.

Lemma step1_event_no_step2 vp pc ev :
  step1_event vp pc ev →
  model_answer ev = None ∧ ∀ L, offers L ev.
Proof.
  intros [[t ->]|[[a ->]|[a ->]]].
  - split; [done|]. intros L. split; [by intros l|by intros c a].
  - split.
    + unfold model_answer. destruct a; [done|].
      by rewrite !bool_decide_eq_false_2 by distinct_text.
    + intros L. split; [|by intros c a'].
      intros l. unfold model_offer.
      by rewrite bool_decide_eq_false_2 by distinct_text.
  - split.
    + unfold model_answer. destruct a; [done|].
      by rewrite bool_decide_eq_false_2 by distinct_text.
    + intros L. split.
      * intros l. unfold model_offer.
        by rewrite bool_decide_eq_false_2 by distinct_text.
      * intros c a' Heq. vm_compute in Heq. discriminate Heq.
Qed.


Section Shapes.
Context `{Collaborators}.

Lemma step23_event_no_step1 p L ev :
  step23_event p L ev → provider_answer ev = None.
Proof.
  intros [[t ->]|[[_ [a ->]]|[[_ (dm & a & ->)]|[[_ [a ->]]|[a ->]]]]];
    [done|..]; unfold provider_answer; destruct a; try done;
    by rewrite bool_decide_eq_false_2 by distinct_text.
Qed.



Lemma emits_select_provider om vp pc p0 :
  emits (step1_event vp pc) (select_provider om vp pc p0).
Proof.
  unfold select_provider, step1_event.
  apply emits_bind; [apply emits_print; eauto|intros _].
  apply emits_bind; [apply emits_cli_confirm; eauto|intros i].
  apply emits_bind.
  - apply emits_if; [apply emits_item|].
    apply emits_get_validated_input; eauto.
  - intros p. apply emits_if; [|apply emits_ret].
    apply emits_if; [apply emits_ret|].
    unfold first_key. destruct (keys om); by apply emits_still.
Qed.

Lemma emits_key_step (P : event → Prop) (p model : string) :
  (∀ t, P (Printed t)) → (∀ a, P (Prompted step3_prompt None a)) →
  emits P
    ((if bool_decide (p = "openhands")
      then print_formatted_text
             (nl +:+ "You can find your OpenHands LLM API Key in the <a href=" +:+
              dquote +:+ "https://app.all-hands.dev/settings/api-keys" +:+ dquote +:+
              ">API Keys</a> tab of OpenHands Cloud: https://app.all-hands.dev/settings/api-keys")
      else ret tt) >>
     let* api_key :=
       get_validated_input step3_prompt None None "API Key cannot be empty" in
     ret (p, model, api_key)).
Proof.
  intros Hprinted Hkey.
  apply emits_bind; [|intros _; apply emits_bind; [|intros; apply emits_ret]].
  - apply emits_if; [by apply emits_print|apply emits_ret].
  - by apply emits_get_validated_input.
Qed.

Lemma emits_model_and_key_shape om p entry :
  dict_get om p = Some entry →
  emits (step23_event p (order_provider_models p (models entry)))
    (model_and_key om p).
Proof.
  intros Hentry w.
  destruct (model_and_key_run om p entry Hentry) as [dm ->].
  revert w. unfold step23_event.
  apply emits_bind; [|intros; apply emits_key_step; eauto 10].
  unfold select_model. case_bool_decide as Hp.
  - apply emits_bind; [|intros; apply emits_item].
    apply emits_cli_confirm. eauto 10.
  - apply emits_bind; [apply emits_print; eauto|intros _].
    apply emits_bind; [apply emits_cli_confirm; eauto 10|intros c].
    apply emits_if; [|apply emits_ret].
    apply emits_get_validated_input; eauto 10.
Qed.

(** Step 2 records the model names it rejected and then the model it
    returns. *)
Lemma select_model_answers p models default_model w :
  ∃ evs rejected,
    trace (terminal (select_model p models default_model w).2)
    = trace (terminal w) ++ evs
    ∧ omap model_answer evs
      = rejected ++ match (select_model p models default_model w).1 with
                    | Done m => [m]
                    | _ => []
                    end.
Proof.
  unfold select_model. case_bool_decide as Hp.
  - unfold bind, cli_confirm.
    destruct (dialogs (terminal w)) as [|[e|j] ds] eqn:Hd; cbn.
    + exists [], []. by rewrite app_nil_r.
    + eexists [_], []. by split.
    + unfold item.
      destruct (VERIFIED_OPENHANDS_MODELS !! j) as [m|] eqn:Hm; cbn.
      * eexists [_], []. split; [done|].
        by rewrite omap_step, model_answer_openhands, Hm.
      * eexists [_], []. split; [done|].
        by rewrite omap_step, model_answer_openhands, Hm.
  - unfold bind, print_formatted_text, modify, cli_confirm.
    cbn -[get_validated_input].
    destruct (dialogs (terminal w)) as [|[e|c] ds] eqn:Hd;
      cbn -[get_validated_input].
    + eexists [_], []. by split.
    + eexists [_; _], []. rewrite <- app_assoc. by split.
    + destruct (decide (c = 1)) as [->|Hc].
      * rewrite (bool_decide_eq_true_2 (1 = 1)) by done.
        match goal with
        | |- context [get_validated_input ?t ?cp ?v ?m ?W] =>
            destruct (get_validated_input_answers model_answer t cp v m
                        ltac:(done) model_answer_typed W)
              as (evs & rejected & Htr & _ & Hans);
            destruct (get_validated_input t cp v m W) as [r w1]
        end; cbn [fst snd] in *.
        eexists (_ :: _ :: evs), rejected. rewrite Htr. cbn.
        rewrite <- !app_assoc. split; [done|].
        change (model_answer (Printed ?t)) with (@None string).
        fold step2_question. rewrite model_answer_question.
        by rewrite (bool_decide_eq_true_2 (1 = 1)).
      * rewrite (bool_decide_eq_false_2 (c = 1)) by done. cbn.
        eexists [_; _], []. rewrite <- app_assoc. split; [done|].
        rewrite !omap_step.
        change (model_answer (Printed ?t)) with (@None string).
        fold step2_question. rewrite model_answer_question.
        by rewrite (bool_decide_eq_false_2 (c = 1)).
Qed.

(** Steps 2 and 3, when they return: the provider is the one given, and the
    last model answer recorded is the model returned. *)
Lemma model_and_key_answers om p w p' m k w1 :
  model_and_key om p w = (Done (p', m, k), w1) →
  p' = p
  ∧ ∃ evs, trace (terminal w1) = trace (terminal w) ++ evs
           ∧ selected_model evs = Some m.
Proof.
  intros Hrun.
  assert (∃ entry, dict_get om p = Some entry) as [entry Hentry].
  { unfold model_and_key in Hrun.
    apply bind_done_inv in Hrun as (entry & w2 & Hentry & _).
    apply dict_item_done_inv in Hentry. eauto. }
  destruct (model_and_key_run om p entry Hentry) as [dm Heq].
  rewrite Heq in Hrun. clear Heq.
  apply bind_done_inv in Hrun as (m' & w2 & Hselect & Hrun).
  destruct (select_model_answers p (order_provider_models p (models entry))
              dm w) as (evs1 & rejected & Htr1 & Hans).
  rewrite Hselect in Htr1, Hans. cbn [fst snd] in Htr1, Hans.
  destruct (emits_key_step (λ ev, model_answer ev = None) p m'
              ltac:(done) ltac:(by intros []) w2) as (evs2 & Htr2 & Hnone).
  rewrite Hrun in Htr2. cbn [snd] in Htr2.
  apply bind_done_inv in Hrun as (? & w3 & _ & Hrun).
  apply bind_done_inv in Hrun as (k' & w4 & _ & Hrun).
  injection Hrun as -> -> -> ->. split; [done|].
  exists (evs1 ++ evs2). rewrite Htr2, Htr1, app_assoc. split; [done|].
  unfold selected_model.
  rewrite omap_app, Hans, (omap_none _ _ Hnone), app_nil_r.
  apply last_snoc.
Qed.

End Shapes.

(** ** What the user selected, and what they were offered *)


Lemma not_save_last (evs : list event) (a : exn + nat) :
  ¬ Forall (λ ev, is_save_confirmation ev = false)
      (evs ++ [Confirmed save_question save_choices a]).
Proof.
  intros [_ Hlast]%Forall_app. apply Forall_inv in Hlast.
  cbn in Hlast. by apply bool_decide_eq_false in Hlast.
Qed.

Section SelectionsInFlow.
Context `{Collaborators}.

Lemma default_provider_world (pl : list string) (w : World) :
  ((if bool_decide ("anthropic" ∈ pl) then ret "anthropic" else item pl 0)
     w).2 = w.
Proof. case_bool_decide; [done|]. unfold item. by destruct (pl !! 0). Qed.



(** When the collection phase returns a provider and a model, they are
    the user's last answers at step 1 and at step 2. *)
Lemma basic_collect_selected (w : World) om p m k w1 :
  basic_collect w = (Done (om, Some (p, m, k)), w1) →
  ∃ evs,
    trace (terminal w1) = trace (terminal w) ++ evs
    ∧ selected_provider evs = Some p
    ∧ selected_model evs = Some m.
Proof.
  unfold basic_collect. intros Hrun.
  apply bind_done_inv in Hrun as (model_list & w0 & [= <- <-] & Hrun).
  apply bind_done_inv in Hrun as (? & w2 & [= _ <-] & Hrun).
  set (w0 := set_terminal _ w) in Hrun.
  change (trace (terminal w)) with (trace (terminal w0)).
  apply bind_done_inv in Hrun as (p0 & w3 & Hdp & Hrun).
  match type of Hdp with
  | (if bool_decide ("anthropic" ∈ ?pl) then _ else _) w0 = _ =>
      pose proof (default_provider_world pl w0) as Hw3
  end.
  rewrite Hdp in Hw3. cbn [snd] in Hw3. subst w3. clear Hdp.
  apply bind_done_inv in Hrun as (c & w4 & Htry & Hrun).
  injection Hrun as <- -> ->.
  apply try_except_return_some_inv in Htry.
  unfold basic_inputs in Htry.
  apply bind_done_inv in Htry as (p' & w5 & Hsp & Hmk).
  match type of Hsp with
  | select_provider ?om ?vp ?pl p0 w0 = _ =>
      assert (Hvp : ∀ q, q ∈ vp → q ∈ keys om)
        by (intros q Hq; by apply list_elem_of_filter in Hq as [? _]);
      destruct (select_provider_answers om vp pl p0 w0 Hvp)
        as (evs1 & rejected & Htr1 & _ & Hans & Hkey);
      destruct (emits_select_provider om vp pl p0 w0)
        as (evs1' & Htr1' & Hshape)
  end.
  rewrite Htr1 in Htr1'. apply app_inv_head in Htr1' as <-.
  rewrite Hsp in Htr1, Hans, Hkey. cbn [fst snd] in Htr1, Hans, Hkey.
  destruct (keys_dict_get _ p' Hkey) as [entry Hentry].
  destruct (emits_model_and_key_shape _ p' entry Hentry w5)
    as (evs2 & Htr2 & Hshape2).
  rewrite Hmk in Htr2. cbn [snd] in Htr2.
  apply model_and_key_answers in Hmk as (-> & evs2' & Htr2' & Hmodel).
  rewrite Htr2 in Htr2'. apply app_inv_head in Htr2' as <-.
  exists (evs1 ++ evs2). rewrite Htr2, Htr1, app_assoc. split; [done|].
  unfold selected_provider, selected_model in *. rewrite !omap_app.
  split.
  - rewrite Hans, (omap_none provider_answer evs2), app_nil_r.
    + apply last_snoc.
    + eapply Forall_impl; [exact Hshape2|]. apply step23_event_no_step1.
  - rewrite (omap_none model_answer evs1); [done|].
    eapply Forall_impl; [exact Hshape|]. intros ev Hev.
    by apply step1_event_no_step2 in Hev as [? _].
Qed.

(** A run that ends on the save confirmation answered with its first
    choice has collected a provider, a model and a key. *)
Lemma basic_flow_confirmed (w : World) (evs : list event) :
  trace (terminal (modify_llm_settings_basic w).2)
  = trace (terminal w) ++ evs
    ++ [Confirmed save_question save_choices (inr 0)] →
  ∃ om p m k w1 rest,
    basic_collect w = (Done (om, Some (p, m, k)), w1)
    ∧ trace (terminal w1) = trace (terminal w) ++ evs
    ∧ dialogs (terminal w1) = inr 0 :: rest.
Proof.
  intros Htr.
  destruct (collects_basic w) as [_ (evs_c & Htr_c & Hns & _)].
  unfold modify_llm_settings_basic, bind at 1 in Htr.
  assert (Hstop : trace (terminal (basic_collect w).2)
                  = trace (terminal w) ++ evs
                    ++ [Confirmed save_question save_choices (inr 0)] →
                  False).
  { rewrite Htr_c. intros Heq%app_inv_head. rewrite Heq in Hns.
    by apply not_save_last in Hns. }
  destruct (basic_collect w) as [[[om [[[p m] k]|]]|e|] w1] eqn:Hcollect;
    cbn [fst snd] in *; [|by destruct Hstop..].
  unfold save_settings_confirmation, cli_confirm, bind in Htr.
  cbn -[basic_save] in Htr.
  destruct (dialogs (terminal w1)) as [|[e|[|n]] rest] eqn:Hd;
    cbn -[basic_save] in Htr.
  - by destruct Hstop.
  - rewrite Htr_c, <- app_assoc in Htr. apply app_inv_head in Htr.
    by apply app_inj_tail in Htr as [_ ?].
  - rewrite (bool_decide_eq_true_2 (0 = 0)) in Htr by done. cbn [negb] in Htr.
    rewrite silent_basic_save in Htr. cbn in Htr.
    rewrite Htr_c, <- app_assoc in Htr. apply app_inv_head in Htr.
    apply app_inj_tail in Htr as [-> _].
    by exists om, p, m, k, w1, rest.
  - rewrite (bool_decide_eq_false_2 (S n = 0)) in Htr by done. cbn in Htr.
    rewrite Htr_c, <- app_assoc in Htr. apply app_inv_head in Htr.
    by apply app_inj_tail in Htr as [_ ?].
Qed.

(** C3.  When a run of [modify_llm_settings_basic] ends with the user
    answering the save confirmation by its first choice, the flow has
    returned, and the default LLM configuration's [model] and the stored
    settings' [llm_model] both equal the provider the user selected at step
    1, followed by the separator the organized registry gives for that
    provider, followed by the model the user selected at step 2. *)
Theorem basic_save_composes_model_name
    (w : World) (evs : list event) :
  trace (terminal (modify_llm_settings_basic w).2)
  = trace (terminal w) ++ evs
    ++ [Confirmed save_question save_choices (inr 0)] →
  default_llm_allocated w →
  ∃ provider chosen_model entry w' l c s,
    selected_provider evs = Some provider ∧
    selected_model evs = Some chosen_model ∧
    dict_get (organize_models_and_providers
                (get_supported_llm_models (memory w))) provider
    = Some entry ∧
    modify_llm_settings_basic w = (Done tt, w') ∧
    llms (config w') !! "llm" = Some l ∧
    llm_objects (memory w') !! l = Some c ∧
    model c = provider +:+ separator entry +:+ chosen_model ∧
    persisted (settings_store w') = Some s ∧
    stored (settings_store w') = stored (settings_store w) ++ [s] ∧
    Settings.llm_model s
    = Some (provider +:+ separator entry +:+ chosen_model).
Proof.
  intros Htr Hwf.
  destruct (basic_flow_confirmed w evs Htr)
    as (om & p & m & k & w1 & rest & Hcollect & Htr1 & Hd).
  destruct (basic_collect_selected w om p m k w1 Hcollect)
    as (evs' & Htr1' & Hprovider & Hmodel).
  rewrite Htr1 in Htr1'. apply app_inv_head in Htr1' as <-.
  destruct (basic_collect_inv _ _ _ _ _ _ Hcollect) as [-> [entry Hentry]].
  destruct (collects_basic w) as [[Hmem Hst] _]. rewrite Hcollect in *.
  cbn in Hmem, Hst.
  destruct (save_confirmed w1 rest Hd) as (w2 & Hsave & Hmem2 & Hst2).
  unfold modify_llm_settings_basic, bind at 1. rewrite Hcollect.
  unfold bind at 1. rewrite Hsave. cbn [negb].
  assert (Hwf2 : default_llm_allocated w2).
  { apply (default_llm_allocated_untouched w); [congruence|done]. }
  destruct (basic_save_run _ p m k entry w2 Hentry Hwf2)
    as (w' & l & c & s & Hrun & Hrest).
  rewrite Hst2, Hst in Hrest. destruct Hrest as (?&?&?&?&?&?).
  exists p, m, entry, w', l, c, s. by split_and!.
Qed.


End SelectionsInFlow.

(** ** The theorems at work *)

Lemma cancellation_aborts_without_saving_witness :
  (@modify_llm_settings_advanced example_collaborators cancelled_world).1 = Done tt
  ∧ memory (@modify_llm_settings_advanced example_collaborators cancelled_world).2
    = memory cancelled_world
  ∧ settings_store
      (@modify_llm_settings_advanced example_collaborators cancelled_world).2
    = settings_store cancelled_world.
Proof.
  apply (@cancellation_aborts_without_saving example_collaborators
           modify_llm_settings_advanced cancelled_world
           [Prompted "(Step 1/6) Custom Model (CTRL-c to cancel): " None
              (inr "my-model")]
           (Prompted "(Step 2/6) Base URL (CTRL-c to cancel): " None
              (inl KeyboardInterrupt))
           KeyboardInterrupt).
  - apply list_elem_of_further, list_elem_of_here.
  - vm_compute. reflexivity.
  - reflexivity.
  - reflexivity.
  - reflexivity.
Defined.

Lemma declining_save_leaves_everything_unchanged_witness :
  (@modify_search_api_settings example_collaborators declined_world).1 = Done tt
  ∧ memory (@modify_search_api_settings example_collaborators declined_world).2
    = memory declined_world
  ∧ settings_store
      (@modify_search_api_settings example_collaborators declined_world).2
    = settings_store declined_world.
Proof.
  apply (@declining_save_leaves_everything_unchanged example_collaborators
           modify_search_api_settings declined_world
           (removelast
              (trace (terminal
                        (@modify_search_api_settings example_collaborators
                           declined_world).2)))
           1).
  - apply list_elem_of_further, list_elem_of_further, list_elem_of_here.
  - vm_compute. reflexivity.
  - discriminate.
Defined.

Lemma basic_save_composes_model_name_witness :
  ∃ w' l c s,
    @modify_llm_settings_basic example_collaborators typed_selections_world
    = (Done tt, w')
    ∧ llms (config w') !! "llm" = Some l
    ∧ llm_objects (memory w') !! l = Some c
    ∧ model c = "openai/gpt-4o-mini"
    ∧ persisted (settings_store w') = Some s
    ∧ Settings.llm_model s = Some "openai/gpt-4o-mini".
Proof.
  destruct (@basic_save_composes_model_name example_collaborators
              typed_selections_world
              (removelast
                 (trace (terminal
                           (@modify_llm_settings_basic example_collaborators
                              typed_selections_world).2))))
    as (provider & chosen & entry & w' & l & c & s & Hprovider & Hchosen
        & Hentry & Hrun & Hl & Hc & Hmodel & Hs & _ & Hsm).
  - vm_compute. reflexivity.
  - intros l Hl. vm_compute in Hl. injection Hl as <-. by eexists.
  - vm_compute in Hprovider. injection Hprovider as <-.
    vm_compute in Hchosen. injection Hchosen as <-.
    vm_compute in Hentry. injection Hentry as <-.
    exists w', l, c, s.
    split; [exact Hrun|]. split; [exact Hl|]. split; [exact Hc|].
    split; [exact Hmodel|]. split; [exact Hs|exact Hsm].
Defined.

Lemma get_validated_input_reprompts_until_valid_witness :
  (get_validated_input step3_prompt None None "API Key cannot be empty"
     retyped_world).1 = Done "sk-1"
  ∧ keyboard (terminal
                (get_validated_input step3_prompt None None
                   "API Key cannot be empty" retyped_world).2)
    = [inr "later"]
  ∧ ∃ evs,
      trace (terminal
               (get_validated_input step3_prompt None None
                  "API Key cannot be empty" retyped_world).2)
      = trace (terminal retyped_world) ++ evs
      ∧ prompt_answers evs = [inr EmptyString; inr EmptyString; inr "sk-1"].
Proof.
  destruct (get_validated_input_reprompts_until_valid step3_prompt None None
              "API Key cannot be empty" retyped_world
              [EmptyString; EmptyString] [inr "sk-1"; inr "later"])
    as (_ & Hr & Hkb & Hevs).
  - reflexivity.
  - repeat constructor.
  - reflexivity.
  - split_and!; [exact Hr|exact Hkb|exact Hevs].
Defined.

Lemma default_profiles_created_on_miss_witness :
  "llm" ∈ dom (llms (config
                       (get_llm_config (mkLLMConfig "gpt-4o" None None)
                          "mistral" lonely_profile_world).2))
  ∧ "agent" ∈ dom (agents (config
                       (get_agent_config
                          (mkAgentConfig ConversationWindowCondenserConfig)
                          "mistral" lonely_profile_world).2))
  ∧ get_llm_config (mkLLMConfig "gpt-4o" None None) "gpt" lonely_profile_world
    = (Done 0, lonely_profile_world)
  ∧ get_agent_config (mkAgentConfig ConversationWindowCondenserConfig)
      "coder" lonely_profile_world
    = (Done 0, lonely_profile_world).
Proof.
  destruct (default_profiles_created_on_miss (mkLLMConfig "gpt-4o" None None)
              (mkAgentConfig ConversationWindowCondenserConfig)
              lonely_profile_world "mistral") as (Hllm & Hagent & _).
  destruct (default_profiles_created_on_miss (mkLLMConfig "gpt-4o" None None)
              (mkAgentConfig ConversationWindowCondenserConfig)
              lonely_profile_world "gpt") as (_ & _ & Hhit & _).
  destruct (default_profiles_created_on_miss (mkLLMConfig "gpt-4o" None None)
              (mkAgentConfig ConversationWindowCondenserConfig)
              lonely_profile_world "coder") as (_ & _ & _ & Hcoder).
  split; [apply Hllm; apply not_elem_of_dom; vm_compute; reflexivity|].
  split; [apply Hagent; apply not_elem_of_dom; vm_compute; reflexivity|].
  split; [apply Hhit|apply Hcoder]; vm_compute; reflexivity.
Defined.



Lemma get_llm_config_unknown_name_falls_back_witness :
  ∃ l w',
    get_llm_config (mkLLMConfig "claude-sonnet-4-20250514" None None) "mistral"
      lonely_profile_world = (Done l, w')
    ∧ llms (config w') !! "llm" = Some l
    ∧ "llm" ∈ dom (llms (config w'))
    ∧ ("mistral" ∉ dom (llms (config w')))
    ∧ l = 1
    ∧ llm_objects (memory w')
      = [mkLLMConfig "gpt-4o" None None;
         mkLLMConfig "claude-sonnet-4-20250514" None None].
Proof.
  destruct (get_llm_config_unknown_name_falls_back
              (mkLLMConfig "claude-sonnet-4-20250514" None None)
              lonely_profile_world "mistral")
    as (l & w' & Hrun & Hl & Hin & Hout & Hcase).
  - apply not_elem_of_dom. vm_compute. reflexivity.
  - discriminate.
  - assert (Hnone : llms (config lonely_profile_world) !! "llm" = None)
      by (vm_compute; reflexivity).
    rewrite Hnone in Hcase. destruct Hcase as (Hloc & _ & Hobjects).
    exists l, w'. by split_and!.
Defined.

Lemma removing_search_api_key_stores_none_witness :
  ∃ w' s,
    @modify_search_api_settings example_collaborators removing_world
    = (Done tt, w')
    ∧ search_api_key (config w') = None
    ∧ persisted (settings_store w') = Some s
    ∧ Settings.search_api_key s = None
    ∧ stored (settings_store w') = stored (settings_store removing_world) ++ [s].
Proof.
  apply (@removing_search_api_key_stores_none example_collaborators
           removing_world []).
  reflexivity.
Defined.

(** Counterexample to C5 as stated: a lookup under an existing name returns
    that profile and creates no default. *)
Lemma default_profile_not_created_on_hit :
  ¬ (∀ (d : LLMConfig) (a : AgentConfig) (w : World) (name : string),
       "llm" ∈ dom (llms (config (get_llm_config d name w).2))
       ∧ "agent" ∈ dom (agents (config (get_agent_config a name w).2))).
Proof.
  intros Hclaim.
  destruct (Hclaim (mkLLMConfig "m" None None)
              (mkAgentConfig ConversationWindowCondenserConfig)
              lonely_profile_world "gpt") as [Hllm _].
  apply elem_of_dom in Hllm as [l Hl]. vm_compute in Hl. discriminate.
Qed.


(** ** What a lookup leaves behind *)

Section LookupWorlds.
Variable LLMConfig_new : LLMConfig.
Variable AgentConfig_new : AgentConfig.

(** The world a lookup leaves: the profile it returns, and what it may have
    added to the profiles and to the log. *)
Lemma get_llm_config_world (w : World) (name : string) :
  ∃ l named objects,
    get_llm_config LLMConfig_new name w
    = (Done l,
       set_warnings
         (warnings w
          ++ if bool_decide ((name ∉ dom (llms (config w))) ∧ name ≠ "llm")
             then ["llm config group " +:+ name +:+
                   " not found, using default config"]
             else [])
         (with_llms named objects w))
    ∧ (named !! name = Some l ∨ named !! name = None ∧ named !! "llm" = Some l)
    ∧ (named = llms (config w) ∧ objects = llm_objects (memory w)
       ∨ llms (config w) !! name = None
         ∧ llms (config w) !! "llm" = None
         ∧ l = length (llm_objects (memory w))
         ∧ named = <["llm" := l]> (llms (config w))
         ∧ objects = llm_objects (memory w) ++ [LLMConfig_new]).
Proof.
  destruct (llms (config w) !! name) as [l|] eqn:Hn.
  - exists l, (llms (config w)), (llm_objects (memory w)).
    rewrite (get_llm_config_hit _ w name l Hn).
    rewrite bool_decide_eq_false_2.
    2: { intros [Hc _]. apply Hc, elem_of_dom. eauto. }
    split_and!; [|by left|by left].
    f_equal. destruct w as [[[] ??] ???]; cbn. by rewrite app_nil_r.
  - unfold get_llm_config, bind at 1, gets at 1. rewrite Hn.
    destruct (llms (config w) !! "llm") as [l0|] eqn:Hl.
    + exists l0, (llms (config w)), (llm_objects (memory w)).
      split_and!; [|by right|by left].
      assert (Hd : ∀ w0, llms (config w0) = llms (config w) →
                bool_decide ("llm" ∉ dom (llms (config w0))) = false).
      { intros w0 ->. apply bool_decide_eq_false. intros Hc.
        apply Hc, elem_of_dom. eauto. }
      assert (name ≠ "llm") by congruence.
      rewrite (bool_decide_eq_true_2 (name ≠ "llm")) by done.
      rewrite (bool_decide_eq_true_2 (_ ∧ _))
        by (split; [by apply not_elem_of_dom|done]).
      unfold bind, gets, logger_warning, modify, ret; cbn.
      rewrite Hd by done. cbn. unfold config in *; cbn. rewrite Hl.
      by destruct w as [[[] ??] ???].
    + assert (Hd : ∀ w0, llms (config w0) = llms (config w) →
                bool_decide ("llm" ∉ dom (llms (config w0))) = true).
      { intros w0 ->. apply bool_decide_eq_true. by apply not_elem_of_dom. }
      exists (length (llm_objects (memory w))),
        (<["llm" := length (llm_objects (memory w))]> (llms (config w))),
        (llm_objects (memory w) ++ [LLMConfig_new]).
      split_and!.
      * destruct (decide (name = "llm")) as [->|Hne].
        -- rewrite (bool_decide_eq_false_2 ("llm" ≠ "llm")) by auto.
           rewrite (bool_decide_eq_false_2 (_ ∧ _)) by (intros [_ ?]; auto).
           unfold bind, gets, modify_root, modify, new_llm_object, ret; cbn.
           rewrite Hd by done. cbn. unfold config in *; cbn.
           rewrite lookup_insert_eq. f_equal.
           destruct w as [[[] ??] ???]; cbn. by rewrite app_nil_r.
        -- rewrite (bool_decide_eq_true_2 (name ≠ "llm")) by done.
           rewrite (bool_decide_eq_true_2 (_ ∧ _))
             by (split; [by apply not_elem_of_dom|done]).
           unfold bind, gets, logger_warning, modify_root, modify,
             new_llm_object, ret; cbn.
           rewrite Hd by done. cbn. unfold config in *; cbn.
           rewrite lookup_insert_eq. done.
      * destruct (decide (name = "llm")) as [->|Hne].
        -- left. apply lookup_insert_eq.
        -- right. rewrite lookup_insert_ne by done. split; [done|].
           apply lookup_insert_eq.
      * right. done.
Qed.

Lemma get_agent_config_world (w : World) (name : string) :
  ∃ l named objects,
    get_agent_config AgentConfig_new name w
    = (Done l, with_agents named objects w)
    ∧ (named !! name = Some l ∨ named !! name = None ∧ named !! "agent" = Some l)
    ∧ (named = agents (config w) ∧ objects = agent_objects (memory w)
       ∨ agents (config w) !! name = None
         ∧ agents (config w) !! "agent" = None
         ∧ l = length (agent_objects (memory w))
         ∧ named = <["agent" := l]> (agents (config w))
         ∧ objects = agent_objects (memory w) ++ [AgentConfig_new]).
Proof.
  destruct (agents (config w) !! name) as [l|] eqn:Hn.
  - exists l, (agents (config w)), (agent_objects (memory w)).
    rewrite (get_agent_config_hit _ w name l Hn), with_agents_id.
    split_and!; [done|by left|by left].
  - unfold get_agent_config, bind at 1, gets at 1. rewrite Hn.
    destruct (agents (config w) !! "agent") as [l0|] eqn:Hl.
    + exists l0, (agents (config w)), (agent_objects (memory w)).
      rewrite with_agents_id.
      split_and!; [|by right|by left].
      rewrite bool_decide_eq_false_2
        by (intros Hc; apply Hc, elem_of_dom; eauto).
      unfold bind, gets, ret; cbn. by rewrite Hl.
    + exists (length (agent_objects (memory w))),
        (<["agent" := length (agent_objects (memory w))]> (agents (config w))),
        (agent_objects (memory w) ++ [AgentConfig_new]).
      split_and!.
      * rewrite bool_decide_eq_true_2 by (by apply not_elem_of_dom).
        unfold bind, gets, modify_root, modify, new_agent_object, ret; cbn.
        unfold config; cbn. by rewrite lookup_insert_eq.
      * destruct (decide (name = "agent")) as [->|Hne].
        -- left. apply lookup_insert_eq.
        -- right. rewrite lookup_insert_ne by done. split; [done|].
           apply lookup_insert_eq.
      * right. done.
Qed.

Lemma grown_profiles {A} (named0 named : gmap string nat) (objects0 objects : list A)
    (l : nat) (x : A) (key : string) :
  named = named0 ∧ objects = objects0
  ∨ named0 !! key = None ∧ named = <[key := l]> named0 ∧ objects = objects0 ++ [x] →
  named0 ⊆ named ∧ objects0 `prefix_of` objects.
Proof.
  intros [[-> ->]|(Hnone & -> & ->)]; [done|].
  split; [by apply insert_subseteq|by apply prefix_app_r].
Qed.

(** X1.  [get_llm_config] logs its warning exactly when the name is neither a
    profile nor [llm], and then logs that one line; [get_agent_config]
    never logs, whatever the name. *)
Theorem lookup_warns_exactly_on_unknown_name (w : World) (name : string) :
  warnings (get_llm_config LLMConfig_new name w).2
  = warnings w
    ++ (if bool_decide ((name ∉ dom (llms (config w))) ∧ name ≠ "llm")
        then ["llm config group " +:+ name +:+
              " not found, using default config"]
        else [])
  ∧ warnings (get_agent_config AgentConfig_new name w).2 = warnings w.
Proof.
  destruct (get_llm_config_world w name) as (l & named & objects & -> & _).
  destruct (get_agent_config_world w name) as (l' & named' & objects' & -> & _).
  done.
Qed.

(** X2.  A lookup always returns a profile and never removes or rebinds
    one: the profiles and objects it leaves extend the ones it found, the
    other kind of profile, the settings store and the terminal are what
    they were. *)
Theorem lookup_only_adds (w : World) (name : string) :
  (∃ l, (get_llm_config LLMConfig_new name w).1 = Done l)
  ∧ llms (config w) ⊆ llms (config (get_llm_config LLMConfig_new name w).2)
  ∧ llm_objects (memory w)
    `prefix_of` llm_objects (memory (get_llm_config LLMConfig_new name w).2)
  ∧ agents (config (get_llm_config LLMConfig_new name w).2) = agents (config w)
  ∧ agent_objects (memory (get_llm_config LLMConfig_new name w).2)
    = agent_objects (memory w)
  ∧ settings_store (get_llm_config LLMConfig_new name w).2 = settings_store w
  ∧ terminal (get_llm_config LLMConfig_new name w).2 = terminal w
  ∧ (∃ l, (get_agent_config AgentConfig_new name w).1 = Done l)
  ∧ agents (config w)
    ⊆ agents (config (get_agent_config AgentConfig_new name w).2)
  ∧ agent_objects (memory w)
    `prefix_of` agent_objects (memory (get_agent_config AgentConfig_new name w).2)
  ∧ llms (config (get_agent_config AgentConfig_new name w).2) = llms (config w)
  ∧ llm_objects (memory (get_agent_config AgentConfig_new name w).2)
    = llm_objects (memory w)
  ∧ settings_store (get_agent_config AgentConfig_new name w).2 = settings_store w
  ∧ terminal (get_agent_config AgentConfig_new name w).2 = terminal w.
Proof.
  destruct (get_llm_config_world w name)
    as (l & named & objects & -> & _ & Hgrow).
  destruct (get_agent_config_world w name)
    as (l' & named' & objects' & -> & _ & Hgrow').
  destruct (grown_profiles (llms (config w)) named (llm_objects (memory w))
              objects l LLMConfig_new "llm"); [tauto|].
  destruct (grown_profiles (agents (config w)) named' (agent_objects (memory w))
              objects' l' AgentConfig_new "agent"); [tauto|].
  split_and!; eauto.
Qed.

(** X3.  Looking a name up again returns the same profile and changes no
    profile: the default object is created at most once. *)
Theorem lookup_twice_is_stable (w : World) (name : string) :
  (get_llm_config LLMConfig_new name
     (get_llm_config LLMConfig_new name w).2).1
  = (get_llm_config LLMConfig_new name w).1
  ∧ memory (get_llm_config LLMConfig_new name
              (get_llm_config LLMConfig_new name w).2).2
    = memory (get_llm_config LLMConfig_new name w).2
  ∧ get_agent_config AgentConfig_new name
      (get_agent_config AgentConfig_new name w).2
    = ((get_agent_config AgentConfig_new name w).1,
       (get_agent_config AgentConfig_new name w).2).
Proof.
  split; [|split].
  1,2: destruct (get_llm_config_world w name)
         as (l & named & objects & -> & Hl & _); cbn [fst snd];
       match goal with |- context [get_llm_config _ _ ?W] => set (w1 := W) end;
       assert (Hnamed : llms (config w1) = named) by done;
       destruct Hl as [Hl|[Hn Hl]];
       [rewrite (get_llm_config_hit _ w1 name l) by (by rewrite Hnamed); done
       |destruct (get_llm_config_miss LLMConfig_new w1 name)
          as (l' & w' & -> & _ & _ & Hcase); [by rewrite Hnamed|];
        rewrite Hnamed, Hl in Hcase; by destruct Hcase as [-> ?]].
  destruct (get_agent_config_world w name)
    as (l & named & objects & -> & Hl & _); cbn [fst snd].
  match goal with |- context [get_agent_config _ _ ?W] => set (w1 := W) end.
  assert (Hnamed : agents (config w1) = named) by done.
  destruct Hl as [Hl|[Hn Hl]].
  - by rewrite (get_agent_config_hit _ w1 name l) by (by rewrite Hnamed).
  - destruct (get_agent_config_miss AgentConfig_new w1 name)
      as (l' & w' & -> & _ & _ & Hcase); [by rewrite Hnamed|].
    rewrite Hnamed, Hl in Hcase. by destruct Hcase as [-> ->].
Qed.
End LookupWorlds.

(** ** How the flows end *)

Section FlowEndings.
Context `{Collaborators}.

(** X4.  A wizard flow that has changed the configuration memory or the
    settings store has ended on the save confirmation answered with its
    first choice, [Yes, save]. *)
Theorem writes_only_after_yes (flow : M unit) (w : World) (evs : list event) :
  flow ∈ wizard_flows →
  trace (terminal (flow w).2) = trace (terminal w) ++ evs →
  ¬ untouched w (flow w).2 →
  ∃ evs0, evs = evs0 ++ [Confirmed save_question save_choices (inr 0)].
Proof.
  intros Hflow Htr Hchanged.
  destruct (wizard_cases flow w Hflow) as (evs' & Htr' & Hcases).
  rewrite Htr in Htr'. apply app_inv_head in Htr' as <-.
  destruct Hcases as [(Hun & _)|(evs0 & [e|[|n]] & -> & Hans)]; [done| |by eauto|];
    by destruct Hans.
Qed.

(** X5.  An exception raised by the save confirmation itself is outside
    the [try] of the flows: it is the outcome of the flow, cancellation or
    not, and nothing has been written. *)
Theorem cancelling_the_confirmation_escapes
    (flow : M unit) (w : World) (evs : list event) (e : exn) :
  flow ∈ wizard_flows →
  trace (terminal (flow w).2)
  = trace (terminal w) ++ evs ++ [Confirmed save_question save_choices (inl e)] →
  (flow w).1 = Raised e ∧ untouched w (flow w).2.
Proof.
  intros Hflow Htr.
  destruct (wizard_cases flow w Hflow) as (evs' & Htr' & Hcases).
  rewrite Htr in Htr'. apply app_inv_head in Htr' as <-.
  destruct Hcases as [(_ & Hns & _)|(evs0 & ans & Heq & Hans)].
  - apply Forall_app in Hns as [_ Hns]. apply Forall_inv in Hns.
    unfold is_save_confirmation in Hns.
    by apply bool_decide_eq_false in Hns.
  - apply app_inj_tail in Heq as [_ [= <-]]. done.
Qed.

(** X6.  In the search flow any answer other than the first two choices
    keeps the current setting: the flow returns at once, without the save
    confirmation, without reading the keyboard, and with nothing
    written. *)
Theorem keeping_the_search_key_asks_nothing_more
    (w : World) (n : nat) (rest : list (exn + nat)) :
  dialogs (terminal w) = inr n :: rest →
  (2 ≤ n)%nat →
  (modify_search_api_settings w).1 = Done tt
  ∧ untouched w (modify_search_api_settings w).2
  ∧ dialogs (terminal (modify_search_api_settings w).2) = rest
  ∧ keyboard (terminal (modify_search_api_settings w).2) = keyboard (terminal w).
Proof.
  intros Hd Hn.
  unfold modify_search_api_settings, search_collect, try_except_return,
    search_inputs, cli_confirm, PromptSession, print_formatted_text, bind,
    modify, gets, ret.
  cbn -[get_validated_input]. rewrite Hd. cbn -[get_validated_input].
  rewrite !bool_decide_eq_false_2 by lia. done.
Qed.

(** X7.  With no provider in the registry the basic flow raises
    [IndexError] when it picks its default provider, before anything is
    shown and with nothing written. *)
Theorem empty_registry_raises_IndexError (w : World) :
  organize_models_and_providers (get_supported_llm_models (memory w)) = [] →
  (modify_llm_settings_basic w).1 = Raised IndexError
  ∧ untouched w (modify_llm_settings_basic w).2
  ∧ trace (terminal (modify_llm_settings_basic w).2) = trace (terminal w).
Proof.
  intros Hempty.
  assert (Hnone : ∀ l : list string, filter (λ p, p ∈ keys (@nil (string * ProviderEntry))) l = []).
  { induction l as [|x l IH]; [done|]. rewrite filter_cons_False; [done|].
    by intros ?%elem_of_nil. }
  assert (Hrun : modify_llm_settings_basic w
                 = (Raised IndexError,
                    set_terminal (set_completer None (terminal w)) w)).
  { unfold modify_llm_settings_basic, basic_collect.
    unfold bind at 1. unfold bind at 1, gets at 1. rewrite Hempty, Hnone.
    unfold bind at 1, PromptSession, modify. unfold bind at 1.
    rewrite bool_decide_eq_false_2 by (by intros ?%elem_of_nil).
    reflexivity. }
  by rewrite Hrun.
Qed.
End FlowEndings.

(** ** The order of the models *)

Lemma filter_not_in_nil (l : list string) : filter (λ m, m ∉ (@nil string)) l = l.
Proof.
  induction l as [|x l IH]; [done|].
  rewrite filter_cons_True by (by intros ?%elem_of_nil). by rewrite IH.
Qed.

Section ModelOrdering.
Context `{Collaborators}.

Lemma order_provider_models_eq provider provider_models :
  order_provider_models provider provider_models
  = verified_models_of provider
    ++ filter (λ m, m ∉ verified_models_of provider) provider_models.
Proof.
  unfold order_provider_models, verified_models_of.
  repeat case_bool_decide; subst; try done.
  by rewrite filter_not_in_nil.
Qed.

(** X8.  Putting the verified models first loses and invents nothing: the
    ordered list has exactly the verified models and the registry's, it has
    no duplicates when the two lists have none, and for a provider without
    verified models it is the registry's list. *)
Theorem ordering_keeps_every_model provider provider_models :
  (∀ m, m ∈ order_provider_models provider provider_models
        ↔ m ∈ verified_models_of provider ∨ m ∈ provider_models)
  ∧ (NoDup (verified_models_of provider) → NoDup provider_models →
     NoDup (order_provider_models provider provider_models))
  ∧ (provider ∉ ["openai"; "anthropic"; "mistral"; "openhands"] →
     order_provider_models provider provider_models = provider_models).
Proof.
  rewrite order_provider_models_eq. split_and!.
  - intros m. rewrite elem_of_app, list_elem_of_filter.
    destruct (decide (m ∈ verified_models_of provider)); tauto.
  - intros Hv Hms. apply NoDup_app. split_and!; [done| |by apply NoDup_filter].
    intros m Hm [Hnot _]%list_elem_of_filter. done.
  - intros Hp. unfold verified_models_of.
    rewrite !bool_decide_eq_false_2; [by rewrite filter_not_in_nil|..];
      intros ->; apply Hp; rewrite !elem_of_cons; tauto.
Qed.

(** X9.  The default model is always the first model of the ordered list,
    and the built-in fallback name when that list is empty. *)
Theorem default_model_is_first_offered provider provider_models (w : World) :
  choose_default_model provider
    (order_provider_models provider provider_models) w
  = (Done (default "claude-sonnet-4-20250514"
             (head (order_provider_models provider provider_models))), w).
Proof.
  rewrite order_provider_models_eq.
  unfold choose_default_model, verified_models_of.
  repeat match goal with
  | |- context [if bool_decide (provider = ?s) && bool_decide (?l ≠ []) then _ else _] =>
      destruct (decide (provider = s)) as [->|];
      [rewrite (bool_decide_eq_true_2 (s = s)) by done; cbn [andb];
       destruct l as [|x l'] eqn:?;
       [rewrite (bool_decide_eq_false_2 ([] ≠ [])) by auto
       |rewrite bool_decide_eq_true_2 by done; cbn; reflexivity]
      |rewrite (bool_decide_eq_false_2 (provider = s)) by done; cbn [andb]]
  end.
  all: repeat (rewrite (bool_decide_eq_false_2 (_ = _)) by done);
    repeat (rewrite (bool_decide_eq_true_2 (_ = _)) by done);
    cbn [app andb]; rewrite ?filter_not_in_nil;
    destruct provider_models; cbn; try done.
Qed.
End ModelOrdering.

(** ** What a save leaves behind *)

Section SaveWorlds.
Context `{Collaborators}.

Lemma advanced_save_world cm bu ak ag ecm emc (w : World) :
  ∃ l named objects a named2 objects2,
    advanced_save cm bu ak ag ecm emc w
    = (Done tt,
       {| memory :=
            {| root :=
                 {| llms := <["llm" := l]> named;
                    agents := <["agent" := a]> named2;
                    default_agent := ag;
                    security := SecurityConfig.mk ecm;
                    file_store_path := file_store_path (config w);
                    search_api_key := search_api_key (config w);
                    enable_default_condenser :=
                      enable_default_condenser (config w) |};
               llm_objects :=
                 alter (set_api_key (Some (Secret ak))) l
                   (alter (set_base_url (Some bu)) l
                      (alter (set_model cm) l objects));
               agent_objects :=
                 alter (set_condenser (advanced_condenser emc l)) a objects2 |};
          settings_store :=
            {| persisted :=
                 Some (advanced_settings cm bu ak ag ecm emc
                         (default Settings_default
                            (persisted (settings_store w))));
               stored :=
                 stored (settings_store w)
                 ++ [advanced_settings cm bu ak ag ecm emc
                       (default Settings_default
                          (persisted (settings_store w)))] |};
          terminal := terminal w;
          warnings := warnings w ++ [] |})
    ∧ named !! "llm" = Some l
    ∧ (named = llms (config w) ∧ objects = llm_objects (memory w)
       ∨ llms (config w) !! "llm" = None
         ∧ l = length (llm_objects (memory w))
         ∧ named = <["llm" := l]> (llms (config w))
         ∧ objects = llm_objects (memory w) ++ [LLMConfig_default])
    ∧ (named2 !! ag = Some a ∨ named2 !! ag = None ∧ named2 !! "agent" = Some a)
    ∧ (named2 = agents (config w) ∧ objects2 = agent_objects (memory w)
       ∨ agents (config w) !! ag = None
         ∧ agents (config w) !! "agent" = None
         ∧ a = length (agent_objects (memory w))
         ∧ named2 = <["agent" := a]> (agents (config w))
         ∧ objects2 = agent_objects (memory w) ++ [AgentConfig_default]).
Proof.
  unfold advanced_save.
  destruct (get_llm_config_world LLMConfig_default w "llm")
    as (l & named & objects & Hrun & Hl & Hgrow).
  unfold bind at 1. rewrite Hrun. clear Hrun.
  assert (Hll : named !! "llm" = Some l) by (by destruct Hl as [?|[? ?]]).
  rewrite bool_decide_eq_false_2 by (intros [_ ?]; auto).
  unfold bind, assign_llm, set_llm_config, modify_root, modify, gets.
  cbn -[get_agent_config].
  match goal with
  | |- context [get_agent_config ?d ?n ?W] =>
      destruct (get_agent_config_world d W n)
        as (a & named2 & objects2 & -> & Ha & Hgrow2);
      cbn in Hgrow2
  end.
  assert (Hif : ∀ P Q : CondenserConfig,
            (if emc then assign_agent a (set_condenser P)
             else assign_agent a (set_condenser Q))
            = assign_agent a (set_condenser (if emc then P else Q)))
    by (by destruct emc).
  rewrite Hif. unfold assign_agent, set_agent_config, modify_root, modify,
    settings_store_load, settings_store_store, gets. cbn.
  exists l, named, objects, a, named2, objects2.
  split_and!; [reflexivity|done| |done|done].
  destruct Hgrow as [?|(_ & ? & ? & ? & ?)]; [by left|by right].
Qed.

Lemma basic_save_world om provider chosen ak entry (w : World) :
  dict_get om provider = Some entry →
  ∃ l named objects a named2 objects2,
    basic_save om provider chosen ak w
    = (Done tt,
       {| memory :=
            {| root :=
                 {| llms := <["llm" := l]> named;
                    agents := <[OH_DEFAULT_AGENT := a]> named2;
                    default_agent := OH_DEFAULT_AGENT;
                    security := security (config w);
                    file_store_path := file_store_path (config w);
                    search_api_key := search_api_key (config w);
                    enable_default_condenser := true |};
               llm_objects :=
                 alter (set_base_url None) l
                   (alter (set_api_key (Some (Secret ak))) l
                      (alter (set_model
                                (provider +:+ separator entry +:+ chosen))
                         l objects));
               agent_objects :=
                 alter (set_condenser
                          (LLMSummarizingCondenserConfig l None None))
                   a objects2 |};
          settings_store :=
            {| persisted :=
                 Some (basic_settings
                         (provider +:+ separator entry +:+ chosen) ak
                         (default Settings_default
                            (persisted (settings_store w))));
               stored :=
                 stored (settings_store w)
                 ++ [basic_settings
                       (provider +:+ separator entry +:+ chosen) ak
                       (default Settings_default
                          (persisted (settings_store w)))] |};
          terminal := terminal w;
          warnings := warnings w ++ [] |})
    ∧ named !! "llm" = Some l
    ∧ (named = llms (config w) ∧ objects = llm_objects (memory w)
       ∨ llms (config w) !! "llm" = None
         ∧ l = length (llm_objects (memory w))
         ∧ named = <["llm" := l]> (llms (config w))
         ∧ objects = llm_objects (memory w) ++ [LLMConfig_default])
    ∧ (named2 !! OH_DEFAULT_AGENT = Some a
       ∨ named2 !! OH_DEFAULT_AGENT = None ∧ named2 !! "agent" = Some a)
    ∧ (named2 = agents (config w) ∧ objects2 = agent_objects (memory w)
       ∨ agents (config w) !! OH_DEFAULT_AGENT = None
         ∧ agents (config w) !! "agent" = None
         ∧ a = length (agent_objects (memory w))
         ∧ named2 = <["agent" := a]> (agents (config w))
         ∧ objects2 = agent_objects (memory w) ++ [AgentConfig_default]).
Proof.
  intros Hentry. unfold basic_save.
  destruct (get_llm_config_world LLMConfig_default w "llm")
    as (l & named & objects & Hrun & Hl & Hgrow).
  unfold bind at 1. rewrite Hrun. clear Hrun.
  assert (Hll : named !! "llm" = Some l) by (by destruct Hl as [?|[? ?]]).
  rewrite bool_decide_eq_false_2 by (intros [_ ?]; auto).
  unfold dict_item. rewrite Hentry.
  unfold bind, assign_llm, set_llm_config, modify_root, modify, gets, ret.
  cbn -[get_agent_config].
  match goal with
  | |- context [get_agent_config ?d ?n ?W] =>
      destruct (get_agent_config_world d W n)
        as (a & named2 & objects2 & -> & Ha & Hgrow2);
      cbn in Hgrow2
  end.
  unfold assign_agent, set_agent_config, modify_root, modify,
    settings_store_load, settings_store_store, gets. cbn.
  exists l, named, objects, a, named2, objects2.
  split_and!; [reflexivity|done| |done|done].
  destruct Hgrow as [?|(_ & ? & ? & ? & ?)]; [by left|by right].
Qed.
End SaveWorlds.

(** ** The flows, up to the save *)

Section FlowCases.
Context `{Collaborators}.

Lemma untouched_trans (w w1 w2 : World) :
  untouched w w1 → untouched w1 w2 → untouched w w2.
Proof. unfold untouched. intros [<- <-] [-> ->]. done. Qed.

Lemma confirm_then_run (save : M unit) (w : World) :
  untouched w (confirm_then save w).2
  ∨ ∃ w1, untouched w w1 ∧ terminal w1 = log_event
              (Confirmed save_question save_choices (inr 0))
              (set_dialogs (tail (dialogs (terminal w))) (terminal w))
          ∧ confirm_then save w = save w1.
Proof.
  unfold confirm_then, save_settings_confirmation, cli_confirm, bind.
  destruct (dialogs (terminal w)) as [|[e|[|n]] rest] eqn:Hd; cbn;
    [by left..| |by left].
  right. eexists. split_and!; [| |reflexivity]; done.
Qed.

Lemma advanced_inputs_valid w cm bu ak ag ecm emc w1 :
  advanced_inputs w = (Done (cm, bu, ak, ag, ecm, emc), w1) →
  cm ≠ EmptyString ∧ bu ≠ EmptyString ∧ ak ≠ EmptyString ∧ ag ∈ list_agents.
Proof.
  unfold advanced_inputs. intros Hrun.
  apply bind_done_inv in Hrun as (cm' & w2 & Hcm & Hrun).
  apply bind_done_inv in Hrun as (bu' & w3 & Hbu & Hrun).
  apply bind_done_inv in Hrun as (ak' & w4 & Hak & Hrun).
  apply bind_done_inv in Hrun as (ag' & w5 & Hag & Hrun).
  apply bind_done_inv in Hrun as (c1 & w6 & _ & Hrun).
  apply bind_done_inv in Hrun as (c2 & w7 & _ & Hrun).
  injection Hrun as -> -> -> -> _ _ _.
  apply (f_equal fst) in Hcm, Hbu, Hak, Hag.
  apply get_validated_input_returns_valid in Hcm, Hbu, Hak, Hag.
  cbn in *. repeat case_bool_decide; done.
Qed.

Lemma advanced_flow_cases (w : World) :
  untouched w (modify_llm_settings_advanced w).2
  ∨ ∃ cm bu ak ag ecm emc w1,
      untouched w w1
      ∧ (cm ≠ EmptyString ∧ bu ≠ EmptyString ∧ ak ≠ EmptyString
         ∧ ag ∈ list_agents)
      ∧ modify_llm_settings_advanced w = advanced_save cm bu ak ag ecm emc w1.
Proof.
  unfold modify_llm_settings_advanced. unfold bind at 1.
  destruct (collects_advanced w) as [Hun _].
  destruct (advanced_collect w) as [[[[[[[[cm bu] ak] ag] ecm] emc]|]|e|] w1]
    eqn:Hcol; cbn [fst snd] in *; [|by left..].
  assert (Hvalid : cm ≠ EmptyString ∧ bu ≠ EmptyString ∧ ak ≠ EmptyString
                   ∧ ag ∈ list_agents).
  { unfold advanced_collect in Hcol.
    apply bind_done_inv in Hcol as (? & w0 & _ & Hcol).
    apply try_except_return_some_inv in Hcol.
    by eapply advanced_inputs_valid. }
  destruct (confirm_then_run (advanced_save cm bu ak ag ecm emc) w1)
    as [Hun'|(w2 & Hun' & _ & Hrun)].
  - left. by eapply untouched_trans.
  - right. exists cm, bu, ak, ag, ecm, emc, w2. split; [by eapply untouched_trans|].
    split; [done|]. unfold bind at 1. rewrite Hcol. exact Hrun.
Qed.

Lemma model_and_key_valid om p w p' m k w1 :
  model_and_key om p w = (Done (p', m, k), w1) →
  p' = p ∧ is_Some (dict_get om p) ∧ k ≠ EmptyString.
Proof.
  unfold model_and_key. intros Hrun.
  apply bind_done_inv in Hrun as (entry & w2 & Hentry & Hrun).
  apply bind_done_inv in Hrun as (dm & w3 & _ & Hrun).
  apply bind_done_inv in Hrun as (m' & w4 & _ & Hrun).
  apply bind_done_inv in Hrun as (? & w5 & _ & Hrun).
  apply bind_done_inv in Hrun as (k' & w6 & Hk & Hrun).
  injection Hrun as -> -> -> ->.
  apply dict_item_done_inv in Hentry.
  apply (f_equal fst) in Hk.
  apply get_validated_input_returns_valid in Hk. cbn in Hk.
  case_bool_decide; [|done]. eauto.
Qed.

Lemma basic_flow_cases (w : World) :
  untouched w (modify_llm_settings_basic w).2
  ∨ ∃ p m k entry w1,
      untouched w w1
      ∧ dict_get (organize_models_and_providers
                    (get_supported_llm_models (memory w))) p = Some entry
      ∧ k ≠ EmptyString
      ∧ modify_llm_settings_basic w
        = basic_save (organize_models_and_providers
                        (get_supported_llm_models (memory w))) p m k w1.
Proof.
  unfold modify_llm_settings_basic. unfold bind at 1.
  destruct (collects_basic w) as [Hun _].
  destruct (basic_collect w) as [[[om [[[p m] k]|]]|e|] w1]
    eqn:Hcol; cbn [fst snd] in *; [|by left..].
  assert (Hvalid : om = organize_models_and_providers
                          (get_supported_llm_models (memory w))
                   ∧ is_Some (dict_get om p) ∧ k ≠ EmptyString).
  { unfold basic_collect in Hcol.
    apply bind_done_inv in Hcol as (model_list & w0 & [= <- <-] & Hcol).
    apply bind_done_inv in Hcol as (? & w2 & _ & Hcol).
    apply bind_done_inv in Hcol as (p0 & w3 & _ & Hcol).
    apply bind_done_inv in Hcol as (c & w4 & Htry & Hcol).
    injection Hcol as <- -> ->. split; [done|].
    apply try_except_return_some_inv in Htry.
    unfold basic_inputs in Htry.
    apply bind_done_inv in Htry as (p1 & w5 & _ & Htry).
    by apply model_and_key_valid in Htry as (-> & ? & ?). }
  destruct Hvalid as (-> & [entry Hentry] & Hk).
  match goal with
  | |- context [basic_save ?om p m k] =>
      destruct (confirm_then_run (basic_save om p m k) w1)
        as [Hun'|(w2 & Hun' & _ & Hrun)]
  end.
  - left. by eapply untouched_trans.
  - right. exists p, m, k, entry, w2. split; [by eapply untouched_trans|].
    split; [done|]. split; [done|]. unfold bind at 1. rewrite Hcol. exact Hrun.
Qed.

Lemma search_inputs_valid w k w1 :
  search_inputs w = (Done (Some k), w1) →
  k = EmptyString ∨ (strip k ≠ EmptyString ∧ startswith k "tvly-" = true).
Proof.
  unfold search_inputs. intros Hrun.
  apply bind_done_inv in Hrun as (? & w2 & _ & Hrun).
  apply bind_done_inv in Hrun as (? & w3 & _ & Hrun).
  apply bind_done_inv in Hrun as (? & w4 & _ & Hrun).
  apply bind_done_inv in Hrun as (cur & w5 & _ & Hrun).
  apply bind_done_inv in Hrun as (? & w6 & _ & Hrun).
  apply bind_done_inv in Hrun as (? & w7 & _ & Hrun).
  apply bind_done_inv in Hrun as (mk & w8 & _ & Hrun).
  case_bool_decide.
  - apply bind_done_inv in Hrun as (k' & w9 & Hk & Hrun).
    injection Hrun as -> ->. right.
    apply (f_equal fst) in Hk.
    apply get_validated_input_returns_valid in Hk. cbn in Hk.
    by case_bool_decide.
  - case_bool_decide; [|done]. injection Hrun as <- _. by left.
Qed.

Lemma search_flow_cases (w : World) :
  untouched w (modify_search_api_settings w).2
  ∨ ∃ k w1,
      untouched w w1
      ∧ (k = EmptyString
         ∨ (strip k ≠ EmptyString ∧ startswith k "tvly-" = true))
      ∧ modify_search_api_settings w = search_save k w1.
Proof.
  unfold modify_search_api_settings. unfold bind at 1.
  destruct (collects_search w) as [Hun _].
  destruct (search_collect w) as [[[[k|]|]|e|] w1]
    eqn:Hcol; cbn [fst snd] in *; [|by left..].
  assert (Hvalid : k = EmptyString
                   ∨ (strip k ≠ EmptyString ∧ startswith k "tvly-" = true)).
  { unfold search_collect in Hcol.
    apply bind_done_inv in Hcol as (? & w0 & _ & Hcol).
    apply try_except_return_some_inv in Hcol.
    by eapply search_inputs_valid. }
  destruct (confirm_then_run (search_save k) w1)
    as [Hun'|(w2 & Hun' & _ & Hrun)].
  - left. by eapply untouched_trans.
  - right. exists k, w2. split; [by eapply untouched_trans|].
    split; [done|]. unfold bind at 1. rewrite Hcol. exact Hrun.
Qed.

Lemma search_save_world k (w : World) :
  search_save k w
  = (Done tt,
     {| memory :=
          {| root := set_search_api_key (secret_or_none k) (config w);
             llm_objects := llm_objects (memory w);
             agent_objects := agent_objects (memory w) |};
        settings_store :=
          {| persisted :=
               Some (Settings.set_search_api_key (secret_or_none k)
                       (default Settings_default
                          (persisted (settings_store w))));
             stored :=
               stored (settings_store w)
               ++ [Settings.set_search_api_key (secret_or_none k)
                     (default Settings_default
                        (persisted (settings_store w)))] |};
        terminal := terminal w;
        warnings := warnings w |}).
Proof. reflexivity. Qed.

End FlowCases.

(** ** What the flows store *)

Lemma untouched_not_stored (w w' : World) (s : Settings.t) :
  untouched w w' →
  stored (settings_store w') = stored (settings_store w) ++ [s] → False.
Proof.
  intros [_ ->] Heq. apply (f_equal length) in Heq.
  rewrite length_app in Heq. cbn in Heq. lia.
Qed.

Section StoredRecords.
Context `{Collaborators}.

(** X12.  A wizard flow stores at most one settings record per run, and
    when it stores one the store's current record is that one. *)
Theorem flows_store_at_most_once (flow : M unit) (w : World) :
  flow ∈ wizard_flows →
  settings_store (flow w).2 = settings_store w
  ∨ ∃ s, settings_store (flow w).2
         = {| persisted := Some s;
              stored := stored (settings_store w) ++ [s] |}.
Proof.
  unfold wizard_flows. rewrite !elem_of_cons, elem_of_nil.
  intros [->|[->|[->|[]]]].
  - destruct (basic_flow_cases w)
      as [[_ ?]|(p & m & k & entry & w1 & [_ Hst] & Hentry & _ & ->)];
      [by left|right].
    destruct (basic_save_world _ p m k entry w1 Hentry)
      as (l & named & objects & a & named2 & objects2 & -> & _).
    cbn. rewrite Hst. by eexists.
  - destruct (advanced_flow_cases w)
      as [[_ ?]|(cm & bu & ak & ag & ecm & emc & w1 & [_ Hst] & _ & ->)];
      [by left|right].
    destruct (advanced_save_world cm bu ak ag ecm emc w1)
      as (l & named & objects & a & named2 & objects2 & -> & _).
    cbn. rewrite Hst. by eexists.
  - destruct (search_flow_cases w) as [[_ ?]|(k & w1 & [_ Hst] & _ & ->)];
      [by left|right].
    rewrite search_save_world. cbn. rewrite Hst. by eexists.
Qed.

(** X13.  Whatever the advanced flow stores has passed validation: the
    stored model, base URL and API key are non-empty, the stored agent is a
    registered one and is also the configuration's default agent, and the
    stored confirmation mode is the one in the configuration. *)
Theorem advanced_flow_stores_validated_inputs (w : World) (s : Settings.t) :
  stored (settings_store (modify_llm_settings_advanced w).2)
  = stored (settings_store w) ++ [s] →
  ∃ cm bu ak ag,
    Settings.llm_model s = Some cm ∧ cm ≠ EmptyString
    ∧ Settings.llm_base_url s = Some bu ∧ bu ≠ EmptyString
    ∧ Settings.llm_api_key s = Some (Secret ak) ∧ ak ≠ EmptyString
    ∧ Settings.agent s = Some ag ∧ ag ∈ list_agents
    ∧ default_agent (config (modify_llm_settings_advanced w).2) = ag
    ∧ Settings.confirmation_mode s
      = Some (SecurityConfig.confirmation_mode
                (security (config (modify_llm_settings_advanced w).2))).
Proof.
  intros Hstored.
  destruct (advanced_flow_cases w)
    as [Hun|(cm & bu & ak & ag & ecm & emc & w1 & [_ Hst]
             & (Hcm & Hbu & Hak & Hag) & Hrun)].
  { destruct (untouched_not_stored _ _ _ Hun Hstored). }
  rewrite Hrun in *. clear Hrun.
  destruct (advanced_save_world cm bu ak ag ecm emc w1)
    as (l & named & objects & a & named2 & objects2 & Hrun & _).
  rewrite Hrun in *. cbn in Hstored |- *.
  rewrite Hst in Hstored. apply app_inv_head in Hstored as [= <-].
  exists cm, bu, ak, ag. by split_and!.
Qed.

(** X14.  Whatever the basic flow stores names a provider of the registry
    and a non-empty API key, clears the base URL, and selects the default
    agent with the default condenser, in the store and in the
    configuration. *)
Theorem basic_flow_stores_known_provider (w : World) (s : Settings.t) :
  stored (settings_store (modify_llm_settings_basic w).2)
  = stored (settings_store w) ++ [s] →
  ∃ p entry m k,
    dict_get (organize_models_and_providers
                (get_supported_llm_models (memory w))) p = Some entry
    ∧ Settings.llm_model s = Some (p +:+ separator entry +:+ m)
    ∧ Settings.llm_api_key s = Some (Secret k) ∧ k ≠ EmptyString
    ∧ Settings.llm_base_url s = None
    ∧ Settings.agent s = Some OH_DEFAULT_AGENT
    ∧ default_agent (config (modify_llm_settings_basic w).2) = OH_DEFAULT_AGENT
    ∧ Settings.enable_default_condenser s = true
    ∧ enable_default_condenser (config (modify_llm_settings_basic w).2) = true.
Proof.
  intros Hstored.
  destruct (basic_flow_cases w)
    as [Hun|(p & m & k & entry & w1 & [_ Hst] & Hentry & Hk & Hrun)].
  { destruct (untouched_not_stored _ _ _ Hun Hstored). }
  rewrite Hrun in *. clear Hrun.
  destruct (basic_save_world _ p m k entry w1 Hentry)
    as (l & named & objects & a & named2 & objects2 & Hrun & _).
  rewrite Hrun in *. cbn in Hstored |- *.
  rewrite Hst in Hstored. apply app_inv_head in Hstored as [= <-].
  exists p, entry, m, k. by split_and!.
Qed.

(** X15.  Whatever the search flow stores is either no key or a key that
    starts with [tvly-]; the configuration holds the same key, every other
    stored setting is the one loaded, and nothing else of the configuration
    memory changes. *)
Theorem search_flow_changes_only_the_search_key (w : World) (s : Settings.t) :
  stored (settings_store (modify_search_api_settings w).2)
  = stored (settings_store w) ++ [s] →
  (Settings.search_api_key s = None
   ∨ ∃ k, Settings.search_api_key s = Some (Secret k)
          ∧ startswith k "tvly-" = true)
  ∧ search_api_key (config (modify_search_api_settings w).2)
    = Settings.search_api_key s
  ∧ s = Settings.set_search_api_key (Settings.search_api_key s)
          (default Settings_default (persisted (settings_store w)))
  ∧ memory (modify_search_api_settings w).2
    = set_root (set_search_api_key (Settings.search_api_key s) (config w))
        (memory w).
Proof.
  intros Hstored.
  destruct (search_flow_cases w) as [Hun|(k & w1 & [Hmem Hst] & Hk & Hrun)].
  { destruct (untouched_not_stored _ _ _ Hun Hstored). }
  rewrite Hrun in *. clear Hrun.
  rewrite search_save_world in *. cbn in Hstored |- *.
  rewrite Hst in Hstored. apply app_inv_head in Hstored as [= <-].
  cbn. unfold config. rewrite Hmem, ?Hst. split_and!; [|done..].
  destruct Hk as [->|[Hne Hs]]; [by left|right].
  exists k. unfold secret_or_none.
  rewrite bool_decide_eq_false_2; [done|]. by intros ->.
Qed.

(** X16.  Neither LLM flow changes the search API key or the file store
    path of the configuration, and the record the store holds afterwards
    has the search API key of the record that was loaded. *)
Theorem llm_flows_keep_the_search_key (flow : M unit) (w : World) :
  flow ∈ [modify_llm_settings_basic; modify_llm_settings_advanced] →
  search_api_key (config (flow w).2) = search_api_key (config w)
  ∧ file_store_path (config (flow w).2) = file_store_path (config w)
  ∧ ∀ s, persisted (settings_store (flow w).2) = Some s →
         Settings.search_api_key s
         = Settings.search_api_key
             (default Settings_default (persisted (settings_store w))).
Proof.
  rewrite !elem_of_cons, elem_of_nil.
  intros [->|[->|[]]].
  - destruct (basic_flow_cases w)
      as [[Hmem Hst]|(p & m & k & entry & w1 & [Hmem Hst] & Hentry & _ & ->)].
    { unfold config. rewrite Hmem, Hst. split_and!; [done..|].
      by intros s ->. }
    destruct (basic_save_world _ p m k entry w1 Hentry)
      as (l & named & objects & a & named2 & objects2 & -> & _).
    cbn. unfold config. rewrite Hmem, Hst. split_and!; [done..|].
    by intros s [= <-].
  - destruct (advanced_flow_cases w)
      as [[Hmem Hst]|(cm & bu & ak & ag & ecm & emc & w1 & [Hmem Hst] & _ & ->)].
    { unfold config. rewrite Hmem, Hst. split_and!; [done..|].
      by intros s ->. }
    destruct (advanced_save_world cm bu ak ag ecm emc w1)
      as (l & named & objects & a & named2 & objects2 & -> & _).
    cbn. unfold config. rewrite Hmem, Hst. split_and!; [done..|].
    by intros s [= <-].
Qed.

End StoredRecords.

(** ** References stay live *)

Lemma live_insert {A} (named : gmap string loc) (objects : list A) name l :
  live named objects → is_Some (objects !! l) →
  live (<[name := l]> named) objects.
Proof.
  intros Hlive Hl name' l'. destruct (decide (name = name')) as [<-|Hne].
  - rewrite lookup_insert_eq. by intros [= <-].
  - rewrite lookup_insert_ne by done. apply Hlive.
Qed.

Lemma live_alter {A} (named : gmap string loc) (objects : list A) f i :
  live named objects → live named (alter f i objects).
Proof.
  intros Hlive name l Hl. apply lookup_lt_is_Some. rewrite length_alter.
  apply lookup_lt_is_Some. by eapply Hlive.
Qed.

Lemma live_grown {A} (old named : gmap string loc) (old_objects objects : list A)
    name l new :
  live old old_objects →
  (named = old ∧ objects = old_objects
   ∨ l = length old_objects ∧ named = <[name := l]> old
     ∧ objects = old_objects ++ [new]) →
  live named objects.
Proof.
  intros Hlive [[-> ->]|(-> & -> & ->)]; [done|].
  apply live_insert.
  - intros name' l' Hl. apply lookup_lt_is_Some. rewrite length_app. cbn.
    apply Hlive, lookup_lt_is_Some in Hl. lia.
  - apply lookup_lt_is_Some. rewrite length_app. cbn. lia.
Qed.

Section LiveReferences.
Context `{Collaborators}.

Lemma advanced_save_allocated cm bu ak ag ecm emc (w : World) :
  profiles_allocated w →
  profiles_allocated (advanced_save cm bu ak ag ecm emc w).2.
Proof.
  intros [Hllm Hagent].
  destruct (advanced_save_world cm bu ak ag ecm emc w)
    as (l & named & objects & a & named2 & objects2 & -> & Hl & Hgrow
        & Ha & Hgrow2).
  assert (Hlive : live named objects).
  { eapply (live_grown _ _ _ _ "llm" l); [exact Hllm|].
    destruct Hgrow as [?|(_ & ? & ? & ?)]; [by left|by right]. }
  assert (Hlive2 : live named2 objects2).
  { eapply (live_grown _ _ _ _ "agent" a); [exact Hagent|].
    destruct Hgrow2 as [?|(_ & _ & ? & ? & ?)]; [by left|by right]. }
  split; cbn.
  - do 3 apply live_alter. apply live_insert; [done|by eapply Hlive].
  - apply live_alter. apply live_insert; [done|].
    destruct Ha as [?|[_ ?]]; by eapply Hlive2.
Qed.

Lemma basic_save_allocated om p m k (w : World) :
  profiles_allocated w → profiles_allocated (basic_save om p m k w).2.
Proof.
  intros [Hllm Hagent].
  destruct (dict_get om p) as [entry|] eqn:Hentry.
  - destruct (basic_save_world om p m k entry w Hentry)
      as (l & named & objects & a & named2 & objects2 & -> & Hl & Hgrow
          & Ha & Hgrow2).
    assert (Hlive : live named objects).
    { eapply (live_grown _ _ _ _ "llm" l); [exact Hllm|].
      destruct Hgrow as [?|(_ & ? & ? & ?)]; [by left|by right]. }
    assert (Hlive2 : live named2 objects2).
    { eapply (live_grown _ _ _ _ "agent" a); [exact Hagent|].
      destruct Hgrow2 as [?|(_ & _ & ? & ? & ?)]; [by left|by right]. }
    split; cbn.
    + do 3 apply live_alter. apply live_insert; [done|by eapply Hlive].
    + apply live_alter. apply live_insert; [done|].
      destruct Ha as [?|[_ ?]]; by eapply Hlive2.
  - unfold basic_save.
    destruct (get_llm_config_world LLMConfig_default w "llm")
      as (l & named & objects & Hrun & Hl & Hgrow).
    unfold bind at 1. rewrite Hrun. unfold dict_item. rewrite Hentry.
    unfold bind, raise. cbn. split; cbn; [|exact Hagent].
    eapply (live_grown _ _ _ _ "llm" l); [exact Hllm|].
    destruct Hgrow as [?|(_ & _ & ? & ? & ?)]; [by left|by right].
Qed.

(** X17.  The three wizard flows keep every profile name of the
    configuration referring to an object. *)
Theorem flows_keep_references_live (flow : M unit) (w : World) :
  flow ∈ wizard_flows →
  profiles_allocated w → profiles_allocated (flow w).2.
Proof.
  unfold wizard_flows. rewrite !elem_of_cons, elem_of_nil.
  assert (Hsame : ∀ w', untouched w w' → profiles_allocated w →
                        profiles_allocated w').
  { intros w' [Hmem _]. unfold profiles_allocated, config. by rewrite Hmem. }
  intros [->|[->|[->|[]]]] Hw.
  - destruct (basic_flow_cases w)
      as [Hun|(p & m & k & entry & w1 & Hun & _ & _ & ->)]; [by apply Hsame|].
    apply basic_save_allocated. by apply Hsame.
  - destruct (advanced_flow_cases w)
      as [Hun|(cm & bu & ak & ag & ecm & emc & w1 & Hun & _ & ->)];
      [by apply Hsame|].
    apply advanced_save_allocated. by apply Hsame.
  - destruct (search_flow_cases w) as [Hun|(k & w1 & Hun & _ & ->)];
      [by apply Hsame|].
    rewrite search_save_world. apply Hsame in Hun; [|done].
    exact Hun.
Qed.

(** X18.  After the advanced flow has stored, the profile named [agent] is
    the object of the entered agent when that agent had a profile, no other
    agent name has moved, the object's condenser is the pipeline over the
    default LLM object or the plain window according to the stored choice,
    and the configuration's own [enable_default_condenser] is what it
    was. *)
Theorem advanced_flow_rebinds_the_agent_profile (w : World) (s : Settings.t) :
  profiles_allocated w →
  stored (settings_store (modify_llm_settings_advanced w).2)
  = stored (settings_store w) ++ [s] →
  let w' := (modify_llm_settings_advanced w).2 in
  ∃ l a c,
    llms (config w') !! "llm" = Some l
    ∧ agents (config w') !! "agent" = Some a
    ∧ agent_objects (memory w') !! a = Some c
    ∧ condenser c
      = (if Settings.enable_default_condenser s
         then CondenserPipelineConfig
                [ConversationWindowCondenserConfig;
                 LLMSummarizingCondenserConfig l (Some 4) (Some 120)]
         else ConversationWindowCondenserConfig)
    ∧ (∀ a0, agents (config w) !! default_agent (config w') = Some a0 → a = a0)
    ∧ (∀ name, name ≠ "agent" →
               agents (config w') !! name = agents (config w) !! name)
    ∧ enable_default_condenser (config w') = enable_default_condenser (config w).
Proof.
  intros Hw Hstored w'. subst w'.
  destruct (advanced_flow_cases w)
    as [Hun|(cm & bu & ak & ag & ecm & emc & w1 & [Hmem Hst] & _ & Hrun)].
  { destruct (untouched_not_stored _ _ _ Hun Hstored). }
  rewrite Hrun in *. clear Hrun.
  assert (Hw1 : profiles_allocated w1).
  { unfold profiles_allocated, config. by rewrite Hmem. }
  destruct Hw1 as [Hllm Hagent].
  destruct (advanced_save_world cm bu ak ag ecm emc w1)
    as (l & named & objects & a & named2 & objects2 & Hrun & Hl & Hgrow
        & Ha & Hgrow2).
  rewrite Hrun in *. clear Hrun. cbn in Hstored |- *.
  rewrite Hst in Hstored. apply app_inv_head in Hstored as [= <-]. cbn.
  assert (Hlive2 : live named2 objects2).
  { eapply (live_grown _ _ _ _ "agent" a); [exact Hagent|].
    destruct Hgrow2 as [?|(_ & _ & ? & ? & ?)]; [by left|by right]. }
  assert (is_Some (objects2 !! a)) as [c Hc]
    by (destruct Ha as [?|[_ ?]]; by eapply Hlive2).
  exists l, a, (set_condenser (advanced_condenser emc l) c).
  unfold config in *. rewrite Hmem in *.
  split_and!.
  - by rewrite lookup_insert_eq.
  - by rewrite lookup_insert_eq.
  - rewrite list_lookup_alter, decide_True by done. by rewrite Hc.
  - done.
  - intros a0 Ha0.
    destruct Hgrow2 as [[-> _]|(Hnone & _)]; [|by rewrite Hnone in Ha0].
    destruct Ha as [Ha|[Ha _]]; by simplify_eq.
  - intros name Hname. rewrite lookup_insert_ne by done.
    destruct Hgrow2 as [[-> _]|(_ & _ & _ & -> & _)]; [done|].
    by rewrite lookup_insert_ne.
  - done.
Qed.

(** X19.  After the basic flow has stored, the default agent's profile
    holds an LLM-summarizing condenser over the very object that the
    profile [llm] names, and that object holds the stored model, API key
    and base URL. *)
Theorem basic_flow_condenser_shares_the_llm (w : World) (s : Settings.t) :
  profiles_allocated w →
  stored (settings_store (modify_llm_settings_basic w).2)
  = stored (settings_store w) ++ [s] →
  let w' := (modify_llm_settings_basic w).2 in
  ∃ l a c llm,
    llms (config w') !! "llm" = Some l
    ∧ agents (config w') !! OH_DEFAULT_AGENT = Some a
    ∧ agent_objects (memory w') !! a = Some c
    ∧ condenser c = LLMSummarizingCondenserConfig l None None
    ∧ llm_objects (memory w') !! l = Some llm
    ∧ Some (model llm) = Settings.llm_model s
    ∧ api_key llm = Settings.llm_api_key s
    ∧ base_url llm = Settings.llm_base_url s.
Proof.
  intros Hw Hstored w'. subst w'.
  destruct (basic_flow_cases w)
    as [Hun|(p & m & k & entry & w1 & [Hmem Hst] & Hentry & _ & Hrun)].
  { destruct (untouched_not_stored _ _ _ Hun Hstored). }
  rewrite Hrun in *. clear Hrun.
  assert (Hw1 : profiles_allocated w1).
  { unfold profiles_allocated, config. by rewrite Hmem. }
  destruct Hw1 as [Hllm Hagent].
  destruct (basic_save_world _ p m k entry w1 Hentry)
    as (l & named & objects & a & named2 & objects2 & Hrun & Hl & Hgrow
        & Ha & Hgrow2).
  rewrite Hrun in *. clear Hrun. cbn in Hstored |- *.
  rewrite Hst in Hstored. apply app_inv_head in Hstored as [= <-]. cbn.
  assert (Hlive : live named objects).
  { eapply (live_grown _ _ _ _ "llm" l); [exact Hllm|].
    destruct Hgrow as [?|(_ & ? & ? & ?)]; [by left|by right]. }
  assert (Hlive2 : live named2 objects2).
  { eapply (live_grown _ _ _ _ "agent" a); [exact Hagent|].
    destruct Hgrow2 as [?|(_ & _ & ? & ? & ?)]; [by left|by right]. }
  assert (is_Some (objects !! l)) as [llm Hllmobj] by (by eapply Hlive).
  assert (is_Some (objects2 !! a)) as [c Hc]
    by (destruct Ha as [?|[_ ?]]; by eapply Hlive2).
  exists l, a, (set_condenser (LLMSummarizingCondenserConfig l None None) c).
  eexists.
  split_and!.
  - by rewrite lookup_insert_eq.
  - by rewrite lookup_insert_eq.
  - rewrite list_lookup_alter, decide_True by done. by rewrite Hc.
  - done.
  - rewrite !list_lookup_alter, !decide_True by done. by rewrite Hllmobj.
  - done.
  - done.
  - done.
Qed.

End LiveReferences.

(** ** The settings frame *)

Lemma length_string_app (s t : string) :
  String.length (s +:+ t) = String.length s + String.length t.
Proof. induction s as [|a s IH]; simpl; [done|]. by f_equal. Qed.

Lemma length_spaces (n : nat) : String.length (spaces n) = n.
Proof. induction n as [|n IH]; simpl; [done|]. by f_equal. Qed.

Lemma length_ljust (s : string) (width : nat) :
  String.length (ljust s width) = String.length s `max` width.
Proof. unfold ljust. rewrite length_string_app, length_spaces. lia. Qed.

Lemma split_first_append (c : Ascii.ascii) (s t : string) :
  contains_char c s = false →
  split_first c (s +:+ String c t) = s
  ∧ contains_char c (s +:+ String c t) = true.
Proof.
  induction s as [|a s IH]; simpl.
  - intros _. by rewrite !bool_decide_eq_true_2.
  - intros [Ha Hs]%orb_false_elim. apply IH in Hs as [-> ->].
    rewrite Ha. by rewrite orb_true_r.
Qed.

(** X20.  In the settings frame every value starts in the same column:
    each line is the label and its colon, padded with spaces to one more
    than the longest label, then one space, then the value. *)
Theorem settings_values_are_aligned (rows : list (string * string))
    (i : nat) (row : string * string) :
  rows !! i = Some row →
  ∃ pad,
    settings_lines rows !! i
    = Some (((row.1 +:+ ":") +:+ spaces pad) +:+ " " +:+ row.2)
    ∧ String.length ((row.1 +:+ ":") +:+ spaces pad)
      = max_label_width rows + 1.
Proof.
  intros Hrow. unfold settings_lines.
  exists (max_label_width rows + 1 - String.length (row.1 +:+ ":")).
  rewrite list_lookup_fmap, Hrow. split; [done|].
  rewrite !length_string_app, length_spaces. cbn.
  assert (String.length row.1 ≤ max_label_width rows)%nat; [|lia].
  unfold max_label_width. apply max_list_elem_of_le.
  apply list_elem_of_fmap. exists row.1. split; [done|].
  apply list_elem_of_fmap. exists row. split; [done|].
  by eapply list_elem_of_lookup_2.
Qed.

Section SettingsFrame.
Context `{Collaborators}.
Variable LLMConfig_provider : LLMConfig → option string.
Variable path_join : string → string → string.

(** X21.  The settings frame does not depend on what the secrets are, only
    on whether they are set: two configurations that differ in the contents
    of the LLM API key and of the search API key give the same rows. *)
Theorem settings_rows_hide_the_secrets (c : LLMConfig) (cfg : OpenHandsConfig)
    (key1 key2 search1 search2 : option SecretStr) :
  secret_is_set key1 = secret_is_set key2 →
  secret_is_set search1 = secret_is_set search2 →
  LLMConfig_provider (set_api_key key1 c)
  = LLMConfig_provider (set_api_key key2 c) →
  labels_and_values LLMConfig_provider path_join (set_api_key key1 c)
    (set_search_api_key search1 cfg)
  = labels_and_values LLMConfig_provider path_join (set_api_key key2 c)
      (set_search_api_key search2 cfg).
Proof.
  intros Hkey Hsearch Hprovider. unfold labels_and_values, masked.
  rewrite Hprovider. cbn. by rewrite Hkey, Hsearch.
Qed.

(** X22.  For a model saved as provider, slash, name with no base URL, and
    an LLM class without a [provider] attribute, the frame's first row
    shows that provider. *)
Theorem settings_rows_show_the_saved_provider (c : LLMConfig)
    (cfg : OpenHandsConfig) (provider name : string) :
  contains_char slash provider = false →
  model c = provider +:+ "/" +:+ name →
  base_url c = None →
  LLMConfig_provider c = None →
  labels_and_values LLMConfig_provider path_join c cfg !! 0
  = Some ("   LLM Provider", provider).
Proof.
  intros Hp Hmodel Hurl Hattr. unfold labels_and_values.
  destruct (split_first_append slash provider name Hp) as [Hsplit Hin].
  change (String slash name) with ("/" +:+ name) in Hsplit, Hin.
  by rewrite Hurl, Hattr, Hmodel, Hin, Hsplit.
Qed.

(** X23.  [display_settings] returns after printing one frame titled
    Settings and leaves the settings store alone.  It leaves the
    configuration memory alone when the profile [llm] exists, and otherwise
    creates that profile with a default object. *)
Theorem display_settings_prints_one_frame (w : World) :
  profiles_allocated w →
  let w' := (display_settings LLMConfig_provider path_join w).2 in
  ∃ text,
    (display_settings LLMConfig_provider path_join w).1 = Done tt
    ∧ trace (terminal w')
      = trace (terminal w) ++ [Printed ("Settings" +:+ nl +:+ text)]
    ∧ settings_store w' = settings_store w
    ∧ (is_Some (llms (config w) !! "llm") → memory w' = memory w)
    ∧ (llms (config w) !! "llm" = None →
       memory w'
       = memory (with_llms
                   (<["llm" := length (llm_objects (memory w))]>
                      (llms (config w)))
                   (llm_objects (memory w) ++ [LLMConfig_default]) w)).
Proof.
  intros [Hllm _] w'. subst w'.
  destruct (get_llm_config_world LLMConfig_default w "llm")
    as (l & named & objects & Hrun & Hl & Hgrow).
  rewrite bool_decide_eq_false_2 in Hrun by (intros [_ ?]; auto).
  assert (Hlive : live named objects).
  { eapply (live_grown _ _ _ _ "llm" l); [exact Hllm|].
    destruct Hgrow as [?|(_ & _ & ? & ? & ?)]; [by left|by right]. }
  assert (is_Some (objects !! l)) as [c Hc]
    by (destruct Hl as [?|[_ ?]]; by eapply Hlive).
  assert (∃ text,
            display_settings LLMConfig_provider path_join w
            = (Done tt,
               set_terminal
                 (log_event (Printed ("Settings" +:+ nl +:+ text)) (terminal w))
                 (set_warnings (warnings w ++ []) (with_llms named objects w))))
    as [text ->].
  { unfold display_settings. unfold bind at 1. rewrite Hrun.
    unfold bind, read_llm, gets, print_container, modify. cbn. rewrite Hc.
    cbn. by eexists. }
  exists text. cbn. split_and!; [done..| |].
  - intros [l0 Hl0].
    destruct Hgrow as [[-> ->]|(Hnone & _)]; [|by rewrite Hl0 in Hnone].
    by destruct w as [[[] ? ?] ? ? ?].
  - intros Hnone.
    destruct Hgrow as [[-> ->]|(_ & _ & -> & -> & ->)]; [|done].
    destruct Hl as [Hl|[_ Hl]]; by rewrite Hnone in Hl.
Qed.

End SettingsFrame.

(** ** Completers and providers *)

Section Completers.
Context `{Collaborators}.

Lemma emits_silent (P : event → Prop) {A} (m : M A) : silent m → emits P m.
Proof. intros Hm. apply emits_still. intros w. by rewrite Hm. Qed.

Lemma emits_choose_default_model (P : event → Prop) p models :
  emits P (choose_default_model p models).
Proof.
  unfold choose_default_model.
  repeat (apply emits_if; [apply emits_item|]). apply emits_ret.
Qed.

Lemma emits_confirm_then (P : event → Prop) (save : M unit) :
  (∀ q cs a, P (Confirmed q cs a)) → silent save →
  emits P (let* save_settings := save_settings_confirmation in
           if negb save_settings then ret tt else save).
Proof.
  intros HP Hsave. unfold save_settings_confirmation.
  apply emits_bind.
  - apply emits_bind; [by apply emits_cli_confirm|intros; apply emits_ret].
  - intros b. apply emits_if; [apply emits_ret|by apply emits_silent].
Qed.

Lemma completes_printed text : completes_only_where_passed (Printed text).
Proof. by intros ???. Qed.

Lemma completes_confirmed q cs a :
  completes_only_where_passed (Confirmed q cs a).
Proof. by intros ???. Qed.

Lemma completes_none text a :
  completes_only_where_passed (Prompted text None a).
Proof. by intros ???. Qed.

Lemma completes_listed text c a :
  text ∈ completing_prompts →
  completes_only_where_passed (Prompted text c a).
Proof. intros Hin ??? [= -> _ _]. exact Hin. Qed.

Ltac completes_step :=
  first
    [ apply emits_ret
    | apply emits_item
    | apply emits_dict_item
    | apply emits_choose_default_model
    | apply emits_print, completes_printed
    | apply emits_cli_confirm; intros; apply completes_confirmed
    | apply emits_get_validated_input;
      [intros; first [apply completes_none
                     |apply completes_listed; unfold completing_prompts;
                      set_solver]
      |intros; apply completes_printed]
    | apply emits_try
    | apply emits_if
    | apply emits_bind; [|intros] ].

Lemma completes_flows (flow : M unit) :
  flow ∈ wizard_flows → emits completes_only_where_passed flow.
Proof.
  unfold wizard_flows. rewrite !elem_of_cons, elem_of_nil.
  intros [->|[->|[->|[]]]].
  - unfold modify_llm_settings_basic. apply emits_bind.
    + unfold basic_collect, basic_inputs, select_provider, model_and_key,
        select_model, first_key.
      apply emits_bind; [by apply emits_still|intros].
      apply emits_bind; [by apply emits_still|intros].
      repeat completes_step.
      destruct (keys _); by apply emits_still.
    + intros [om [[[p m] k]|]]; [|apply emits_ret].
      apply emits_confirm_then; [apply completes_confirmed|].
      apply silent_basic_save.
  - unfold modify_llm_settings_advanced. apply emits_bind.
    + unfold advanced_collect, advanced_inputs.
      apply emits_bind; [by apply emits_still|intros].
      repeat completes_step.
    + intros [[[[[[cm bu] ak] ag] ecm] emc]|]; [|apply emits_ret].
      apply emits_confirm_then; [apply completes_confirmed|].
      apply silent_advanced_save.
  - unfold modify_search_api_settings. apply emits_bind.
    + unfold search_collect, search_inputs.
      apply emits_bind; [by apply emits_still|intros].
      apply emits_try.
      repeat (apply emits_bind;
              [first [apply emits_print, completes_printed
                     |by apply emits_still
                     |apply emits_cli_confirm; intros; apply completes_confirmed]
              |intros]).
      repeat completes_step.
    + intros [[k|]|]; [|apply emits_ret..].
      apply emits_confirm_then; [apply completes_confirmed|].
      apply silent_search_save.
Qed.

(** X11.  In the three wizard flows only the provider, model and agent
    prompts offer completions: every other prompt, the API key prompts
    among them, is shown with no completer, whatever was prompted before
    it. *)
Theorem completions_only_where_passed (flow : M unit) (w : World)
    (evs : list event) (text : string) (c : list string)
    (answer : exn + string) :
  flow ∈ wizard_flows →
  trace (terminal (flow w).2) = trace (terminal w) ++ evs →
  Prompted text (Some c) answer ∈ evs →
  text ∈ completing_prompts.
Proof.
  intros Hflow Htr Hin.
  destruct (completes_flows flow Hflow w) as (evs' & Htr' & Hall).
  rewrite Htr in Htr'. apply app_inv_head in Htr' as <-.
  rewrite Forall_forall in Hall. by eapply (Hall _ Hin).
Qed.

(** X10.  The provider that [select_provider] returns is a key of the
    registry, so the lookup that follows it finds an entry. *)
Theorem select_provider_returns_registry_provider
    (om : dict ProviderEntry) (vp pc : list string) (p0 : string)
    (w : World) (p : string) :
  (select_provider om vp pc p0 w).1 = Done p →
  is_Some (dict_get om p).
Proof.
  destruct (select_provider om vp pc p0 w) as [r w'] eqn:Hrun.
  cbn. intros ->. unfold select_provider in Hrun.
  apply bind_done_inv in Hrun as (? & w1 & _ & Hrun).
  apply bind_done_inv in Hrun as (i & w2 & _ & Hrun).
  apply bind_done_inv in Hrun as (p1 & w3 & _ & Hrun).
  apply keys_dict_get. unfold first_key, ret, raise in Hrun.
  case_bool_decide as Hp1.
  - case_bool_decide as Hanthropic.
    + by simplify_eq.
    + destruct (keys om) as [|k ks]; [done|].
      simplify_eq. by left.
  - simplify_eq. by destruct (decide (p ∈ keys om)).
Qed.

End Completers.

(** ** The further properties on the concrete setting *)

Lemma example_world_allocated typed picked :
  profiles_allocated (example_world typed picked).
Proof.
  split; intros name l Hl; cbn in Hl.
  - apply lookup_singleton_Some in Hl as [_ <-]. by eexists.
  - by rewrite lookup_empty in Hl.
Qed.

Lemma writes_only_after_yes_witness :
  ∃ evs0,
    trace (terminal (@modify_search_api_settings example_collaborators
                       removing_world).2)
    = evs0 ++ [Confirmed save_question save_choices (inr 0)].
Proof.
  apply (@writes_only_after_yes example_collaborators
           (@modify_search_api_settings example_collaborators) removing_world
           (trace (terminal
                     (@modify_search_api_settings example_collaborators
                        removing_world).2))).
  - apply list_elem_of_further, list_elem_of_further, list_elem_of_here.
  - vm_compute. reflexivity.
  - intros [_ Hstore]. vm_compute in Hstore. discriminate.
Defined.

Lemma cancelling_the_confirmation_escapes_witness :
  (@modify_search_api_settings example_collaborators interrupted_world).1
  = Raised KeyboardInterrupt
  ∧ untouched interrupted_world
      (@modify_search_api_settings example_collaborators interrupted_world).2.
Proof.
  apply (@cancelling_the_confirmation_escapes example_collaborators
           (@modify_search_api_settings example_collaborators) interrupted_world
           (removelast
              (trace (terminal
                        (@modify_search_api_settings example_collaborators
                           interrupted_world).2)))).
  - apply list_elem_of_further, list_elem_of_further, list_elem_of_here.
  - vm_compute. reflexivity.
Defined.

Lemma keeping_the_search_key_asks_nothing_more_witness :
  (@modify_search_api_settings example_collaborators keeping_world).1 = Done tt
  ∧ untouched keeping_world
      (@modify_search_api_settings example_collaborators keeping_world).2
  ∧ dialogs (terminal (@modify_search_api_settings example_collaborators
                         keeping_world).2) = []
  ∧ keyboard (terminal (@modify_search_api_settings example_collaborators
                          keeping_world).2)
    = keyboard (terminal keeping_world).
Proof.
  apply (@keeping_the_search_key_asks_nothing_more example_collaborators
           keeping_world 2 []).
  - reflexivity.
  - lia.
Defined.

Lemma empty_registry_raises_IndexError_witness :
  (@modify_llm_settings_basic bare_collaborators basic_world).1
  = Raised IndexError
  ∧ untouched basic_world
      (@modify_llm_settings_basic bare_collaborators basic_world).2
  ∧ trace (terminal (@modify_llm_settings_basic bare_collaborators
                       basic_world).2)
    = trace (terminal basic_world).
Proof.
  apply (@empty_registry_raises_IndexError bare_collaborators basic_world).
  reflexivity.
Defined.

Lemma flows_store_at_most_once_witness :
  settings_store (@modify_llm_settings_advanced example_collaborators
                    advanced_world).2
  = settings_store advanced_world
  ∨ ∃ s, settings_store (@modify_llm_settings_advanced example_collaborators
                           advanced_world).2
         = {| persisted := Some s;
              stored := stored (settings_store advanced_world) ++ [s] |}.
Proof.
  apply (@flows_store_at_most_once example_collaborators).
  apply list_elem_of_further, list_elem_of_here.
Defined.

Lemma advanced_flow_stores_validated_inputs_witness :
  ∃ ag, ag ∈ @list_agents example_collaborators
        ∧ default_agent
            (config (@modify_llm_settings_advanced example_collaborators
                       advanced_world).2) = ag.
Proof.
  destruct (@advanced_flow_stores_validated_inputs example_collaborators
              advanced_world
              (@last_stored example_collaborators
                 (@modify_llm_settings_advanced example_collaborators
                    advanced_world).2))
    as (cm & bu & ak & ag & _ & _ & _ & _ & _ & _ & _ & Hag & Hdefault & _).
  - vm_compute. reflexivity.
  - exists ag. split; [exact Hag|exact Hdefault].
Defined.

Lemma basic_flow_stores_known_provider_witness :
  ∃ p entry,
    dict_get (@organize_models_and_providers example_collaborators
                (@get_supported_llm_models example_collaborators
                   (memory basic_world))) p = Some entry
    ∧ default_agent
        (config (@modify_llm_settings_basic example_collaborators
                   basic_world).2)
      = @OH_DEFAULT_AGENT example_collaborators.
Proof.
  destruct (@basic_flow_stores_known_provider example_collaborators
              basic_world
              (@last_stored example_collaborators
                 (@modify_llm_settings_basic example_collaborators
                    basic_world).2))
    as (p & entry & m & k & Hentry & _ & _ & _ & _ & _ & Hdefault & _).
  - vm_compute. reflexivity.
  - exists p, entry. split; [exact Hentry|exact Hdefault].
Defined.

Lemma search_flow_changes_only_the_search_key_witness :
  search_api_key
    (config (@modify_search_api_settings example_collaborators
               setting_world).2)
  = Settings.search_api_key
      (@last_stored example_collaborators
         (@modify_search_api_settings example_collaborators setting_world).2).
Proof.
  destruct (@search_flow_changes_only_the_search_key example_collaborators
              setting_world
              (@last_stored example_collaborators
                 (@modify_search_api_settings example_collaborators
                    setting_world).2))
    as (_ & Hsame & _).
  - vm_compute. reflexivity.
  - exact Hsame.
Defined.

Lemma llm_flows_keep_the_search_key_witness :
  search_api_key
    (config (@modify_llm_settings_basic example_collaborators basic_world).2)
  = search_api_key (config basic_world).
Proof.
  destruct (@llm_flows_keep_the_search_key example_collaborators
              (@modify_llm_settings_basic example_collaborators) basic_world)
    as [Hkey _].
  - apply list_elem_of_here.
  - exact Hkey.
Defined.

Lemma flows_keep_references_live_witness :
  profiles_allocated
    (@modify_llm_settings_advanced example_collaborators advanced_world).2.
Proof.
  apply (@flows_keep_references_live example_collaborators).
  - apply list_elem_of_further, list_elem_of_here.
  - apply example_world_allocated.
Defined.

Lemma advanced_flow_rebinds_the_agent_profile_witness :
  ∃ a c,
    agents (config (@modify_llm_settings_advanced example_collaborators
                      advanced_world).2) !! "agent" = Some a
    ∧ agent_objects
        (memory (@modify_llm_settings_advanced example_collaborators
                   advanced_world).2) !! a = Some c
    ∧ enable_default_condenser
        (config (@modify_llm_settings_advanced example_collaborators
                   advanced_world).2)
      = enable_default_condenser (config advanced_world).
Proof.
  destruct (@advanced_flow_rebinds_the_agent_profile example_collaborators
              advanced_world
              (@last_stored example_collaborators
                 (@modify_llm_settings_advanced example_collaborators
                    advanced_world).2))
    as (l & a & c & _ & Ha & Hc & _ & _ & _ & Hflag).
  - apply example_world_allocated.
  - vm_compute. reflexivity.
  - exists a, c. split; [exact Ha|]. split; [exact Hc|exact Hflag].
Defined.

Lemma basic_flow_condenser_shares_the_llm_witness :
  ∃ l a c,
    llms (config (@modify_llm_settings_basic example_collaborators
                    basic_world).2) !! "llm" = Some l
    ∧ agents (config (@modify_llm_settings_basic example_collaborators
                        basic_world).2)
        !! @OH_DEFAULT_AGENT example_collaborators = Some a
    ∧ agent_objects
        (memory (@modify_llm_settings_basic example_collaborators
                   basic_world).2) !! a = Some c
    ∧ condenser c = LLMSummarizingCondenserConfig l None None.
Proof.
  destruct (@basic_flow_condenser_shares_the_llm example_collaborators
              basic_world
              (@last_stored example_collaborators
                 (@modify_llm_settings_basic example_collaborators
                    basic_world).2))
    as (l & a & c & llm & Hl & Ha & Hc & Hcond & _).
  - apply example_world_allocated.
  - vm_compute. reflexivity.
  - exists l, a, c. split; [exact Hl|]. split; [exact Ha|].
    split; [exact Hc|exact Hcond].
Defined.

Lemma settings_values_are_aligned_witness :
  ∃ pad,
    settings_lines [("   Agent", "CodeActAgent");
                    ("   Confirmation Mode", "Enabled")] !! 0
    = Some ((("   Agent" +:+ ":") +:+ spaces pad) +:+ " " +:+ "CodeActAgent")
    ∧ String.length (("   Agent" +:+ ":") +:+ spaces pad)
      = max_label_width [("   Agent", "CodeActAgent");
                         ("   Confirmation Mode", "Enabled")] + 1.
Proof.
  apply (settings_values_are_aligned
           [("   Agent", "CodeActAgent"); ("   Confirmation Mode", "Enabled")]
           0 ("   Agent", "CodeActAgent")).
  reflexivity.
Defined.

Lemma settings_rows_hide_the_secrets_witness :
  @labels_and_values no_provider_attribute posix_join
    (set_api_key (Some (Secret "sk-1")) (mkLLMConfig "openai/gpt-5" None None))
    (set_search_api_key None (config basic_world))
  = @labels_and_values no_provider_attribute posix_join
      (set_api_key (Some (Secret "sk-2"))
         (mkLLMConfig "openai/gpt-5" None None))
      (set_search_api_key (Some (Secret EmptyString)) (config basic_world)).
Proof.
  apply (@settings_rows_hide_the_secrets no_provider_attribute posix_join).
  - reflexivity.
  - reflexivity.
  - reflexivity.
Defined.

Lemma settings_rows_show_the_saved_provider_witness :
  @labels_and_values no_provider_attribute posix_join
    (mkLLMConfig "openai/gpt-5" (Some (Secret "sk-1")) None)
    (config basic_world) !! 0
  = Some ("   LLM Provider", "openai").
Proof.
  apply (@settings_rows_show_the_saved_provider no_provider_attribute
           posix_join
           (mkLLMConfig "openai/gpt-5" (Some (Secret "sk-1")) None)
           (config basic_world) "openai" "gpt-5").
  - reflexivity.
  - reflexivity.
  - reflexivity.
  - reflexivity.
Defined.

Lemma display_settings_prints_one_frame_witness :
  ∃ text,
    (@display_settings example_collaborators no_provider_attribute posix_join
       basic_world).1 = Done tt
    ∧ trace (terminal (@display_settings example_collaborators
                         no_provider_attribute posix_join basic_world).2)
      = trace (terminal basic_world) ++ [Printed ("Settings" +:+ nl +:+ text)].
Proof.
  destruct (@display_settings_prints_one_frame example_collaborators
              no_provider_attribute posix_join basic_world)
    as (text & Hdone & Htrace & _).
  - apply example_world_allocated.
  - exists text. split; [exact Hdone|exact Htrace].
Defined.

Lemma completions_only_where_passed_witness :
  "(Step 4/6) Agent (TAB for options, CTRL-c to cancel): "
  ∈ @completing_prompts example_collaborators.
Proof.
  apply (@completions_only_where_passed example_collaborators
           (@modify_llm_settings_advanced example_collaborators)
           advanced_world
           (trace (terminal (@modify_llm_settings_advanced
                               example_collaborators advanced_world).2))
           "(Step 4/6) Agent (TAB for options, CTRL-c to cancel): "
           ["CodeActAgent"; "BrowsingAgent"] (inr "NoSuchAgent")).
  - apply list_elem_of_further, list_elem_of_here.
  - vm_compute. reflexivity.
  - vm_compute. do 3 apply list_elem_of_further. apply list_elem_of_here.
Defined.

Lemma select_provider_returns_registry_provider_witness :
  is_Some (dict_get (@organize_models_and_providers example_collaborators [])
             "openai").
Proof.
  apply (select_provider_returns_registry_provider
           (@organize_models_and_providers example_collaborators [])
           ["openhands"; "openai"] ["openhands"; "openai"] "openhands"
           typing_provider_world "openai").
  vm_compute. reflexivity.
Defined.
